(** * ACRA presentation viewer: table extractor, annotation classifier and
      project-record editing, embedded from the JavaScript sources

    The development follows the source files of the front end.

    - [old/PptxViewer.js], function [parsePptx]: the title resolution and
      the table extraction of one slide part (module [Parser]), the order
      of the slide parts (module [Package]); [addSlide], [deleteSlide] and
      [createNewPresentation] (module [Deck]).
    - the current [PptxViewer] component: [extractAlertsFromHtml],
      [convertProjectDataToSlides], [handleStructuredContentEdit] and
      [updateProjectData] (module [Viewer]); [updateFormattedContent] and
      [escapeHtml] (module [Formatting]).
    - [App] and [FileList]: the open presentations and the file list
      (module [App]).
    - [ChatBot]: [extractChatIdFromUrl] (module [Chat]).

    The previews, the export and the merge service build on the DOM, on
    floating-point rounding and on library calls, and are not embedded.

    Both scrape text with regular expressions, so the embedding starts with
    the JavaScript string primitives the sources call (module [Js]) and a
    backtracking matcher for the fragment of regular expressions they use
    (module [Regex]).

    Conventions.  A JavaScript string is the string of bytes of its UTF-8
    encoding.  Every pattern of the sources is ASCII, so matching bytes and
    matching code units agree; the pattern [.], [trim] and [parseInt],
    which tell the line separators U+2028/U+2029 and the white space
    beyond ASCII from other characters, read their encodings.  A JavaScript
    number that the sources obtain from [parseInt], from a length or from
    integer additions is [NaN] or an exact integer; rounding beyond 2^53 is
    outside the model. *)

From Stdlib Require Import String Ascii List ZArith Lia Bool PeanoNat.
Import ListNotations.
Local Open Scope list_scope.
Local Open Scope string_scope.

(* ================================================================== *)
(** ** JavaScript strings and numbers *)
(* ================================================================== *)

Module Js.

(** The double quote, which the patterns of the sources contain. *)
Definition dq : string := String "034"%char EmptyString.

(** *** Numbers *)

Inductive number : Type :=
| NaN
| Num (z : Z).

Definition add (a b : number) : number :=
  match a, b with
  | Num x, Num y => Num (x + y)
  | _, _ => NaN
  end.

Definition sub (a b : number) : number :=
  match a, b with
  | Num x, Num y => Num (x - y)
  | _, _ => NaN
  end.

(** [a < b]: false as soon as one side is [NaN]. *)
Definition lt (a b : number) : bool :=
  match a, b with
  | Num x, Num y => (x <? y)%Z
  | _, _ => false
  end.

(** [Math.max(a, b)]. *)
Definition max (a b : number) : number :=
  match a, b with
  | Num x, Num y => Num (Z.max x y)
  | _, _ => NaN
  end.

(** Truthiness of a number: [0] and [NaN] are falsy. *)
Definition truthy (a : number) : bool :=
  match a with
  | NaN => false
  | Num z => negb (z =? 0)%Z
  end.

(** [a || b] on numbers. *)
Definition or_else (a b : number) : number :=
  if truthy a then a else b.

Definition of_nat (n : nat) : number := Num (Z.of_nat n).

(** *** Prefixes and searching *)

(** [strip_prefix p s] is the rest of [s] after its prefix [p]. *)
Fixpoint strip_prefix (p s : string) : option string :=
  match p with
  | EmptyString => Some s
  | String a p' =>
      match s with
      | String b s' => if Ascii.eqb a b then strip_prefix p' s' else None
      | EmptyString => None
      end
  end.

(** [split_first needle hay]: the text before and after the first
    occurrence of [needle] ([indexOf]). *)
Fixpoint split_first (needle hay : string) : option (string * string) :=
  match strip_prefix needle hay with
  | Some rest => Some (EmptyString, rest)
  | None =>
      match hay with
      | EmptyString => None
      | String c hay' =>
          match split_first needle hay' with
          | Some (pre, post) => Some (String c pre, post)
          | None => None
          end
      end
  end.

(** [hay.includes(needle)]. *)
Definition includes (needle hay : string) : bool :=
  match split_first needle hay with
  | Some _ => true
  | None => false
  end.

(** Whether the character [c] occurs in [s]. *)
Fixpoint has_char (c : ascii) (s : string) : bool :=
  match s with
  | EmptyString => false
  | String d s' => Ascii.eqb c d || has_char c s'
  end.

(** The text begins with [<], as the tags of the sources do. *)
Definition lt_headed (s : string) : Prop := exists l, s = String "<" l.

(** The first [n] characters. *)
Fixpoint take (n : nat) (s : string) : string :=
  match n, s with
  | S n', String c s' => String c (take n' s')
  | _, _ => EmptyString
  end.

(** [xs.join(sep)]. *)
Fixpoint join (sep : string) (xs : list string) : string :=
  match xs with
  | [] => EmptyString
  | [x] => x
  | x :: rest => x ++ sep ++ join sep rest
  end.

(** *** Replacement templates ([GetSubstitution])

    [replace] expands [$$], [$&], [$`], [$'] and [$n]/[$nn] in the
    replacement text.  [$<] stays literal: the sources have no named
    group. *)

Definition is_digit (c : ascii) : bool :=
  (48 <=? nat_of_ascii c)%nat && (nat_of_ascii c <=? 57)%nat.

Definition digit_val (c : ascii) : nat := nat_of_ascii c - 48.

Definition capture (captures : list string) (n : nat) : option string :=
  if ((1 <=? n) && (n <=? List.length captures))%nat
  then Some (nth (n - 1) captures EmptyString)
  else None.

Fixpoint get_substitution (matched before after : string)
    (captures : list string) (template : string) : string :=
  let go := get_substitution matched before after captures in
  match template with
  | EmptyString => EmptyString
  | String "$" t =>
      match t with
      | String "$" t' => String "$" (go t')
      | String "&" t' => matched ++ go t'
      | String "`" t' => before ++ go t'
      | String "'" t' => after ++ go t'
      | String d1 t' =>
          if is_digit d1 then
            let one :=
              match capture captures (digit_val d1) with
              | Some c => c ++ go t'
              | None => String "$" (String d1 (go t'))
              end in
            match t' with
            | String d2 t'' =>
                if is_digit d2 then
                  match capture captures (10 * digit_val d1 + digit_val d2) with
                  | Some c => c ++ go t''
                  | None => one
                  end
                else one
            | EmptyString => one
            end
          else String "$" (go t)
      | EmptyString => String "$" EmptyString
      end
  | String c t => String c (go t)
  end.

(** [s.replace(pattern, replacement)] with a string pattern: the first
    occurrence only, the replacement expanded as a template. *)
Definition replace_str (pattern replacement s : string) : string :=
  match split_first pattern s with
  | Some (pre, post) =>
      pre ++ get_substitution pattern pre post [] replacement ++ post
  | None => s
  end.

(** *** White space, [trim] and [parseInt]

    [trim] and [parseInt] strip the white space characters and the line
    terminators of ECMAScript.  Those below U+0080 are one byte each;
    the others are read in their UTF-8 encoding, which in a UTF-8 text
    occurs at these characters only: U+00A0 (C2 A0), U+1680 (E1 9A 80),
    U+2000 to U+200A (E2 80 80 to E2 80 8A), U+2028 and U+2029
    (E2 80 A8, E2 80 A9), U+202F (E2 80 AF), U+205F (E2 81 9F), U+3000
    (E3 80 80) and U+FEFF (EF BB BF). *)

(** U+0009 to U+000D and U+0020. *)
Definition is_space (c : ascii) : bool :=
  let n := nat_of_ascii c in
  ((9 <=? n) && (n <=? 13) || (n =? 32))%nat.

(** The two bytes of U+00A0. *)
Definition wide_space2 (c d : ascii) : bool :=
  ((nat_of_ascii c =? 194) && (nat_of_ascii d =? 160))%nat.

(** The two bytes that follow E2 in U+2028 and in U+2029. *)
Definition separator_tail (d e : ascii) : bool :=
  ((nat_of_ascii d =? 128)
   && ((nat_of_ascii e =? 168) || (nat_of_ascii e =? 169)))%nat.

(** The three bytes of a white space character or line terminator from
    U+0800 on. *)
Definition wide_space3 (c d e : ascii) : bool :=
  let c := nat_of_ascii c in
  let d' := nat_of_ascii d in
  let e' := nat_of_ascii e in
  ((c =? 225) && (d' =? 154) && (e' =? 128)
   || (c =? 226)
      && ((d' =? 128) && ((128 <=? e') && (e' <=? 138) || (e' =? 175))
          || separator_tail d e
          || (d' =? 129) && (e' =? 159))
   || (c =? 227) && (d' =? 128) && (e' =? 128)
   || (c =? 239) && (d' =? 187) && (e' =? 191))%nat.

Fixpoint trim_start (s : string) : string :=
  match s with
  | EmptyString => EmptyString
  | String c s1 =>
      if is_space c then trim_start s1
      else
        match s1 with
        | String d s2 =>
            if wide_space2 c d then trim_start s2
            else
              match s2 with
              | String e s3 =>
                  if wide_space3 c d e then trim_start s3 else s
              | EmptyString => s
              end
        | EmptyString => s
        end
  end.

(** What is white space up to the end is dropped. *)
Fixpoint trim_end (s : string) : string :=
  match s with
  | EmptyString => EmptyString
  | String c s' =>
      match trim_start s with
      | EmptyString => EmptyString
      | _ => String c (trim_end s')
      end
  end.

Definition trim (s : string) : string := trim_end (trim_start s).

(** Value of a digit in the given radix. *)
Definition radix_digit (radix : nat) (c : ascii) : option Z :=
  let n := nat_of_ascii c in
  let v :=
    if ((48 <=? n) && (n <=? 57))%nat then Some (n - 48)%nat
    else if ((97 <=? n) && (n <=? 122))%nat then Some (n - 87)%nat
    else if ((65 <=? n) && (n <=? 90))%nat then Some (n - 55)%nat
    else None in
  match v with
  | Some d => if (d <? radix)%nat then Some (Z.of_nat d) else None
  | None => None
  end.

(** The longest prefix of digits, read left to right. *)
Fixpoint digits (radix : nat) (acc : option Z) (s : string) : option Z :=
  match s with
  | EmptyString => acc
  | String c s' =>
      match radix_digit radix c with
      | Some d =>
          digits radix
            (Some (match acc with
                   | Some a => a * Z.of_nat radix + d
                   | None => d
                   end)%Z) s'
      | None => acc
      end
  end.

(** [parseInt(s)] without a radix argument. *)
Definition parseInt (s : string) : number :=
  let s1 := trim_start s in
  let '(neg, s2) :=
    match s1 with
    | String "-" r => (true, r)
    | String "+" r => (false, r)
    | _ => (false, s1)
    end in
  let '(radix, s3) :=
    match s2 with
    | String "0" (String "x" r) => (16%nat, r)
    | String "0" (String "X" r) => (16%nat, r)
    | _ => (10%nat, s2)
    end in
  match digits radix None s3 with
  | Some v => Num (if neg then - v else v)
  | None => NaN
  end.

End Js.

(* ================================================================== *)
(** ** The regular expressions of the sources *)
(* ================================================================== *)

(** Every pattern of the two files is a sequence of literal texts and of
    repetitions of one character class, greedy (any characters but [>], one
    or more characters but the double quote) or lazy ([.*?], [[\s\S]*?]),
    some of them captured.  [match_here] is the
    backtracking matcher of ECMAScript on that fragment: a repetition tries
    its lengths in order (longest first when greedy, shortest first when
    lazy) and keeps the first for which the rest of the pattern matches. *)

Module Regex.

Inductive quant : Type := Greedy | Lazy.

Inductive item : Type :=
| Lit (l : string)
| Rep (q : quant) (min : nat) (cls : ascii -> bool) (cap : bool)
| Dot (q : quant) (min : nat) (cap : bool).

Definition regex : Type := list item.

(** Character classes.  [dot] is the test of [.] on one byte: it
    refuses LF and CR. *)
Definition dot (c : ascii) : bool :=
  negb (Ascii.eqb c "010"%char || Ascii.eqb c "013"%char).
Definition any (_ : ascii) : bool := true.
Definition not_gt (c : ascii) : bool := negb (Ascii.eqb c ">"%char).
Definition not_dq (c : ascii) : bool := negb (Ascii.eqb c "034"%char).

(** A match at the current position: the captures, in order, and the text
    left after the match. *)
Definition result : Type := (list string * string)%type.

Section Repetition.
Variable cls : ascii -> bool.
Variable cap : bool.
(** The rest of the pattern. *)
Variable k : string -> option result.

Definition finish (acc s : string) : option result :=
  match k s with
  | Some (caps, rest) => Some ((if cap then [acc] else []) ++ caps, rest)%list
  | None => None
  end.

Fixpoint rep_lazy (min : nat) (acc s : string) {struct s} : option result :=
  match min with
  | O =>
      match finish acc s with
      | Some r => Some r
      | None =>
          match s with
          | String c s' =>
              if cls c then rep_lazy 0 (acc ++ String c EmptyString) s'
              else None
          | EmptyString => None
          end
      end
  | S m =>
      match s with
      | String c s' =>
          if cls c then rep_lazy m (acc ++ String c EmptyString) s'
          else None
      | EmptyString => None
      end
  end.

Fixpoint rep_greedy (min : nat) (acc s : string) {struct s} : option result :=
  let stop := match min with O => finish acc s | S _ => None end in
  match s with
  | String c s' =>
      if cls c then
        match rep_greedy (pred min) (acc ++ String c EmptyString) s' with
        | Some r => Some r
        | None => stop
        end
      else stop
  | EmptyString => stop
  end.
End Repetition.

(** The pattern [.] accepts every code unit but the four line
    terminators: LF, CR, U+2028 and U+2029.  The last two are the bytes
    E2 80 A8 and E2 80 A9, so the test at a byte [c] reads the text [s']
    that follows it. *)
Definition separator_at (c : ascii) (s' : string) : bool :=
  (nat_of_ascii c =? 226)%nat
  && match s' with
     | String d (String e _) => Js.separator_tail d e
     | _ => false
     end.

Definition dot_at (c : ascii) (s' : string) : bool :=
  dot c && negb (separator_at c s').

(** Whether U+2028 or U+2029 occurs in the text. *)
Fixpoint has_separator (s : string) : bool :=
  match s with
  | EmptyString => false
  | String c s' => separator_at c s' || has_separator s'
  end.

Section AnyCharacter.
Variable cap : bool.
Variable k : string -> option result.

(** [.{min,}?] and [.{min,}], as [rep_lazy] and [rep_greedy]. *)
Fixpoint dot_lazy (min : nat) (acc s : string) {struct s} : option result :=
  match min with
  | O =>
      match finish cap k acc s with
      | Some r => Some r
      | None =>
          match s with
          | String c s' =>
              if dot_at c s' then dot_lazy 0 (acc ++ String c EmptyString) s'
              else None
          | EmptyString => None
          end
      end
  | S m =>
      match s with
      | String c s' =>
          if dot_at c s' then dot_lazy m (acc ++ String c EmptyString) s'
          else None
      | EmptyString => None
      end
  end.

Fixpoint dot_greedy (min : nat) (acc s : string) {struct s} : option result :=
  let stop := match min with O => finish cap k acc s | S _ => None end in
  match s with
  | String c s' =>
      if dot_at c s' then
        match dot_greedy (pred min) (acc ++ String c EmptyString) s' with
        | Some r => Some r
        | None => stop
        end
      else stop
  | EmptyString => stop
  end.
End AnyCharacter.

Fixpoint match_here (re : regex) (s : string) : option result :=
  match re with
  | [] => Some ([], s)
  | Lit l :: re' =>
      match Js.strip_prefix l s with
      | Some r => match_here re' r
      | None => None
      end
  | Rep Greedy min cls cap :: re' =>
      rep_greedy cls cap (match_here re') min EmptyString s
  | Rep Lazy min cls cap :: re' =>
      rep_lazy cls cap (match_here re') min EmptyString s
  | Dot Greedy min cap :: re' =>
      dot_greedy cap (match_here re') min EmptyString s
  | Dot Lazy min cap :: re' =>
      dot_lazy cap (match_here re') min EmptyString s
  end.

(** What a match leaves is a suffix of what it was given. *)
Definition leaves_suffix (k : string -> option result) : Prop :=
  forall s caps rest, k s = Some (caps, rest) -> exists m, s = m ++ rest.

(** The text a match at the start of [s] consumed, given what it left. *)
Definition consumed (s rest : string) : string :=
  Js.take (String.length s - String.length rest) s.

(** One match: text before, matched text, captures, text after. *)
Record found : Type := Found {
  before : string;
  matched : string;
  groups : list string;
  after : string
}.

(** [re.exec(s)] / [s.match(re)] without the [g] flag: the leftmost
    match. *)
Fixpoint exec (re : regex) (s : string) : option found :=
  match match_here re s with
  | Some (caps, rest) => Some (Found EmptyString (consumed s rest) caps rest)
  | None =>
      match s with
      | EmptyString => None
      | String c s' =>
          match exec re s' with
          | Some f => Some (Found (String c (before f)) (matched f) (groups f) (after f))
          | None => None
          end
      end
  end.

(** Capture [n] of the leftmost match ([m[n]] for [n >= 1]). *)
Definition group (n : nat) (f : found) : string :=
  nth (n - 1) (groups f) EmptyString.

(** [s.match(re)] with the [g] flag: the matched texts, left to right;
    the empty list stands for [null].  [skip] characters belong to the
    previous match; after an empty match the search moves one character
    on. *)
Fixpoint match_all_from (re : regex) (skip : nat) (s : string) : list string :=
  match skip with
  | S n =>
      match s with
      | String _ s' => match_all_from re n s'
      | EmptyString => []
      end
  | O =>
      match match_here re s with
      | Some (_, rest) =>
          let m := consumed s rest in
          m :: match s with
               | String _ s' => match_all_from re (pred (String.length m)) s'
               | EmptyString => []
               end
      | None =>
          match s with
          | String _ s' => match_all_from re 0 s'
          | EmptyString => []
          end
      end
  end.

Definition match_all (re : regex) (s : string) : list string :=
  match_all_from re 0 s.

(** [s.replace(re, template)] without the [g] flag. *)
Definition replace (re : regex) (template s : string) : string :=
  match exec re s with
  | Some f =>
      before f
      ++ Js.get_substitution (matched f) (before f) (after f) (groups f) template
      ++ after f
  | None => s
  end.

(** [s.replace(/lit/g, by)] for a literal, non-empty pattern and a
    replacement text without [$]: every occurrence, left to right, without
    overlap. *)
Fixpoint replace_all_from (lit by_ : string) (skip : nat) (s : string) : string :=
  match skip with
  | S n =>
      match s with
      | String _ s' => replace_all_from lit by_ n s'
      | EmptyString => EmptyString
      end
  | O =>
      match Js.strip_prefix lit s with
      | Some _ =>
          match lit, s with
          | String _ l', String _ s' =>
              by_ ++ replace_all_from lit by_ (String.length l') s'
          | _, _ => s
          end
      | None =>
          match s with
          | String c s' => String c (replace_all_from lit by_ 0 s')
          | EmptyString => EmptyString
          end
      end
  end.

Definition replace_all (lit by_ s : string) : string :=
  replace_all_from lit by_ 0 s.

End Regex.

(* ================================================================== *)
(** ** Objects used as maps *)
(* ================================================================== *)

(** [activities] is a plain object keyed by project name.  Its entries are
    kept in the order [Object.keys] and [Object.entries] enumerate them:
    the keys that are array indices first, in increasing order, then the
    other keys in the order they were added. *)

Module Obj.

Section WithValue.
Context {V : Type}.

Definition t : Type := list (string * V).

Definition keys (o : t) : list string := map fst o.

(** The names every object inherits from [Object.prototype].  A read
    [o[k]] of such a name finds the inherited member when [o] has no entry
    [k]; [get] below reads the entries only, and the statements that read
    an arbitrary name leave these names out. *)
Definition inherited (k : string) : bool :=
  existsb (String.eqb k)
    [ "__proto__"; "constructor"; "hasOwnProperty"; "isPrototypeOf";
      "propertyIsEnumerable"; "toLocaleString"; "toString"; "valueOf";
      "__defineGetter__"; "__defineSetter__"; "__lookupGetter__";
      "__lookupSetter__" ].

Fixpoint get (k : string) (o : t) : option V :=
  match o with
  | [] => None
  | (k', v) :: o' => if String.eqb k k' then Some v else get k o'
  end.

(** [delete o[k]]. *)
Fixpoint remove (k : string) (o : t) : t :=
  match o with
  | [] => []
  | (k', v) :: o' =>
      if String.eqb k k' then remove k o' else (k', v) :: remove k o'
  end.

(** A key is an array index when it is the canonical decimal text of an
    integer below 2^32 - 1. *)
Definition all_digits (s : string) : bool :=
  forallb Js.is_digit (list_ascii_of_string s).

Definition array_index (k : string) : option Z :=
  match k with
  | EmptyString => None
  | String "0" EmptyString => Some 0%Z
  | String "0" _ => None
  | _ =>
      if all_digits k then
        match Js.digits 10 None k with
        | Some v => if (v <? 4294967295)%Z then Some v else None
        | None => None
        end
      else None
  end.

Fixpoint update (k : string) (v : V) (o : t) : t :=
  match o with
  | [] => []
  | (k', v') :: o' =>
      if String.eqb k k' then (k', v) :: o' else (k', v') :: update k v o'
  end.

(** A new array-index key goes before the first key that is not an
    array index or is a larger one. *)
Fixpoint insert_index (i : Z) (k : string) (v : V) (o : t) : t :=
  match o with
  | [] => [(k, v)]
  | (k', v') :: o' =>
      match array_index k' with
      | Some j =>
          if (j <? i)%Z then (k', v') :: insert_index i k v o'
          else (k, v) :: o
      | None => (k, v) :: o
      end
  end.

(** [o[k] = v].  Assigning to [__proto__] sets the prototype of the
    object and adds no entry. *)
Definition set (k : string) (v : V) (o : t) : t :=
  if String.eqb k "__proto__" then o
  else
    match get k o with
    | Some _ => update k v o
    | None =>
        match array_index k with
        | Some i => insert_index i k v o
        | None => (o ++ [(k, v)])%list
        end
    end.

(** Rebuilding an object entry by entry, by assignments.  Rebuilding
    gives the list back exactly when it has no key twice, its array
    indices first and increasing, and no key [__proto__]. *)
Definition rebuild (o : t) : t :=
  fold_left (fun acc e => set (fst e) (snd e) acc) o [].

Definition canonical (o : t) : Prop := rebuild o = o.
End WithValue.

Arguments t V : clear implicits.

Definition map_values {V W : Type} (f : V -> W) (o : t V) : t W :=
  map (fun e => (fst e, f (snd e))) o.

End Obj.

(* ================================================================== *)
(** ** The viewer component: project data, slides and edits *)
(* ================================================================== *)

Module Viewer.

Import Js Regex.

(** *** Project data

    The payload has its declared shape: every project has an information
    text and three alert lists, and the metadata has a title.  On such a
    payload the guards of the source for absent fields ([?.], [|| '']) do
    nothing, except that an empty title is replaced by a default. *)

Record alertSet : Type := AlertSet {
  advancements : list string;
  small_alerts : list string;
  critical_alerts : list string
}.

Record projectInfo : Type := ProjectInfo {
  information : string;
  alerts : alertSet
}.

Record metadata : Type := Metadata {
  title : string
}.

(** [upcoming_events] is optional: [updateProjectData] builds an object
    that may lack it. *)
Record projectData : Type := ProjectData {
  activities : Obj.t projectInfo;
  upcoming_events : option string;
  meta : metadata
}.

Definition no_alerts : alertSet := AlertSet [] [] [].

(** *** Colour markup *)

Definition green_open : string :=
  "<span style=" ++ dq ++ "color: green;" ++ dq ++ ">".
Definition orange_open : string :=
  "<span style=" ++ dq ++ "color: orange;" ++ dq ++ ">".
Definition red_open : string :=
  "<span style=" ++ dq ++ "color: red; font-weight: bold;" ++ dq ++ ">".
Definition span_close : string := "</span>".

(** [/<span style=...>(.*?)<\/span>/] for one opening tag. *)
Definition span_re (open : string) : regex :=
  [Lit open; Dot Lazy 0 true; Lit span_close].

(** The text of one matched span: the first opening tag and the first
    closing tag removed. *)
Definition span_content (open m : string) : string :=
  Regex.replace [Lit span_close] EmptyString
    (Regex.replace [Lit open] EmptyString m).

Definition extract_tier (open htmlContent : string) : list string :=
  map (span_content open) (match_all (span_re open) htmlContent).

Definition extractAlertsFromHtml (htmlContent : string) : alertSet :=
  {| advancements := extract_tier green_open htmlContent;
     small_alerts := extract_tier orange_open htmlContent;
     critical_alerts := extract_tier red_open htmlContent |}.

(** The three tiers and their opening tags. *)
Inductive tier : Type := Advancement | SmallAlert | CriticalAlert.

Definition tier_open (t : tier) : string :=
  match t with
  | Advancement => green_open
  | SmallAlert => orange_open
  | CriticalAlert => red_open
  end.

Definition tier_alerts (t : tier) (a : alertSet) : list string :=
  match t with
  | Advancement => advancements a
  | SmallAlert => small_alerts a
  | CriticalAlert => critical_alerts a
  end.

Definition starts_with (p s : string) : bool :=
  match strip_prefix p s with
  | Some _ => true
  | None => false
  end.

(** The tiers whose exact opening tag the text [m] begins with. *)
Definition tiers_of_span (m : string) : list tier :=
  filter (fun t => starts_with (tier_open t) m)
    [Advancement; SmallAlert; CriticalAlert].

(** The alert set with the single phrase [p], in tier [t]. *)
Definition single_alert (t : tier) (p : string) : alertSet :=
  match t with
  | Advancement => AlertSet [p] [] []
  | SmallAlert => AlertSet [] [p] []
  | CriticalAlert => AlertSet [] [] [p]
  end.

(** One tier of [convertProjectDataToSlides]: each phrase, in list order,
    has its first occurrence in the current text replaced by the phrase
    wrapped in the tier's span.  The wrapped phrase is a replacement
    template. *)
Definition inject_tier (open : string) (phrases : list string)
    (html : string) : string :=
  fold_left
    (fun h phrase => replace_str phrase (open ++ phrase ++ span_close) h)
    phrases html.

Definition informationHtml (info : projectInfo) : string :=
  inject_tier red_open (critical_alerts (alerts info))
    (inject_tier orange_open (small_alerts (alerts info))
       (inject_tier green_open (advancements (alerts info))
          (information info))).

(** *** Marked-up texts

    A text made of plain stretches and colour spans that are not nested. *)

Inductive segment : Type :=
| Plain (s : string)
| Tagged (t : tier) (body : string).

Definition render_segment (sg : segment) : string :=
  match sg with
  | Plain s => s
  | Tagged t body => tier_open t ++ body ++ span_close
  end.

Fixpoint render (segs : list segment) : string :=
  match segs with
  | [] => EmptyString
  | sg :: rest => render_segment sg ++ render rest
  end.

Definition tier_eqb (a b : tier) : bool :=
  match a, b with
  | Advancement, Advancement => true
  | SmallAlert, SmallAlert => true
  | CriticalAlert, CriticalAlert => true
  | _, _ => false
  end.

(** The bodies of the spans of tier [t], in text order. *)
Fixpoint spans_of (t : tier) (segs : list segment) : list string :=
  match segs with
  | [] => []
  | Plain _ :: rest => spans_of t rest
  | Tagged t' body :: rest =>
      if tier_eqb t t' then body :: spans_of t rest else spans_of t rest
  end.

(** A text without line terminator: no LF, no CR, no U+2028 and no
    U+2029. *)
Definition one_line (s : string) : Prop :=
  has_char "010" s = false /\ has_char "013" s = false
  /\ has_separator s = false.

(** No [<] in a plain stretch; no [<] and no line terminator in a span. *)
Definition flat_segment (sg : segment) : Prop :=
  match sg with
  | Plain s => has_char "<" s = false
  | Tagged _ body => has_char "<" body = false /\ one_line body
  end.

(** The phrases of an alert set with their tiers, in the order
    [convertProjectDataToSlides] injects them. *)
Definition tagged_phrases (a : alertSet) : list (tier * string) :=
  (map (pair Advancement) (advancements a)
   ++ map (pair SmallAlert) (small_alerts a)
   ++ map (pair CriticalAlert) (critical_alerts a))%list.

(** One injection: the first occurrence of the phrase is wrapped. *)
Definition inject_phrase (html : string) (tp : tier * string) : string :=
  replace_str (snd tp) (tier_open (fst tp) ++ snd tp ++ span_close) html.

(** A phrase without [<], [$] and line terminator. *)
Definition clean_phrase (p : string) : Prop :=
  has_char "<" p = false /\ has_char "$" p = false /\ one_line p.

(** [marks segs phrases final]: injecting [phrases] one after the other
    into the marked-up text [segs] hits plain text every time.  At each
    step the first occurrence of the phrase in the text marked so far lies
    in a plain stretch, which the step splits around the new span, and no
    span of the same tier follows it; [final] is the text after the last
    step. *)
Inductive marks : list segment -> list (tier * string) -> list segment -> Prop :=
| marks_done (segs : list segment) : marks segs [] segs
| marks_step (before after : list segment) (pre p post : string) (t : tier)
    (rest : list (tier * string)) (final : list segment) :
    split_first p (render (before ++ Plain (pre ++ p ++ post) :: after))
    = Some (render before ++ pre, post ++ render after) ->
    spans_of t after = [] ->
    marks (before ++ Plain pre :: Tagged t p :: Plain post :: after) rest final ->
    marks (before ++ Plain (pre ++ p ++ post) :: after) ((t, p) :: rest) final.

(** *** Slides *)

Record cellStyle : Type := CellStyle {
  bold : option bool;
  bgColor : option string
}.

(** [html] absent is falsy and reads [false]. *)
Record cell : Type := Cell {
  text : string;
  html : bool;
  rowSpan : nat;
  colSpan : nat;
  style : option cellStyle
}.

Record table : Type := Table {
  rows : list (list cell);
  hasHeader : bool;
  headerStyle : cellStyle;
  colsCount : nat;
  colWidths : list nat
}.

Inductive item : Type :=
| TextItem (text_content : string) (isTitle : bool)
| TableItem (table_content : list (list string)) (tableObject : table).

Record slide : Type := Slide {
  id : string;
  slide_title : string;
  content : string;
  structuredContent : list item;
  tables : list table;
  images : list string
}.

Definition header_style : cellStyle := CellStyle (Some true) (Some "F0F0F0").

Definition header_row : list cell :=
  [ Cell "Projet" false 1 1 (Some header_style);
    Cell "Information" false 1 1 (Some header_style);
    Cell "Événements à venir" false 1 1 (Some header_style) ].

(** [s || d] on strings. *)
Definition str_or (s d : string) : string :=
  match s with EmptyString => d | _ => s end.

Definition opt_str (s : option string) : string :=
  match s with Some x => x | None => EmptyString end.

(** The row of the project at position [index] of [Object.entries]. *)
Definition project_row (projectData : projectData) (index : nat)
    (entry : string * projectInfo) : list cell :=
  let '(projectName, projectInfo) := entry in
  ([ Cell projectName false 1 1 (Some (CellStyle (Some true) None));
     Cell (informationHtml projectInfo) true 1 1 None ]
   ++ (if (index =? 0)%nat
       then [ Cell (opt_str (upcoming_events projectData)) false
                (List.length (Obj.keys (activities projectData))) 1
                (Some (CellStyle None (Some "F5F5F5"))) ]
       else []))%list.

Fixpoint project_rows (projectData : projectData) (index : nat)
    (entries : list (string * projectInfo)) : list (list cell) :=
  match entries with
  | [] => []
  | e :: rest =>
      project_row projectData index e :: project_rows projectData (S index) rest
  end.

Definition project_table (projectData : projectData) : table :=
  {| rows := header_row :: project_rows projectData 0 (activities projectData);
     hasHeader := true;
     headerStyle := header_style;
     colsCount := 3;
     colWidths := [150; 450; 250]%nat |}.

Definition default_title : string := "Présentation sans titre".

(** The slides are rebuilt from the project data at every use.  The rows
    of [tables[0]] and of the table item are one shared array. *)
Definition convertProjectDataToSlides (projectData : projectData) : list slide :=
  let t := str_or (title (meta projectData)) default_title in
  let has_table := (0 <? List.length (Obj.keys (activities projectData)))%nat in
  let tbl := project_table projectData in
  [ {| id := "slide-1";
       slide_title := t;
       content := EmptyString;
       structuredContent :=
         TextItem t true
         :: (if has_table
             then [TableItem (map (map text) (rows tbl)) tbl]
             else []);
       tables := if has_table then [tbl] else [];
       images := [] |} ].

(** A cell of row span 1 and column span 1. *)
Definition unit_spans (c : cell) : Prop := rowSpan c = 1%nat /\ colSpan c = 1%nat.

Definition bold_cell (c : cell) : Prop :=
  exists st, style c = Some st /\ bold st = Some true.

(** The slide an edit of slide 0 works on. *)
Definition main_slide (projectData : projectData) : option slide :=
  hd_error (convertProjectDataToSlides projectData).

(** *** Reducing slides back to project data ([updateProjectData]) *)

(** One iteration of the loop over the data rows. *)
Definition reduce_row (acts : Obj.t projectInfo) (row : list cell)
    : Obj.t projectInfo :=
  match row with
  | c0 :: c1 :: _ =>
      match text c0 with
      | EmptyString => acts
      | projectName =>
          Obj.set projectName
            {| information := text c1;
               alerts := extractAlertsFromHtml (text c1) |} acts
      end
  | _ => acts
  end.

Definition updateProjectData (slides : list slide) (originalData : projectData)
    : projectData :=
  match slides with
  | [] => originalData
  | mainSlide :: _ =>
      match tables mainSlide with
      | [] =>
          {| activities := []; upcoming_events := None;
             meta := meta originalData |}
      | table :: _ =>
          {| activities := fold_left reduce_row (tl (rows table)) [];
             upcoming_events :=
               match rows table with
               | _ :: (_ :: _ :: c2 :: _) :: _ => Some (text c2)
               | _ => None
               end;
             meta := meta originalData |}
      end
  end.

(** What a project comes back as: its information with the markup
    injected, and the classification of that text. *)
Definition marked_up (info : projectInfo) : projectInfo :=
  {| information := informationHtml info;
     alerts := extractAlertsFromHtml (informationHtml info) |}.

(** *** Editing ([handleStructuredContentEdit]) *)

Record presentation : Type := Presentation {
  filename : option string;
  project_data : projectData
}.

(** The component state the handler reads and writes. *)
Record state : Type := State {
  presentations : list presentation;
  currentPresIndex : nat
}.

(** The blurred element: its [data-*] attributes ([None] when absent) and
    its [innerText]. *)
Record event : Type := Event {
  data_slide_index : option string;
  data_element_type : option string;
  data_element_index : option string;
  data_row_index : option string;
  data_cell_index : option string;
  innerText : string
}.

Inductive js_error : Type := TypeError.

(** What a call of the handler does: it returns before writing anything,
    it calls [setPresentations], or it throws. *)
Inductive outcome : Type :=
| Returned
| SetPresentations (ps : list presentation)
| Threw (e : js_error).

(** [parseInt(element.getAttribute(name))]. *)
Definition parse_attr (a : option string) : number :=
  match a with
  | Some s => parseInt s
  | None => NaN
  end.

(** [xs[n]]: [None] is [undefined]. *)
Definition at_index {A : Type} (xs : list A) (n : number) : option A :=
  match n with
  | Num z => if (z <? 0)%Z then None else nth_error xs (Z.to_nat z)
  | NaN => None
  end.

(** [xs[i] = f(xs[i])] for an index in range. *)
Fixpoint list_update {A : Type} (xs : list A) (i : nat) (f : A -> A) : list A :=
  match xs, i with
  | [], _ => []
  | x :: rest, O => f x :: rest
  | x :: rest, S j => x :: list_update rest j f
  end.

Definition with_text (t : string) (c : cell) : cell :=
  {| text := t; html := html c; rowSpan := rowSpan c; colSpan := colSpan c;
     style := style c |}.

Definition set_cell_text (rs : list (list cell)) (r c : nat) (t : string)
    : list (list cell) :=
  list_update rs r (fun row => list_update row c (with_text t)).

Definition cell_text (rs : list (list cell)) (r c : nat) : string :=
  match nth_error rs r with
  | Some row =>
      match nth_error row c with
      | Some cl => text cl
      | None => EmptyString
      end
  | None => EmptyString
  end.

Definition with_activities (pd : projectData) (a : Obj.t projectInfo) : projectData :=
  {| activities := a; upcoming_events := upcoming_events pd; meta := meta pd |}.

Definition with_upcoming_events (pd : projectData) (e : string) : projectData :=
  {| activities := activities pd; upcoming_events := Some e; meta := meta pd |}.

Definition with_title (pd : projectData) (t : string) : projectData :=
  {| activities := activities pd; upcoming_events := upcoming_events pd;
     meta := {| title := t |} |}.

Definition with_project_data (p : presentation) (pd : projectData) : presentation :=
  {| filename := filename p; project_data := pd |}.

(** The project data after an edit of the existing cell [(r, c)]; the
    cell text has been overwritten first, and the branches read the table
    after that write.  The copy of the project data is shallow: the
    rename and the information branches change the [activities] object of
    the state in place, and the value stored is the value after the
    change.  A new name that [Object.prototype] defines (see
    [Obj.inherited]) is outside the model: the source then reads the
    inherited member. *)
Definition edit_project_data (pd : projectData) (rs : list (list cell))
    (r c : nat) (updatedContent : string) : projectData :=
  let rs' := set_cell_text rs r c updatedContent in
  if (r =? 0)%nat then pd
  else if (c =? 0)%nat then
    let originalProjectName := cell_text rs' r c in
    match Obj.get originalProjectName (activities pd) with
    | Some projectInfo =>
        with_activities pd
          (Obj.set updatedContent projectInfo
             (Obj.remove originalProjectName (activities pd)))
    | None => pd
    end
  else if (c =? 1)%nat then
    let projectName := cell_text rs' r 0 in
    match Obj.get projectName (activities pd) with
    | Some _ =>
        with_activities pd
          (Obj.set projectName
             {| information := updatedContent; alerts := no_alerts |}
             (activities pd))
    | None => pd
    end
  else if (c =? 2)%nat then with_upcoming_events pd updatedContent
  else pd.

(** The cell an edit addresses, when every coordinate resolves. *)
Definition resolve_cell (sl : slide) (elementIndex rowIndex cellIndex : number)
    : option (list (list cell) * nat * nat) :=
  match at_index (structuredContent sl) elementIndex with
  | Some (TableItem _ tableObject) =>
      match at_index (rows tableObject) rowIndex with
      | Some row =>
          match at_index row cellIndex, rowIndex, cellIndex with
          | Some _, Num r, Num c =>
              Some (rows tableObject, Z.to_nat r, Z.to_nat c)
          | _, _, _ => None
          end
      | None => None
      end
  | _ => None
  end.

(** The coordinates [(elementIndex, rowIndex, cellIndex)] name an existing
    cell of a table item of the main slide. *)
Definition addresses_cell (pd : projectData)
    (elementIndex rowIndex cellIndex : number) : Prop :=
  exists sl content tbl row cl,
    main_slide pd = Some sl
    /\ at_index (structuredContent sl) elementIndex = Some (TableItem content tbl)
    /\ at_index (rows tbl) rowIndex = Some row
    /\ at_index row cellIndex = Some cl.

Definition handleStructuredContentEdit (st : state) (ev : event) : outcome :=
  let slideIndex := parse_attr (data_slide_index ev) in
  let updatedContent := innerText ev in
  match slideIndex, data_element_type ev with
  | NaN, _ | _, None | _, Some EmptyString => Returned
  | Num si, Some elementType =>
      match nth_error (presentations st) (currentPresIndex st) with
      | None => Returned
      | Some currentPresentation =>
          let pd := project_data currentPresentation in
          let unchanged := SetPresentations (presentations st) in
          let store pd' :=
            SetPresentations
              (list_update (presentations st) (currentPresIndex st)
                 (fun _ => with_project_data currentPresentation pd')) in
          let slide := at_index (convertProjectDataToSlides pd) slideIndex in
          if String.eqb elementType "title" then
            match slide with
            | None => Threw TypeError
            | Some _ =>
                if (si =? 0)%Z then store (with_title pd updatedContent)
                else unchanged
            end
          else if String.eqb elementType "text" then
            match parse_attr (data_element_index ev), slide with
            | NaN, _ => unchanged
            | Num _, None => Threw TypeError
            | Num _, Some _ => unchanged
            end
          else if includes "table" elementType then
            let elementIndex := parse_attr (data_element_index ev) in
            let rowIndex := parse_attr (data_row_index ev) in
            let cellIndex := parse_attr (data_cell_index ev) in
            match elementIndex, slide with
            | NaN, _ => unchanged
            | Num _, None => Threw TypeError
            | Num _, Some sl =>
                match resolve_cell sl elementIndex rowIndex cellIndex with
                | Some (rs, r, c) =>
                    store (edit_project_data pd rs r c updatedContent)
                | None => unchanged
                end
            end
          else unchanged
      end
  end.

End Viewer.

(* ================================================================== *)
(** ** The slide parser of [old/PptxViewer.js] *)
(* ================================================================== *)

Module Parser.

Import Js Regex.

(** [name=...] with a quoted value, as the attribute patterns write it. *)
Definition attr (name : string) : regex :=
  [Lit (name ++ "=" ++ dq); Rep Greedy 1 not_dq true; Lit dq].

(** *** Title resolution *)

(** [/<p:cSld[^>]*name=.../] *)
Definition csld_name_re : regex :=
  Lit "<p:cSld" :: Rep Greedy 0 not_gt false :: attr "name".

(** [/<p:ph[^>]*KEY[^>]*>[\s\S]*?<a:t>(.*?)<\/a:t>/] for a literal
    attribute [KEY]. *)
Definition placeholder_re (key : string) : regex :=
  [ Lit "<p:ph"; Rep Greedy 0 not_gt false; Lit key;
    Rep Greedy 0 not_gt false; Lit ">"; Rep Lazy 0 any false;
    Lit "<a:t>"; Dot Lazy 0 true; Lit "</a:t>" ].

Definition title_ph_re : regex :=
  placeholder_re ("type=" ++ dq ++ "title" ++ dq).

Definition idx0_ph_re : regex :=
  placeholder_re ("idx=" ++ dq ++ "0" ++ dq).

(** [/<a:t>(.*?)<\/a:t>/] *)
Definition first_text_re : regex :=
  [Lit "<a:t>"; Dot Lazy 0 true; Lit "</a:t>"].

(** [m && m[1]]: the first capture of a match, when it is not empty. *)
Definition truthy_group (m : option found) : option string :=
  match m with
  | Some f =>
      match group 1 f with
      | EmptyString => None
      | g => Some g
      end
  | None => None
  end.

Definition is_empty (s : string) : bool :=
  match s with EmptyString => true | _ => false end.

Definition fallback_title (slideId : string) : string := "Slide " ++ slideId.

(** The title of a slide, following the three [if] blocks of the source;
    [title0], [title1], [title2] are the successive values of the variable
    [title]. *)
Definition resolve_title (slideContent slideId : string) : string :=
  let title0 :=
    match truthy_group (exec csld_name_re slideContent) with
    | Some t => t
    | None => EmptyString
    end in
  let title1 :=
    if is_empty title0 then
      match truthy_group (exec title_ph_re slideContent) with
      | Some t => t
      | None =>
          match truthy_group (exec idx0_ph_re slideContent) with
          | Some t => t
          | None => title0
          end
      end
    else title0 in
  let title2 :=
    if is_empty title1 then
      match truthy_group (exec first_text_re slideContent) with
      | Some t =>
          if (0 <? String.length (trim t))%nat then t
          else fallback_title slideId
      | None => fallback_title slideId
      end
    else title1 in
  if is_empty title2 then fallback_title slideId else title2.

(** *** Tables *)

Record cellStyle : Type := CellStyle {
  bold : bool;
  italic : bool;
  underline : bool;
  bgColor : option string
}.

(** [style] is [None] for the empty object of a synthesized cell. *)
Record cell : Type := Cell {
  text : string;
  rowSpan : number;
  colSpan : number;
  colIndex : number;
  style : option cellStyle
}.

Record headerStyle : Type := HeaderStyle {
  header_bold : bool;
  header_bgColor : option string
}.

Record table : Type := Table {
  rows : list (list cell);
  hasHeader : bool;
  header : option headerStyle;
  colsCount : number;
  colWidths : option (list number)
}.

Definition tbl_re : regex :=
  [Lit "<a:tbl>"; Rep Lazy 0 any false; Lit "</a:tbl>"].
Definition gridCol_re : regex :=
  [Lit "<a:gridCol"; Rep Greedy 0 not_gt false; Lit "/>"].
Definition tr_re : regex :=
  [ Lit "<a:tr"; Rep Greedy 0 not_gt false; Lit ">"; Rep Lazy 0 any false;
    Lit "</a:tr>" ].
Definition tc_open_re : regex := [Lit "<a:tc"].
Definition tc_re : regex :=
  [Lit "<a:tc>"; Rep Lazy 0 any false; Lit "</a:tc>"].
Definition run_re : regex :=
  [Lit "<a:t>"; Rep Lazy 0 any false; Lit "</a:t>"].
Definition run_text_re : regex :=
  [Lit "<a:t>"; Rep Lazy 0 any true; Lit "</a:t>"].
Definition fill_re : regex :=
  Lit "<a:solidFill>" :: Rep Lazy 0 any false
  :: Lit ("<a:srgbClr val=" ++ dq) :: Rep Greedy 1 not_dq true :: [Lit dq].

(** The value of the first attribute a pattern finds, if any. *)
Definition attr_value (name s : string) : option string :=
  match exec (attr name) s with
  | Some f => Some (group 1 f)
  | None => None
  end.

(** The five entity replacements, in the order of the source. *)
Definition decode_entities (s : string) : string :=
  replace_all "&apos;" "'"
    (replace_all "&quot;" dq
       (replace_all "&amp;" "&"
          (replace_all "&gt;" ">"
             (replace_all "&lt;" "<" s)))).

Definition run_text (t : string) : string :=
  decode_entities (Regex.replace run_text_re "$1" t).

(** Column width of one grid column. *)
Definition col_width (col : string) : number :=
  match attr_value "w" col with
  | Some w => parseInt w
  | None => Num 0
  end.

(** One step of the first pass: cells counted as the occurrences of
    [<a:tc], plus every [gridSpan] of the row minus one.  Each [span] is a
    match of the attribute pattern, so the inner match always succeeds. *)
Definition effectiveColCount (rowMatch : string) : number :=
  let cellsCount := List.length (match_all tc_open_re rowMatch) in
  let gridSpans := match_all (attr "gridSpan") rowMatch in
  fold_left
    (fun effective span =>
       let spanValue :=
         sub (match attr_value "gridSpan" span with
              | Some v => parseInt v
              | None => NaN
              end) (Num 1) in
       add effective spanValue)
    gridSpans (of_nat cellsCount).

Definition maxColsInTable (rowsMatch : list string) : number :=
  fold_left (fun m rowMatch => max m (effectiveColCount rowMatch))
    rowsMatch (Num 0).

Definition is_bold (s : string) : bool :=
  includes "<a:b/>" s || includes ("i=" ++ dq ++ "bold" ++ dq) s.
Definition is_italic (s : string) : bool :=
  includes "<a:i/>" s || includes ("i=" ++ dq ++ "italic" ++ dq) s.
Definition is_underline (s : string) : bool :=
  includes "<a:u/>" s || includes ("i=" ++ dq ++ "underline" ++ dq) s.

Definition fill_color (s : string) : option string :=
  match exec fill_re s with
  | Some f => Some (group 1 f)
  | None => None
  end.

Definition span_of (name cellMatch : string) : number :=
  match attr_value name cellMatch with
  | Some v => parseInt v
  | None => Num 1
  end.

(** The cell object built from one [<a:tc>...</a:tc>] match. *)
Definition parse_cell (cellMatch : string) (currentColIndex : number) : cell :=
  {| text := join " " (map run_text (match_all run_re cellMatch));
     rowSpan := span_of "rowSpan" cellMatch;
     colSpan := span_of "gridSpan" cellMatch;
     colIndex := currentColIndex;
     style :=
       Some {| bold := is_bold cellMatch;
               italic := is_italic cellMatch;
               underline := is_underline cellMatch;
               bgColor := fill_color cellMatch |} |}.

(** The [for] loop over the declared cells: the cells, and the column
    cursor after the last one. *)
Fixpoint place_cells (cellsMatch : list string) (currentColIndex : number)
    : list cell * number :=
  match cellsMatch with
  | [] => ([], currentColIndex)
  | cellMatch :: rest =>
      let c := parse_cell cellMatch currentColIndex in
      let '(cs, final) := place_cells rest (add currentColIndex (colSpan c)) in
      (c :: cs, final)
  end.

Definition empty_cell (currentColIndex : number) : cell :=
  {| text := EmptyString; rowSpan := Num 1; colSpan := Num 1;
     colIndex := currentColIndex; style := None |}.

Fixpoint fill_from (n : nat) (currentColIndex : Z) : list cell :=
  match n with
  | O => []
  | S n' => empty_cell (Num currentColIndex) :: fill_from n' (currentColIndex + 1)
  end.

(** The [while (currentColIndex < totalColsCount)] loop: it adds one cell
    per missing column, and none when the cursor is not below the count
    (in particular when either is [NaN]). *)
Definition fill_missing (currentColIndex totalColsCount : number) : list cell :=
  match currentColIndex, totalColsCount with
  | Num c, Num t => fill_from (Z.to_nat (t - c)) c
  | _, _ => []
  end.

Definition build_row (totalColsCount : number) (rowMatch : string) : list cell :=
  let '(rowCells, currentColIndex) :=
    place_cells (match_all tc_re rowMatch) (Num 0) in
  (rowCells ++ fill_missing currentColIndex totalColsCount)%list.

(** Header detection looks at the first row only. *)
Definition detect_header (rowsMatch : list string) : option headerStyle :=
  match rowsMatch with
  | [] => None
  | rowMatch :: _ =>
      let boldFormat := is_bold rowMatch in
      let bgFillColor := fill_color rowMatch in
      match boldFormat, bgFillColor with
      | false, None => None
      | _, _ => Some {| header_bold := boldFormat; header_bgColor := bgFillColor |}
      end
  end.

Definition gridCols (tableMatch : string) : list string :=
  match_all gridCol_re tableMatch.

Definition rowsMatch (tableMatch : string) : list string :=
  match_all tr_re tableMatch.

Definition totalColsCount (tableMatch : string) : number :=
  or_else (of_nat (List.length (gridCols tableMatch)))
    (maxColsInTable (rowsMatch tableMatch)).

(** The body of [tableMatches.forEach]: one table object per match. *)
Definition extract_table (tableMatch : string) : table :=
  let widths := map col_width (gridCols tableMatch) in
  let hs := detect_header (rowsMatch tableMatch) in
  {| rows := map (build_row (totalColsCount tableMatch)) (rowsMatch tableMatch);
     hasHeader := match hs with Some _ => true | None => false end;
     header := hs;
     colsCount := totalColsCount tableMatch;
     colWidths := match widths with [] => None | _ => Some widths end |}.

Definition extract_tables (slideContent : string) : list table :=
  map extract_table (match_all tbl_re slideContent).

(** The title and the tables of the record [parsePptx] builds for the
    slide part [slideContent] of number [slideId]. *)
Record slideData : Type := SlideData {
  title : string;
  tables : list table
}.

Definition parse_slide (slideContent slideId : string) : slideData :=
  {| title := resolve_title slideContent slideId;
     tables := extract_tables slideContent |}.

(** *** Vocabulary of the statements about tables and titles *)

(** The logical columns a row covers: the sum of its column spans. *)
Definition add_span (w : number) (c : cell) : number := add w (colSpan c).

Definition row_width (row : list cell) : number :=
  fold_left add_span row (Num 0).

(** The cells a row declares, as the extractor decodes them. *)
Definition declared_cells (rowMatch : string) : list cell :=
  fst (place_cells (match_all tc_re rowMatch) (Num 0)).

(** An empty, style-less cell of spans 1. *)
Definition is_padding (c : cell) : Prop :=
  text c = EmptyString /\ rowSpan c = Num 1 /\ colSpan c = Num 1
  /\ style c = None.

(** The column count in the words of the specification: the number of
    declared cells of a row plus, over these cells, their column span
    minus one; the largest such number over the rows when the table
    declares no grid column, the number of grid columns otherwise. *)
Definition specified_row_columns (rowMatch : string) : number :=
  let cells := declared_cells rowMatch in
  fold_left (fun n c => add n (sub (colSpan c) (Num 1))) cells
    (of_nat (List.length cells)).

Definition specified_columnCount (tableMatch : string) : number :=
  match gridCols tableMatch with
  | [] =>
      fold_left (fun m rowMatch => max m (specified_row_columns rowMatch))
        (rowsMatch tableMatch) (Num 0)
  | cols => of_nat (List.length cols)
  end.

(** The candidates of the title, as the patterns of the source find
    them. *)
Definition name_candidate (slideContent : string) : option string :=
  truthy_group (exec csld_name_re slideContent).
Definition typed_candidate (slideContent : string) : option string :=
  truthy_group (exec title_ph_re slideContent).
Definition index_candidate (slideContent : string) : option string :=
  truthy_group (exec idx0_ph_re slideContent).
(** The first run that has no line terminator, kept when it is not
    blank. *)
Definition first_run_candidate (slideContent : string) : option string :=
  match truthy_group (exec first_text_re slideContent) with
  | Some t => if (0 <? String.length (trim t))%nat then Some t else None
  | None => None
  end.

(** Every text run of the slide, decoded ([allTexts] in the source). *)
Definition allTexts (slideContent : string) : list string :=
  map run_text (match_all run_re slideContent).

(** The fourth title candidate in the words of the specification: the
    first text run of the slide that is not empty. *)
Definition specified_first_text (slideContent : string) : option string :=
  find (fun t => negb (is_empty t)) (allTexts slideContent).

End Parser.

(* ================================================================== *)
(** ** The viewer component, continued: escaping and formatted edits *)
(* ================================================================== *)

From Stdlib Require Import DecimalString Permutation Sorted.

Module Formatting.

Import Js Regex Viewer.

(** [escapeHtml]: five global replacements, the ampersand first.  The
    callers pass texts; for another value the source returns the empty
    text. *)
Definition escapeHtml (unsafe : string) : string :=
  replace_all "'" "&#039;"
    (replace_all dq "&quot;"
       (replace_all ">" "&gt;"
          (replace_all "<" "&lt;"
             (replace_all "&" "&amp;" unsafe)))).

(** What one character becomes when the five characters are replaced at
    once. *)
Definition escape_char (c : ascii) : string :=
  if Ascii.eqb c "&" then "&amp;"
  else if Ascii.eqb c "<" then "&lt;"
  else if Ascii.eqb c ">" then "&gt;"
  else if Ascii.eqb c "034" then "&quot;"
  else if Ascii.eqb c "'" then "&#039;"
  else String c EmptyString.

Fixpoint escape_each (s : string) : string :=
  match s with
  | EmptyString => EmptyString
  | String c s' => escape_char c ++ escape_each s'
  end.

Definition is_nan (n : number) : bool :=
  match n with NaN => true | Num _ => false end.

(** The project data after a formatted edit of the existing cell
    [(r, c)] ([updateFormattedContent]): an information cell of a data
    row stores the markup and its classification; otherwise a cell of
    column 2, in any row, stores the upcoming events. *)
Definition format_project_data (pd : projectData) (rs : list (list cell))
    (r c : nat) (updatedContent : string) : projectData :=
  if ((0 <? r) && (c =? 1))%nat then
    let projectName := cell_text rs r 0 in
    match Obj.get projectName (activities pd) with
    | Some _ =>
        with_activities pd
          (Obj.update projectName
             {| information := updatedContent;
                alerts := extractAlertsFromHtml updatedContent |}
             (activities pd))
    | None => pd
    end
  else if (c =? 2)%nat then with_upcoming_events pd updatedContent
  else pd.

(** [updateFormattedContent(element, elementType, slideIndex,
    elementIndex, rowIndex, cellIndex)]; the element is given by its
    [innerHTML]. *)
Definition updateFormattedContent (st : state) (innerHTML : string)
    (elementType : option string)
    (slideIndex elementIndex rowIndex cellIndex : number) : outcome :=
  let updatedContent := innerHTML in
  match nth_error (presentations st) (currentPresIndex st) with
  | None => Returned
  | Some currentPresentation =>
      let pd := project_data currentPresentation in
      let store pd' :=
        SetPresentations
          (list_update (presentations st) (currentPresIndex st)
             (fun _ => with_project_data currentPresentation pd')) in
      let slide := at_index (convertProjectDataToSlides pd) slideIndex in
      let is_type t :=
        match elementType with
        | Some et => String.eqb et t
        | None => false
        end in
      if is_type "table"
         && negb (is_nan slideIndex) && negb (is_nan elementIndex)
         && negb (is_nan rowIndex) && negb (is_nan cellIndex)
      then
        match slide with
        | None => Threw TypeError
        | Some sl =>
            match resolve_cell sl elementIndex rowIndex cellIndex with
            | Some (rs, r, c) =>
                store (format_project_data pd
                         (set_cell_text rs r c updatedContent) r c
                         updatedContent)
            | None => Returned
            end
        end
      else if is_type "text" then
        match slide with
        | None => Threw TypeError
        | Some sl =>
            match at_index (structuredContent sl) elementIndex with
            | Some _ =>
                match slideIndex, elementIndex with
                | Num 0, Num 0 => store (with_title pd updatedContent)
                | _, _ => Returned
                end
            | None => Returned
            end
        end
      else if is_type "title" then
        match slide with
        | None => Threw TypeError
        | Some _ =>
            match slideIndex with
            | Num 0 => store (with_title pd updatedContent)
            | _ => Returned
            end
        end
      else Returned
  end.

(** The outcome of a handler that stores project data [pd'] for the
    current presentation [cur]. *)
Definition stored (st : state) (cur : presentation) (pd' : projectData)
    : outcome :=
  SetPresentations
    (list_update (presentations st) (currentPresIndex st)
       (fun _ => with_project_data cur pd')).

(** What an array of presentations to store keeps of the array of the
    state: its length, every presentation but the current one, and the
    file name of the current one. *)
Definition framed (st : state) (ps : list presentation) : Prop :=
  List.length ps = List.length (presentations st)
  /\ (forall i, i <> currentPresIndex st ->
        nth_error ps i = nth_error (presentations st) i)
  /\ option_map filename (nth_error ps (currentPresIndex st))
     = option_map filename (nth_error (presentations st) (currentPresIndex st)).

(** Every entry has a name that is not empty, and alerts that are the
    classification of its information. *)
Definition derived (acts : Obj.t projectInfo) : Prop :=
  forall k info,
    Obj.get k acts = Some info ->
    k <> EmptyString
    /\ alerts info = extractAlertsFromHtml (information info).

End Formatting.

(* ================================================================== *)
(** ** The slide deck of [old/PptxViewer.js] *)
(* ================================================================== *)

Module Deck.

(** The slide objects the deck operations build; the item list that
    parsed slides carry besides is absent from them, and no deck operation
    reads it. *)
Record slide : Type := Slide {
  id : string;
  title : string;
  content : string;
  texts : list string;
  tables : list Parser.table;
  images : list string
}.

Record state : Type := State {
  slides : list slide;
  selectedSlide : nat;
  fileName : string
}.

(** The decimal text of a number, as a template literal writes it. *)
Definition show (n : nat) : string := NilEmpty.string_of_uint (Nat.to_uint n).

Definition blank_slide (n : nat) (t : string) : slide :=
  {| id := "slide-" ++ show n;
     title := t;
     content := "Click to add content";
     texts := ["Click to add content"];
     tables := [];
     images := [] |}.

(** [createNewPresentation] *)
Definition createNewPresentation : state :=
  {| slides := [blank_slide 1 "New Presentation"];
     selectedSlide := 0;
     fileName := "new-presentation.pptx" |}.

(** [addSlide] *)
Definition addSlide (st : state) : state :=
  let newSlides :=
    (slides st ++ [blank_slide (List.length (slides st) + 1) "New Slide"])%list in
  {| slides := newSlides;
     selectedSlide := List.length newSlides - 1;
     fileName := fileName st |}.

(** [slides.filter((_, index) => index !== selectedSlide)] *)
Fixpoint remove_at {A : Type} (index : nat) (sel : nat) (xs : list A) : list A :=
  match xs with
  | [] => []
  | x :: rest =>
      if (index =? sel)%nat then remove_at (S index) sel rest
      else x :: remove_at (S index) sel rest
  end.

(** [deleteSlide]: the only slide of a deck is not deleted. *)
Definition deleteSlide (st : state) : state :=
  if (List.length (slides st) <=? 1)%nat then st
  else
    let newSlides := remove_at 0 (selectedSlide st) (slides st) in
    {| slides := newSlides;
       selectedSlide := Nat.min (selectedSlide st) (List.length newSlides - 1);
       fileName := fileName st |}.

(** A click on the thumbnail of slide [index]. *)
Definition select (index : nat) (st : state) : state :=
  {| slides := slides st; selectedSlide := index; fileName := fileName st |}.

(** The selected slide exists. *)
Definition well_selected (st : state) : Prop :=
  (selectedSlide st < List.length (slides st))%nat.

End Deck.

(* ================================================================== *)
(** ** Open presentations and the file list *)
(* ================================================================== *)

Module App.

(** A file of the list; identifiers are numbers. *)
Record file : Type := File {
  id : Z;
  name : string;
  date : string
}.

Record state : Type := State {
  openPresentations : list file;
  activePresentation : option Z
}.

Definition is_open (i : Z) (ps : list file) : bool :=
  existsb (fun p => (id p =? i)%Z) ps.

(** [openPresentation(file)] *)
Definition openPresentation (f : file) (st : state) : state :=
  {| openPresentations :=
       if is_open (id f) (openPresentations st) then openPresentations st
       else (openPresentations st ++ [f])%list;
     activePresentation := Some (id f) |}.

(** [closePresentation(id)] *)
Definition closePresentation (i : Z) (st : state) : state :=
  let newOpenPresentations :=
    filter (fun p => negb (id p =? i)%Z) (openPresentations st) in
  let n := List.length newOpenPresentations in
  let was_active :=
    match activePresentation st with
    | Some a => (a =? i)%Z
    | None => false
    end in
  {| openPresentations := newOpenPresentations;
     activePresentation :=
       if was_active && (0 <? n)%nat then
         option_map id (nth_error newOpenPresentations (n - 1))
       else if (n =? 0)%nat then None
       else activePresentation st |}.

(** The active presentation, when there is one, is open. *)
Definition active_is_open (st : state) : Prop :=
  match activePresentation st with
  | Some a => is_open a (openPresentations st) = true
  | None => True
  end.

(** No presentation is open twice, and the active one is open. *)
Definition consistent (st : state) : Prop :=
  NoDup (map id (openPresentations st)) /\ active_is_open st.

(** The files [FileList] starts with. *)
Definition initial_files : list file :=
  [ File 1 "Presentation1.pptx" "2023-05-20";
    File 2 "Presentation2.pptx" "2023-05-22";
    File 3 "Rapport Annuel.pptx" "2023-06-15";
    File 4 "Présentation Client.pptx" "2023-07-10";
    File 5 "Démonstration Produit.pptx" "2023-08-05";
    File 6 "Marketing Stratégie.pptx" "2023-09-12";
    File 7 "Budget 2024.pptx" "2023-10-18";
    File 8 "Analyse Trimestrielle.pptx" "2023-11-07";
    File 9 "Rétrospective 2023.pptx" "2023-12-15";
    File 10 "Roadmap 2024.pptx" "2024-01-05" ]%Z.

(** [FileList]: the listener of [add-to-file-list]. *)
Definition handleAddToFileList (f : file) (files : list file) : list file :=
  if is_open (id f) files then files else (files ++ [f])%list.

(** [deleteFile], once the user has confirmed. *)
Definition deleteFile (i : Z) (files : list file) : list file :=
  filter (fun f => negb (id f =? i)%Z) files.

(** The presentation [savePresentation] takes for the active one. *)
Definition save_target (openPresentations : list file) : option file :=
  match openPresentations with
  | [] => None
  | _ => find (fun p => is_open (id p) openPresentations) openPresentations
  end.

(** The text [savePresentation] shows. *)
Definition savePresentation (openPresentations : list file) : string :=
  match save_target openPresentations with
  | None => "Aucune présentation active à sauvegarder !"
  | Some p => "Présentation " ++ Js.dq ++ name p ++ Js.dq ++ " sauvegardée !"
  end.

End App.

(* ================================================================== *)
(** ** The chat identifier in the address of the chat frame *)
(* ================================================================== *)

Module Chat.

Import Js Regex.

(** [[^\/\?#]] *)
Definition id_char (c : ascii) : bool :=
  negb (Ascii.eqb c "/" || Ascii.eqb c "?" || Ascii.eqb c "#").

(** [/\/c\/([^\/\?#]+)/] *)
Definition chat_re : regex := [Lit "/c/"; Rep Greedy 1 id_char true].

(** [extractChatIdFromUrl]: [None] is [null]. *)
Definition extractChatIdFromUrl (url : string) : option string :=
  match exec chat_re url with
  | Some f =>
      match group 1 f with
      | EmptyString => None
      | g => Some g
      end
  | None => None
  end.

End Chat.

(* ================================================================== *)
(** ** The slide parts of a package, in order *)
(* ================================================================== *)

Module Package.

Import Js Regex.

(** [/ppt\/slides\/slide[0-9]+\.xml/] *)
Definition slide_part_re : regex :=
  [Lit "ppt/slides/slide"; Rep Greedy 1 is_digit false; Lit ".xml"].

(** [/slide([0-9]+)\.xml/] *)
Definition slide_number_re : regex :=
  [Lit "slide"; Rep Greedy 1 is_digit true; Lit ".xml"].

Definition is_slide_part (filename : string) : bool :=
  match exec slide_part_re filename with
  | Some _ => true
  | None => false
  end.

(** [parseInt(a.match(/slide([0-9]+)\.xml/)[1])]; a name without match,
    on which the source would throw, does not pass the filter. *)
Definition slide_number (filename : string) : number :=
  match exec slide_number_re filename with
  | Some f => parseInt (group 1 f)
  | None => NaN
  end.

(** [numA - numB <= 0]: the comparator does not put [a] after [b]. *)
Definition not_after (a b : string) : bool :=
  match sub (slide_number a) (slide_number b) with
  | Num d => (d <=? 0)%Z
  | NaN => true
  end.

(** [Array.prototype.sort] is stable, and every stable sort gives the
    same array when the comparator is consistent, as the difference of
    two numbers is; the sort is written by insertion. *)
Fixpoint insert (a : string) (sorted : list string) : list string :=
  match sorted with
  | [] => [a]
  | b :: rest => if not_after a b then a :: sorted else b :: insert a rest
  end.

Definition sort (names : list string) : list string :=
  fold_right insert [] names.

(** The slide parts among the file names of the package, in the order
    [parsePptx] reads them. *)
Definition slideEntries (filenames : list string) : list string :=
  sort (filter is_slide_part filenames).

(** Both names carry a slide number, and the number of the first is not
    above the number of the second. *)
Definition in_order (a b : string) : Prop :=
  exists m n,
    slide_number a = Num m /\ slide_number b = Num n /\ (m <= n)%Z.

End Package.

(* ================================================================== *)
(** ** Sample inputs *)
(* ================================================================== *)

Module Samples.

Import Js Viewer.

(** The project record of the rename scenario: one project, [Alpha]. *)
Definition alpha_data : projectData :=
  {| activities :=
       [("Alpha", {| information := "ok";
                     alerts := AlertSet ["ok"] [] [] |})];
     upcoming_events := Some "Review on Friday";
     meta := {| title := "Weekly report" |} |}.

(** Two projects: the generated table is 3 x 3. *)
Definition two_projects : projectData :=
  {| activities :=
       [("Alpha", {| information := "Progress on X";
                     alerts := no_alerts |});
        ("Gamma", {| information := "Late";
                     alerts := no_alerts |})];
     upcoming_events := Some "Review on Friday";
     meta := {| title := "Weekly report" |} |}.

(** The text of the colour classification scenario. *)
Definition status_text : string :=
  "Progress on X. " ++ green_open ++ "Great work" ++ span_close
  ++ " " ++ red_open ++ "Budget overrun" ++ span_close.

Definition status_segments : list segment :=
  [ Plain "Progress on X. "; Tagged Advancement "Great work"; Plain " ";
    Tagged CriticalAlert "Budget overrun" ].

(** A green span whose text runs over two lines. *)
Definition two_line_span : string :=
  green_open ++ "Great work," ++ String "010"%char "on schedule" ++ span_close.

(** A span coloured by an RGB value close to green. *)
Definition rgb_text : string :=
  "<span style=" ++ dq ++ "color: #008000;" ++ dq ++ ">Great work</span>".

Definition one_presentation (pd : projectData) : state :=
  {| presentations := [ {| filename := Some "report.pptx"; project_data := pd |} ];
     currentPresIndex := 0 |}.

(** The blur event of a table cell of slide 0. *)
Definition cell_edit (elementIndex rowIndex cellIndex newText : string) : event :=
  {| data_slide_index := Some "0";
     data_element_type := Some "table";
     data_element_index := Some elementIndex;
     data_row_index := Some rowIndex;
     data_cell_index := Some cellIndex;
     innerText := newText |}.

(** *** Slide markup *)

Definition text_run (t : string) : string :=
  "<a:r><a:rPr lang=" ++ dq ++ "en-US" ++ dq ++ "/><a:t>" ++ t ++ "</a:t></a:r>".

(** A table cell with one run and its cell properties element. *)
Definition text_cell (t : string) : string :=
  "<a:tc><a:txBody><a:bodyPr/><a:p>" ++ text_run t
  ++ "</a:p></a:txBody><a:tcPr/></a:tc>".

Definition table_row (cells : string) : string :=
  "<a:tr h=" ++ dq ++ "370840" ++ dq ++ ">" ++ cells ++ "</a:tr>".

Definition grid_col (w : string) : string :=
  "<a:gridCol w=" ++ dq ++ w ++ dq ++ "/>".

Definition table_xml (grid rows : string) : string :=
  "<a:tbl><a:tblPr/><a:tblGrid>" ++ grid ++ "</a:tblGrid>" ++ rows
  ++ "</a:tbl>".

Definition slide_xml (body : string) : string :=
  "<p:sld><p:cSld><p:spTree>" ++ body ++ "</p:spTree></p:cSld></p:sld>".

(** Three grid columns, one row that declares two cells. *)
Definition sparse_table : string :=
  table_xml (grid_col "100" ++ grid_col "200" ++ grid_col "300")
    (table_row (text_cell "Name" ++ text_cell "Status")).

(** Two grid columns, one row that declares three cells. *)
Definition wide_row_table : string :=
  table_xml (grid_col "100" ++ grid_col "200")
    (table_row (text_cell "A" ++ text_cell "B" ++ text_cell "C")).


(** No grid declaration; one row, one cell. *)
Definition gridless_table : string :=
  "<a:tbl><a:tblPr/>" ++ table_row (text_cell "Total") ++ "</a:tbl>".

(** One grid column written with a child element, as presentation
    software writes it; one row, one cell. *)
Definition extended_grid_table : string :=
  table_xml
    ("<a:gridCol w=" ++ dq ++ "100" ++ dq ++ "><a:extLst><a:ext uri="
     ++ dq ++ "{9D8B030D}" ++ dq ++ "/></a:extLst></a:gridCol>")
    (table_row (text_cell "Total")).

Definition shape (placeholder runs : string) : string :=
  "<p:sp><p:nvSpPr><p:nvPr>" ++ placeholder
  ++ "</p:nvPr></p:nvSpPr><p:txBody><a:bodyPr/><a:p>" ++ runs
  ++ "</a:p></p:txBody></p:sp>".

(** No name attribute, no placeholder typed title, the placeholder of
    index 0 holding the text [Q3 Review]. *)
Definition q3_slide : string :=
  slide_xml
    (shape ("<p:ph idx=" ++ dq ++ "0" ++ dq ++ "/>") (text_run "Q3 Review")
     ++ shape EmptyString (text_run "Revenue grew")).

(** No name attribute and no placeholder; the first run is empty, the
    second reads [Agenda]. *)
Definition empty_first_run_slide : string :=
  slide_xml (shape EmptyString (text_run EmptyString ++ text_run "Agenda")).

(** The same with a first run made of one space. *)
Definition blank_first_run_slide : string :=
  slide_xml (shape EmptyString (text_run " " ++ text_run "Agenda")).

End Samples.

Module MoreSamples.

Import Js.


(** A cell whose own element carries the column span, as presentation
    software writes a merged cell. *)
Definition attributed_cell (t : string) : string :=
  "<a:tc gridSpan=" ++ dq ++ "2" ++ dq ++ "><a:txBody><a:bodyPr/><a:p>"
  ++ Samples.text_run t ++ "</a:p></a:txBody><a:tcPr/></a:tc>".


Definition attributed_row : string :=
  Samples.table_row (attributed_cell "Total").

(** U+2028, the line separator, in UTF-8. *)
Definition line_separator : string :=
  String "226" (String "128" (String "168" EmptyString)).

(** U+00A0, the no-break space, in UTF-8. *)
Definition no_break_space : string :=
  String "194" (String "160" EmptyString).

(** No name attribute and no placeholder; the first run is one no-break
    space, the second reads [Agenda]. *)
Definition no_break_space_first_run_slide : string :=
  Samples.slide_xml
    (Samples.shape EmptyString
       (Samples.text_run no_break_space ++ Samples.text_run "Agenda")).

End MoreSamples.

(* ================================================================== *)
(** ** Facts about strings and matching *)
(* ================================================================== *)

Module RegexFacts.

Import Js Regex.

Lemma append_nil_r (s : string) : s ++ EmptyString = s.
Proof. induction s as [|c s IH]; simpl; [reflexivity | now rewrite IH]. Qed.

Lemma append_assoc (a b c : string) : (a ++ b) ++ c = a ++ (b ++ c).
Proof. induction a as [|x a IH]; simpl; [reflexivity | now rewrite IH]. Qed.

Lemma length_append (a b : string) :
  String.length (a ++ b) = (String.length a + String.length b)%nat.
Proof. induction a as [|x a IH]; simpl; [reflexivity | now rewrite IH]. Qed.

Lemma strip_prefix_app (p s : string) : strip_prefix p (p ++ s) = Some s.
Proof.
  induction p as [|a p IH]; simpl; [reflexivity|].
  now rewrite Ascii.eqb_refl.
Qed.

Lemma strip_prefix_inv (p s r : string) :
  strip_prefix p s = Some r -> s = p ++ r.
Proof.
  revert s; induction p as [|a p IH]; simpl; intros s H.
  - now inversion H.
  - destruct s as [|b s]; [discriminate|].
    destruct (Ascii.eqb a b) eqn:E; [|discriminate].
    apply Ascii.eqb_eq in E; subst b.
    now rewrite (IH _ H).
Qed.

Lemma take_app (m rest : string) : take (String.length m) (m ++ rest) = m.
Proof. induction m as [|c m IH]; simpl; [now destruct rest | now rewrite IH]. Qed.

Lemma consumed_app (m rest : string) : consumed (m ++ rest) rest = m.
Proof.
  unfold consumed. rewrite length_append.
  replace (String.length m + String.length rest - String.length rest)%nat
    with (String.length m) by lia.
  apply take_app.
Qed.

Lemma finish_suffix cap k acc :
  leaves_suffix k -> leaves_suffix (finish cap k acc).
Proof.
  intros Hk s caps rest. unfold finish.
  destruct (k s) as [[caps' rest']|] eqn:E; [|discriminate].
  intros H; inversion H; subst. eapply Hk; eauto.
Qed.

Lemma rep_lazy_suffix cls cap k :
  leaves_suffix k ->
  forall s min acc caps rest,
    rep_lazy cls cap k min acc s = Some (caps, rest) -> exists m, s = m ++ rest.
Proof.
  intros Hk. induction s as [|c s IH]; intros min acc caps rest H.
  - destruct min; simpl in H; [|discriminate].
    destruct (finish cap k acc EmptyString) as [r|] eqn:E; [|discriminate].
    inversion H; subst. eapply finish_suffix; eauto.
  - destruct min; simpl in H.
    + destruct (finish cap k acc (String c s)) as [r|] eqn:E.
      * inversion H; subst. eapply finish_suffix; eauto.
      * destruct (cls c); [|discriminate].
        destruct (IH _ _ _ _ H) as [m ->]. now exists (String c m).
    + destruct (cls c); [|discriminate].
      destruct (IH _ _ _ _ H) as [m ->]. now exists (String c m).
Qed.

Lemma rep_greedy_suffix cls cap k :
  leaves_suffix k ->
  forall s min acc caps rest,
    rep_greedy cls cap k min acc s = Some (caps, rest) -> exists m, s = m ++ rest.
Proof.
  intros Hk.
  assert (Hstop : forall min acc s caps rest,
             match min with O => finish cap k acc s | S _ => None end
             = Some (caps, rest) -> exists m, s = m ++ rest).
  { intros [|n] acc s caps rest H; [|discriminate].
    eapply finish_suffix; eauto. }
  induction s as [|c s IH]; intros min acc caps rest H; simpl in H.
  - eapply Hstop; eauto.
  - destruct (cls c).
    + destruct (rep_greedy cls cap k (pred min) (acc ++ String c EmptyString) s)
        as [[caps' rest']|] eqn:E.
      * inversion H; subst.
        destruct (IH _ _ _ _ E) as [m ->]. now exists (String c m).
      * eapply Hstop; eauto.
    + eapply Hstop; eauto.
Qed.

Lemma dot_lazy_suffix cap k :
  leaves_suffix k ->
  forall s min acc caps rest,
    dot_lazy cap k min acc s = Some (caps, rest) -> exists m, s = m ++ rest.
Proof.
  intros Hk. induction s as [|c s IH]; intros min acc caps rest H.
  - destruct min; simpl in H; [|discriminate].
    destruct (finish cap k acc EmptyString) as [r|] eqn:E; [|discriminate].
    inversion H; subst. eapply finish_suffix; eauto.
  - destruct min; cbn [dot_lazy] in H.
    + destruct (finish cap k acc (String c s)) as [r|] eqn:E.
      * inversion H; subst. eapply finish_suffix; eauto.
      * destruct (dot_at c s); [|discriminate].
        destruct (IH _ _ _ _ H) as [m ->]. now exists (String c m).
    + destruct (dot_at c s); [|discriminate].
      destruct (IH _ _ _ _ H) as [m ->]. now exists (String c m).
Qed.

Lemma dot_greedy_suffix cap k :
  leaves_suffix k ->
  forall s min acc caps rest,
    dot_greedy cap k min acc s = Some (caps, rest) -> exists m, s = m ++ rest.
Proof.
  intros Hk.
  assert (Hstop : forall min acc s caps rest,
             match min with O => finish cap k acc s | S _ => None end
             = Some (caps, rest) -> exists m, s = m ++ rest).
  { intros [|n] acc s caps rest H; [|discriminate].
    eapply finish_suffix; eauto. }
  induction s as [|c s IH]; intros min acc caps rest H; cbn [dot_greedy] in H.
  - eapply Hstop; eauto.
  - destruct (dot_at c s).
    + destruct (dot_greedy cap k (pred min) (acc ++ String c EmptyString) s)
        as [[caps' rest']|] eqn:E.
      * inversion H; subst.
        destruct (IH _ _ _ _ E) as [m ->]. now exists (String c m).
      * eapply Hstop; eauto.
    + eapply Hstop; eauto.
Qed.

Lemma match_here_suffix (re : regex) : leaves_suffix (match_here re).
Proof.
  induction re as [|it re IH]; intros s caps rest H; simpl in H.
  - inversion H; subst. now exists EmptyString.
  - destruct it as [l | q min cls cap | q min cap].
    + destruct (strip_prefix l s) as [r|] eqn:E; [|discriminate].
      apply strip_prefix_inv in E; subst s.
      destruct (IH _ _ _ H) as [m ->].
      exists (l ++ m). now rewrite append_assoc.
    + destruct q.
      * eapply rep_greedy_suffix; eauto.
      * eapply rep_lazy_suffix; eauto.
    + destruct q.
      * eapply dot_greedy_suffix; eauto.
      * eapply dot_lazy_suffix; eauto.
Qed.

(** Every text [match_all] returns was consumed by a match at some
    position. *)
Lemma match_all_from_In (re : regex) (m : string) :
  forall s skip,
    In m (match_all_from re skip s) ->
    exists s' caps rest,
      match_here re s' = Some (caps, rest) /\ s' = m ++ rest.
Proof.
  induction s as [|c s IH]; intros skip H.
  - destruct skip; simpl in H; [|contradiction].
    destruct (match_here re EmptyString) as [[caps rest]|] eqn:E;
      [|contradiction].
    destruct H as [H|[]]. subst m.
    destruct (match_here_suffix _ _ _ _ E) as [m' Hm].
    exists EmptyString, caps, rest. split; [exact E|].
    rewrite Hm at 1. now rewrite Hm, consumed_app.
  - destruct skip; simpl in H; [|eauto].
    destruct (match_here re (String c s)) as [[caps rest]|] eqn:E; [|eauto].
    destruct H as [H|H]; [|eauto].
    subst m.
    destruct (match_here_suffix _ _ _ _ E) as [m' Hm].
    exists (String c s), caps, rest. split; [exact E|].
    rewrite Hm at 1. now rewrite Hm, consumed_app.
Qed.

End RegexFacts.

(* ================================================================== *)
(** ** The viewer: generated table, edits, round trip *)
(* ================================================================== *)

Module ViewerFacts.

Import Js Regex Viewer.

Lemma project_rows_nth pd entries :
  forall index i,
    nth_error (project_rows pd index entries) i
    = option_map (project_row pd (index + i)) (nth_error entries i).
Proof.
  induction entries as [|e rest IH]; intros index i.
  - now destruct i.
  - destruct i as [|i]; simpl.
    + now rewrite Nat.add_0_r.
    + rewrite IH. now rewrite Nat.add_succ_r.
Qed.

Lemma project_rows_length pd entries :
  forall index, List.length (project_rows pd index entries) = List.length entries.
Proof. induction entries as [|e rest IH]; intros; simpl; [reflexivity | now rewrite IH]. Qed.

(** C10.  For a project record with at least one project, the generated
    slide list is one slide with exactly one table (the slide's only table
    and the only table item of its content): a header row of three bold
    cells, then one data row per project, in the order of the record.
    The name cell and the information cell of every data row have row span
    1 and column span 1; the first data row has a third cell, the
    upcoming-events cell, whose row span is the number of projects; every
    later data row has exactly two cells. *)
Theorem generated_table_shape (pd : projectData) :
  activities pd <> [] ->
  exists s t hdr data,
    convertProjectDataToSlides pd = [s]
    /\ tables s = [t]
    /\ structuredContent s
       = [TextItem (slide_title s) true; TableItem (map (map text) (rows t)) t]
    /\ rows t = hdr :: data
    /\ List.length hdr = 3%nat
    /\ Forall bold_cell hdr
    /\ List.length data = List.length (activities pd)
    /\ forall i row,
         nth_error data i = Some row ->
         exists name info c0 c1,
           nth_error (activities pd) i = Some (name, info)
           /\ text c0 = name /\ text c1 = informationHtml info
           /\ unit_spans c0 /\ unit_spans c1
           /\ (i = 0%nat ->
               exists c2, row = [c0; c1; c2]
                          /\ rowSpan c2 = List.length (activities pd)
                          /\ colSpan c2 = 1%nat)
           /\ (i <> 0%nat -> row = [c0; c1]).
Proof.
  intros Hne.
  unfold convertProjectDataToSlides.
  assert (Hlen : (0 <? List.length (Obj.keys (activities pd)))%nat = true).
  { unfold Obj.keys. rewrite length_map.
    destruct (activities pd); [congruence | reflexivity]. }
  rewrite Hlen.
  eexists _, _, _, _.
  split; [reflexivity|]. split; [reflexivity|]. split; [reflexivity|].
  split; [reflexivity|]. split; [reflexivity|].
  split.
  { repeat constructor; eexists; split; reflexivity. }
  split; [apply project_rows_length|].
  intros i row Hrow.
  rewrite project_rows_nth in Hrow. simpl in Hrow.
  destruct (nth_error (activities pd) i) as [[name info]|] eqn:E; [|discriminate].
  simpl in Hrow. inversion Hrow; subst row; clear Hrow.
  exists name, info,
    (Cell name false 1 1 (Some (CellStyle (Some true) None))),
    (Cell (informationHtml info) true 1 1 None).
  split; [reflexivity|]. split; [reflexivity|]. split; [reflexivity|].
  split; [split; reflexivity|]. split; [split; reflexivity|].
  unfold Obj.keys; rewrite length_map.
  split.
  - intros ->. simpl. eexists. split; [reflexivity|]. split; reflexivity.
  - intros Hi. destruct i; [congruence|]. reflexivity.
Qed.

(** The shape of the table generated for two projects. *)
Lemma two_projects_table_shape :
  exists s t hdr data,
    convertProjectDataToSlides Samples.two_projects = [s]
    /\ tables s = [t]
    /\ structuredContent s
       = [TextItem (slide_title s) true; TableItem (map (map text) (rows t)) t]
    /\ rows t = hdr :: data
    /\ List.length hdr = 3%nat
    /\ Forall bold_cell hdr
    /\ List.length data = List.length (activities Samples.two_projects)
    /\ forall i row,
         nth_error data i = Some row ->
         exists name info c0 c1,
           nth_error (activities Samples.two_projects) i = Some (name, info)
           /\ text c0 = name /\ text c1 = informationHtml info
           /\ unit_spans c0 /\ unit_spans c1
           /\ (i = 0%nat ->
               exists c2, row = [c0; c1; c2]
                          /\ rowSpan c2 = List.length (activities Samples.two_projects)
                          /\ colSpan c2 = 1%nat)
           /\ (i <> 0%nat -> row = [c0; c1]).
Proof.
  apply (generated_table_shape Samples.two_projects). discriminate.
Defined.

(** *** Cell edits *)

Lemma list_update_nth {A : Type} (f : A -> A) :
  forall (xs : list A) i,
    nth_error (list_update xs i f) i = option_map f (nth_error xs i).
Proof.
  induction xs as [|x xs IH]; intros [|i]; simpl; auto.
Qed.

Lemma cell_text_after_write rs r c t row cl :
  nth_error rs r = Some row -> nth_error row c = Some cl ->
  cell_text (set_cell_text rs r c t) r c = t.
Proof.
  intros Hr Hc. unfold cell_text, set_cell_text.
  rewrite list_update_nth, Hr. simpl.
  rewrite list_update_nth, Hc. reflexivity.
Qed.

(** The rename branch reads the name back from the cell it has just
    overwritten: a new name that is not yet a key (and not a name
    inherited from the prototype) changes nothing. *)
Lemma rename_to_fresh_name pd rs r newName row cl :
  r <> 0%nat ->
  nth_error rs r = Some row -> nth_error row 0 = Some cl ->
  Obj.inherited newName = false ->
  Obj.get newName (activities pd) = None ->
  edit_project_data pd rs r 0 newName = pd.
Proof.
  intros Hr Hrow Hcl _ Hfresh. unfold edit_project_data.
  destruct (Nat.eqb_spec r 0); [contradiction|]. simpl.
  rewrite (cell_text_after_write _ _ _ _ _ _ Hrow Hcl), Hfresh.
  reflexivity.
Qed.

Lemma eqb_neq (k k' : string) : k <> k' -> String.eqb k k' = false.
Proof. intros H. now destruct (String.eqb_spec k k'). Qed.

Lemma get_remove_other {V : Type} (k k' : string) (o : Obj.t V) :
  k <> k' -> Obj.get k (Obj.remove k' o) = Obj.get k o.
Proof.
  intros Hne. induction o as [|[k0 v] o IH]; [reflexivity|].
  cbn [Obj.remove Obj.get].
  destruct (String.eqb_spec k' k0) as [->|Hk'].
  - now rewrite IH, (eqb_neq _ _ Hne).
  - cbn [Obj.get]. now rewrite IH.
Qed.

Lemma get_update_other {V : Type} (k k' : string) (v : V) (o : Obj.t V) :
  k <> k' -> Obj.get k (Obj.update k' v o) = Obj.get k o.
Proof.
  intros Hne. induction o as [|[k0 v0] o IH]; [reflexivity|].
  cbn [Obj.update Obj.get].
  destruct (String.eqb_spec k' k0) as [->|Hk']; cbn [Obj.get].
  - now rewrite (eqb_neq _ _ Hne).
  - now rewrite IH.
Qed.

Lemma get_insert_index_other {V : Type} (k k' : string) (i : Z) (v : V)
    (o : Obj.t V) :
  k <> k' -> Obj.get k (Obj.insert_index i k' v o) = Obj.get k o.
Proof.
  intros Hne. induction o as [|[k0 v0] o IH]; cbn [Obj.insert_index Obj.get].
  - now rewrite (eqb_neq _ _ Hne).
  - destruct (Obj.array_index k0) as [j|].
    + destruct (j <? i)%Z; cbn [Obj.get].
      * now rewrite IH.
      * now rewrite (eqb_neq _ _ Hne).
    + cbn [Obj.get]. now rewrite (eqb_neq _ _ Hne).
Qed.

Lemma get_app_other {V : Type} (k k' : string) (v : V) (o : Obj.t V) :
  k <> k' -> Obj.get k (o ++ [(k', v)])%list = Obj.get k o.
Proof.
  intros Hne. induction o as [|[k0 v0] o IH]; cbn [app Obj.get].
  - now rewrite (eqb_neq _ _ Hne).
  - now rewrite IH.
Qed.

Lemma get_set_other {V : Type} (k k' : string) (v : V) (o : Obj.t V) :
  k <> k' -> Obj.get k (Obj.set k' v o) = Obj.get k o.
Proof.
  intros Hne. unfold Obj.set.
  destruct (String.eqb k' "__proto__"); [reflexivity|].
  destruct (Obj.get k' o).
  - now apply get_update_other.
  - destruct (Obj.array_index k').
    + now apply get_insert_index_other.
    + now apply get_app_other.
Qed.

(** Whatever the new name, the edit of a name cell leaves the entry of
    every other name as it was: the old key of the row is never removed. *)
Lemma rename_keeps_other_keys pd rs r newName oldName row cl :
  nth_error rs r = Some row -> nth_error row 0 = Some cl ->
  oldName <> newName ->
  Obj.get oldName (activities (edit_project_data pd rs r 0 newName))
  = Obj.get oldName (activities pd).
Proof.
  intros Hrow Hcl Hne. unfold edit_project_data.
  destruct (r =? 0)%nat; [reflexivity|]. cbn [Nat.eqb].
  rewrite (cell_text_after_write _ _ _ _ _ _ Hrow Hcl).
  destruct (Obj.get newName (activities pd)) as [info|]; [|reflexivity].
  cbn [activities with_activities].
  rewrite get_set_other by assumption.
  now apply get_remove_other.
Qed.

(** C1.  On the record of the rename scenario, the name cell of the data
    row reads Alpha; editing it to Beta stores a record in which Alpha
    still holds its information and alerts and Beta is absent. *)
Theorem rename_edit_keeps_old_key :
  cell_text (rows (project_table Samples.alpha_data)) 1 0 = "Alpha"
  /\ exists pd',
       handleStructuredContentEdit
         (Samples.one_presentation Samples.alpha_data)
         (Samples.cell_edit "1" "1" "0" "Beta")
       = SetPresentations
           [ {| filename := Some "report.pptx"; project_data := pd' |} ]
       /\ Obj.get "Alpha" (activities pd')
          = Some {| information := "ok"; alerts := AlertSet ["ok"] [] [] |}
       /\ Obj.get "Beta" (activities pd') = None.
Proof.
  split; [reflexivity|].
  eexists. split; [vm_compute; reflexivity|].
  split; reflexivity.
Qed.

Lemma resolve_cell_addresses pd sl e r c rs rn cn :
  main_slide pd = Some sl ->
  resolve_cell sl e r c = Some (rs, rn, cn) ->
  addresses_cell pd e r c.
Proof.
  intros Hsl H. unfold resolve_cell in H.
  destruct (at_index (structuredContent sl) e) as [[|content tbl]|] eqn:Ee;
    try discriminate.
  destruct (at_index (rows tbl) r) as [row|] eqn:Er; [|discriminate].
  destruct (at_index row c) as [cl|] eqn:Ec; [|discriminate].
  exists sl, content, tbl, row, cl. auto.
Qed.

Lemma main_slide_exists pd : exists sl, main_slide pd = Some sl.
Proof. unfold main_slide, convertProjectDataToSlides. simpl. eauto. Qed.

Lemma table_type_is_not_title et :
  includes "table" et = true ->
  et <> EmptyString /\ String.eqb et "title" = false /\ String.eqb et "text" = false.
Proof.
  intros H. repeat split.
  - intros ->. discriminate.
  - destruct (String.eqb_spec et "title") as [->|]; [discriminate | reflexivity].
  - destruct (String.eqb_spec et "text") as [->|]; [discriminate | reflexivity].
Qed.

(** C3 (amended).  A table-cell edit addressed to slide 0 whose item, row
    and cell coordinates do not name an existing cell is ignored: the
    handler reports no error and writes the presentations back unchanged. *)
Theorem unresolved_cell_edit_is_ignored (st : state) (cur : presentation)
    (ev : event) (et : string) :
  nth_error (presentations st) (currentPresIndex st) = Some cur ->
  parse_attr (data_slide_index ev) = Num 0 ->
  data_element_type ev = Some et ->
  includes "table" et = true ->
  ~ addresses_cell (project_data cur)
      (parse_attr (data_element_index ev))
      (parse_attr (data_row_index ev))
      (parse_attr (data_cell_index ev)) ->
  handleStructuredContentEdit st ev = SetPresentations (presentations st).
Proof.
  intros Hcur Hslide Htype Htable Hno.
  destruct (table_type_is_not_title et Htable) as (Hne & Htitle & Htext).
  unfold handleStructuredContentEdit.
  rewrite Hslide, Htype, Hcur.
  destruct et as [|a et']; [congruence|].
  rewrite Htitle, Htext, Htable.
  destruct (parse_attr (data_element_index ev)) as [|e] eqn:Ee; [reflexivity|].
  change (at_index (convertProjectDataToSlides (project_data cur)) (Num 0))
    with (main_slide (project_data cur)).
  destruct (main_slide_exists (project_data cur)) as [sl0 Hsl0].
  rewrite Hsl0.
  match goal with
  | |- context [resolve_cell ?sl ?a ?b ?c] =>
      destruct (resolve_cell sl a b c) as [[[rs rn] cn]|] eqn:Eres
  end; [|reflexivity].
  exfalso. apply Hno.
  eapply resolve_cell_addresses; [exact Hsl0 | exact Eres].
Qed.

(** An edit addressed to a slide other than slide 0 finds no slide, and
    the first property access on it throws. *)
Lemma edit_of_missing_slide_throws (st : state) (cur : presentation)
    (ev : event) (si e : Z) :
  nth_error (presentations st) (currentPresIndex st) = Some cur ->
  parse_attr (data_slide_index ev) = Num si -> si <> 0%Z ->
  data_element_type ev = Some "table" ->
  parse_attr (data_element_index ev) = Num e ->
  handleStructuredContentEdit st ev = Threw TypeError.
Proof.
  intros Hcur Hslide Hsi Htype He.
  unfold handleStructuredContentEdit.
  rewrite Hslide, Htype, Hcur, He.
  cbn [String.eqb Ascii.eqb Bool.eqb]. 
  replace (includes "table" "table") with true by reflexivity.
  assert (Hnone : at_index (convertProjectDataToSlides (project_data cur)) (Num si)
                  = None).
  { unfold at_index, convertProjectDataToSlides.
    destruct (si <? 0)%Z eqn:E; [reflexivity|].
    apply Z.ltb_ge in E.
    destruct (Z.to_nat si) as [|k] eqn:Ek; [lia|].
    now destruct k. }
  now rewrite Hnone.
Qed.

(** The out-of-range scenario: cell (99, 99) of item 0. *)
Lemma edit_at_99_is_ignored :
  handleStructuredContentEdit
    (Samples.one_presentation Samples.two_projects)
    (Samples.cell_edit "0" "99" "99" "x")
  = SetPresentations (presentations (Samples.one_presentation Samples.two_projects)).
Proof.
  apply (unresolved_cell_edit_is_ignored
           (Samples.one_presentation Samples.two_projects)
           {| filename := Some "report.pptx"; project_data := Samples.two_projects |}
           (Samples.cell_edit "0" "99" "99" "x") "table").
  - reflexivity.
  - reflexivity.
  - reflexivity.
  - reflexivity.
  - intros (sl & content & tbl & row & cl & Hsl & He & _).
    vm_compute in Hsl. inversion Hsl; subst sl; clear Hsl.
    vm_compute in He. discriminate.
Defined.

(** C3 (counterexample).  On a document whose only table is 3 x 3, the
    edit of cell (99, 99) is not reported: the handler neither throws nor
    returns early; it writes the unchanged presentations back.  This holds
    for item 0 (the title item) and for item 1 (the table). *)
Lemma out_of_range_edit_reports_nothing :
  let st := Samples.one_presentation Samples.two_projects in
  List.length (rows (project_table Samples.two_projects)) = 3%nat
  /\ handleStructuredContentEdit st (Samples.cell_edit "0" "99" "99" "x")
     = SetPresentations (presentations st)
  /\ handleStructuredContentEdit st (Samples.cell_edit "1" "99" "99" "x")
     = SetPresentations (presentations st)
  /\ forall e,
       handleStructuredContentEdit st (Samples.cell_edit "0" "99" "99" "x")
       <> Threw e.
Proof.
  cbv zeta. split; [reflexivity|].
  split; [vm_compute; reflexivity|].
  split; [vm_compute; reflexivity|].
  intros e. vm_compute. discriminate.
Qed.

(** *** Round trip through the table *)

Lemma get_map_values {V W : Type} (g : V -> W) (k : string) (o : Obj.t V) :
  Obj.get k (Obj.map_values g o) = option_map g (Obj.get k o).
Proof.
  induction o as [|[k' v] o IH]; simpl; [reflexivity|].
  destruct (String.eqb k k'); [reflexivity | exact IH].
Qed.

Lemma update_map_values {V W : Type} (g : V -> W) (k : string) (v : V)
    (o : Obj.t V) :
  Obj.map_values g (Obj.update k v o) = Obj.update k (g v) (Obj.map_values g o).
Proof.
  induction o as [|[k' v'] o IH]; simpl; [reflexivity|].
  destruct (String.eqb k k'); simpl; [reflexivity | now rewrite IH].
Qed.

Lemma insert_index_map_values {V W : Type} (g : V -> W) (i : Z) (k : string)
    (v : V) (o : Obj.t V) :
  Obj.map_values g (Obj.insert_index i k v o)
  = Obj.insert_index i k (g v) (Obj.map_values g o).
Proof.
  induction o as [|[k' v'] o IH]; simpl; [reflexivity|].
  destruct (Obj.array_index k') as [j|]; [|reflexivity].
  destruct (j <? i)%Z; simpl; [now rewrite IH | reflexivity].
Qed.

(** Where [set] puts an entry depends on the keys only. *)
Lemma set_map_values {V W : Type} (g : V -> W) (k : string) (v : V)
    (o : Obj.t V) :
  Obj.map_values g (Obj.set k v o) = Obj.set k (g v) (Obj.map_values g o).
Proof.
  unfold Obj.set. rewrite get_map_values.
  destruct (String.eqb k "__proto__"); [reflexivity|].
  destruct (Obj.get k o) as [v0|]; simpl.
  - apply update_map_values.
  - destruct (Obj.array_index k) as [i|].
    + apply insert_index_map_values.
    + unfold Obj.map_values. now rewrite map_app.
Qed.

Lemma rebuild_map_values {V W : Type} (g : V -> W) (l : Obj.t V) :
  forall acc : Obj.t V,
    fold_left (fun a e => Obj.set (fst e) (g (snd e)) a) l (Obj.map_values g acc)
    = Obj.map_values g
        (fold_left (fun a e => Obj.set (fst e) (snd e) a) l acc).
Proof.
  induction l as [|[k v] l IH]; intros acc; simpl; [reflexivity|].
  rewrite <- IH. now rewrite set_map_values.
Qed.

(** The loop of [updateProjectData] over the generated rows sets every
    project, in order, to its marked-up form. *)
Lemma reduce_project_rows pd entries :
  Forall (fun k => k <> EmptyString) (Obj.keys entries) ->
  forall index acc,
    fold_left reduce_row (project_rows pd index entries) acc
    = fold_left (fun a e => Obj.set (fst e) (marked_up (snd e)) a) entries acc.
Proof.
  induction entries as [|[k info] rest IH]; intros Hk index acc;
    [reflexivity|].
  inversion Hk as [|? ? Hk0 Hrest]; subst.
  simpl. rewrite IH by assumption. f_equal.
  simpl in Hk0. destruct k; [congruence | reflexivity].
Qed.

(** C7 (amended).  For a project record with at least one project, whose
    project names are not empty, converting to the slide table and
    reducing back recovers the project names in their order, the
    upcoming events and the metadata; the information of each project
    comes back with the colour markup of its alerts injected, and its
    alert lists come back as the classification of that marked-up text. *)
Theorem round_trip_marks_up (pd : projectData) :
  activities pd <> [] ->
  Obj.canonical (activities pd) ->
  Forall (fun k => k <> EmptyString) (Obj.keys (activities pd)) ->
  updateProjectData (convertProjectDataToSlides pd) pd
  = {| activities := Obj.map_values marked_up (activities pd);
       upcoming_events := Some (opt_str (upcoming_events pd));
       meta := meta pd |}.
Proof.
  intros Hne Hcanon Hkeys.
  unfold convertProjectDataToSlides, updateProjectData.
  assert (Hlen : (0 <? List.length (Obj.keys (activities pd)))%nat = true).
  { unfold Obj.keys. rewrite length_map.
    destruct (activities pd); [congruence | reflexivity]. }
  cbn [tables]. rewrite Hlen. cbn [project_table rows tl].
  f_equal.
  - rewrite reduce_project_rows by assumption.
    change (@nil (string * projectInfo))
      with (Obj.map_values marked_up (@nil (string * projectInfo))).
    rewrite rebuild_map_values.
    fold (Obj.rebuild (activities pd)). now rewrite Hcanon.
  - destruct (activities pd) as [|[k info] rest]; [congruence|].
    reflexivity.
Qed.

(** The round trip of the record of the rename scenario. *)
Lemma alpha_round_trip :
  updateProjectData (convertProjectDataToSlides Samples.alpha_data)
    Samples.alpha_data
  = {| activities := Obj.map_values marked_up (activities Samples.alpha_data);
       upcoming_events := Some (opt_str (upcoming_events Samples.alpha_data));
       meta := meta Samples.alpha_data |}.
Proof.
  apply (round_trip_marks_up Samples.alpha_data).
  - discriminate.
  - reflexivity.
  - repeat constructor; discriminate.
Defined.

(** C7 (counterexample).  The record of the rename scenario does not
    survive the round trip: the information [ok] of Alpha comes back
    wrapped in the green span, so the record that comes back differs from
    the one that went in. *)
Lemma round_trip_changes_information :
  let back :=
    updateProjectData (convertProjectDataToSlides Samples.alpha_data)
      Samples.alpha_data in
  option_map information (Obj.get "Alpha" (activities Samples.alpha_data))
  = Some "ok"
  /\ option_map information (Obj.get "Alpha" (activities back))
     = Some (green_open ++ "ok" ++ span_close)
  /\ back <> Samples.alpha_data.
Proof.
  cbv zeta. split; [reflexivity|]. split; [vm_compute; reflexivity|].
  vm_compute. discriminate.
Qed.

(** *** The classifier *)

Lemma append_inj_r (a b c : string) : a ++ c = b ++ c -> a = b.
Proof.
  revert b; induction a as [|x a IH]; intros [|y b] H; simpl in H.
  - reflexivity.
  - exfalso. apply (f_equal String.length) in H. simpl in H.
    rewrite RegexFacts.length_append in H. lia.
  - exfalso. apply (f_equal String.length) in H. simpl in H.
    rewrite RegexFacts.length_append in H. lia.
  - inversion H; subst. f_equal. now apply IH.
Qed.

(** A matched span begins with the opening tag of the pattern. *)
Lemma span_starts_with_tag (open html m : string) :
  In m (match_all (span_re open) html) -> exists body, m = open ++ body.
Proof.
  intros H. apply RegexFacts.match_all_from_In in H.
  destruct H as (s' & caps & rest & Hm & Hs').
  unfold span_re in Hm. simpl in Hm.
  destruct (strip_prefix open s') as [r|] eqn:E; [|discriminate].
  apply RegexFacts.strip_prefix_inv in E.
  assert (Hsuf : exists m', r = m' ++ rest).
  { apply (RegexFacts.match_here_suffix
             [Dot Lazy 0 true; Lit span_close] r caps rest).
    exact Hm. }
  destruct Hsuf as [m' ->].
  exists m'. apply (append_inj_r _ _ rest).
  rewrite RegexFacts.append_assoc. congruence.
Qed.

Lemma tiers_of_tagged_span (t : tier) (body : string) :
  tiers_of_span (tier_open t ++ body) = [t].
Proof. destruct t; reflexivity. Qed.

Lemma split_first_none_inv (needle : string) (c : ascii) (s : string) :
  split_first needle (String c s) = None ->
  strip_prefix needle (String c s) = None /\ split_first needle s = None.
Proof.
  intros H. cbn [split_first] in H.
  destruct (strip_prefix needle (String c s)); [discriminate|].
  split; [reflexivity|].
  destruct (split_first needle s) as [[pre post]|]; [discriminate | reflexivity].
Qed.

(** A text that does not contain the opening tag has no match. *)
Lemma no_tag_no_match (open html : string) :
  includes open html = false -> match_all (span_re open) html = [].
Proof.
  unfold includes, match_all.
  induction html as [|c s IH]; intros H.
  - simpl in *. destruct (strip_prefix open EmptyString); [discriminate | reflexivity].
  - destruct (split_first open (String c s)) as [?|] eqn:E; [discriminate|].
    apply split_first_none_inv in E. destruct E as [E1 E2].
    cbn [match_all_from span_re match_here]. rewrite E1.
    apply IH. now rewrite E2.
Qed.

Lemma tier_alerts_extract (t : tier) (html : string) :
  tier_alerts t (extractAlertsFromHtml html)
  = map (span_content (tier_open t)) (match_all (span_re (tier_open t)) html).
Proof. destruct t; reflexivity. Qed.

(** *** Matching one span *)

Lemma has_char_app (c : ascii) (a b : string) :
  has_char c (a ++ b) = has_char c a || has_char c b.
Proof.
  induction a as [|x a IH]; simpl; [reflexivity|].
  now rewrite IH, orb_assoc.
Qed.

Lemma split_first_inv (needle : string) :
  forall hay pre post,
    split_first needle hay = Some (pre, post) -> hay = pre ++ needle ++ post.
Proof.
  induction hay as [|c hay IH]; intros pre post H; cbn [split_first] in H.
  - destruct (strip_prefix needle EmptyString) as [r|] eqn:E; [|discriminate].
    inversion H; subst. now apply RegexFacts.strip_prefix_inv in E.
  - destruct (strip_prefix needle (String c hay)) as [r|] eqn:E.
    + inversion H; subst. now apply RegexFacts.strip_prefix_inv in E.
    + destruct (split_first needle hay) as [[pre' post']|]; [|discriminate].
      inversion H; subst. simpl. f_equal. now apply IH.
Qed.

(** A template without [$] is inserted as it is. *)
Lemma get_substitution_plain (m b a : string) (caps : list string) :
  forall t, has_char "$" t = false -> get_substitution m b a caps t = t.
Proof.
  induction t as [|c t IH]; intros H; [reflexivity|].
  cbn [has_char] in H. apply orb_false_elim in H. destruct H as [Hc Ht].
  destruct c as [[] [] [] [] [] [] [] []]; try discriminate Hc;
    simpl; now rewrite IH.
Qed.

Lemma tier_open_headed (t : tier) : lt_headed (tier_open t).
Proof. destruct t; eexists; reflexivity. Qed.

Lemma headed_no_prefix (open : string) (c : ascii) (s : string) :
  lt_headed open -> Ascii.eqb "<" c = false ->
  strip_prefix open (String c s) = None.
Proof. intros [l ->] H. cbn [strip_prefix]. now rewrite H. Qed.

(** Matching skips a prefix without [<]. *)
Lemma match_all_plain_prefix (open : string) (re : regex) :
  lt_headed open ->
  forall s r,
    has_char "<" s = false ->
    match_all_from (Lit open :: re) 0 (s ++ r)
    = match_all_from (Lit open :: re) 0 r.
Proof.
  intros Hopen. induction s as [|c s IH]; intros r H; [reflexivity|].
  cbn [has_char] in H. apply orb_false_elim in H. destruct H as [Hc Hs].
  cbn [append match_all_from match_here].
  rewrite (headed_no_prefix _ _ _ Hopen Hc). now apply IH.
Qed.

Lemma match_all_skip (re : regex) :
  forall a r,
    match_all_from re (String.length a) (a ++ r) = match_all_from re 0 r.
Proof.
  induction a as [|c a IH]; intros r; [reflexivity|]. simpl. apply IH.
Qed.

(** After a match at the start of [m ++ rest] that consumed [m], the
    search resumes in [rest]. *)
Lemma match_all_hit (re : regex) (m rest : string) (caps : list string) :
  m <> EmptyString ->
  match_here re (m ++ rest) = Some (caps, rest) ->
  match_all_from re 0 (m ++ rest) = m :: match_all_from re 0 rest.
Proof.
  intros Hm H. destruct m as [|c m]; [congruence|].
  cbn [append match_all_from]. cbn [append] in H. rewrite H.
  change (String c (m ++ rest)) with (String c m ++ rest).
  rewrite RegexFacts.consumed_app. cbn [String.length pred].
  now rewrite match_all_skip.
Qed.

Lemma rep_lazy_0 cls cap k acc s :
  rep_lazy cls cap k 0 acc s
  = match finish cap k acc s with
    | Some r => Some r
    | None =>
        match s with
        | String c s' =>
            if cls c then rep_lazy cls cap k 0 (acc ++ String c EmptyString) s'
            else None
        | EmptyString => None
        end
    end.
Proof. destruct s; reflexivity. Qed.

Lemma close_here (post : string) :
  match_here [Lit span_close] (span_close ++ post) = Some ([], post).
Proof. cbn [match_here]. now rewrite RegexFacts.strip_prefix_app. Qed.

Lemma close_not_here (c : ascii) (s : string) :
  Ascii.eqb "<" c = false -> match_here [Lit span_close] (String c s) = None.
Proof.
  intros H. cbn [match_here].
  now rewrite (headed_no_prefix span_close c s (ex_intro _ _ eq_refl) H).
Qed.

Lemma dot_lazy_0 cap k acc s :
  dot_lazy cap k 0 acc s
  = match finish cap k acc s with
    | Some r => Some r
    | None =>
        match s with
        | String c s' =>
            if dot_at c s' then dot_lazy cap k 0 (acc ++ String c EmptyString) s'
            else None
        | EmptyString => None
        end
    end.
Proof. destruct s; reflexivity. Qed.

(** Before a text that begins with [<], the separator test reads what
    the text before holds. *)
Lemma separator_at_before_tag (c : ascii) (p r : string) :
  separator_at c (p ++ String "<" r) = separator_at c p.
Proof.
  unfold separator_at. destruct (nat_of_ascii c =? 226)%nat; [|reflexivity].
  cbn [andb]. destruct p as [|d [|e p]]; cbn [append].
  - now destruct r.
  - unfold separator_tail.
    destruct (nat_of_ascii d =? 128)%nat; reflexivity.
  - reflexivity.
Qed.

(** The lazy [.*?] stops at the first closing tag: over a phrase without
    [<] and without line terminator, that is the end of the phrase. *)
Lemma lazy_phrase (p post : string) :
  has_char "<" p = false ->
  one_line p ->
  forall acc,
    dot_lazy true (match_here [Lit span_close]) 0 acc
      (p ++ span_close ++ post)
    = Some ([acc ++ p], post).
Proof.
  intros Hlt (Hlf & Hcr & Hsep). revert Hlt Hlf Hcr Hsep.
  induction p as [|c p IH]; intros Hlt Hlf Hcr Hsep acc.
  - cbn [append]. rewrite dot_lazy_0. unfold finish.
    rewrite close_here. now rewrite RegexFacts.append_nil_r.
  - cbn [has_char has_separator] in Hlt, Hlf, Hcr, Hsep.
    apply orb_false_elim in Hlt; destruct Hlt as [Hlt Hlt'].
    apply orb_false_elim in Hlf; destruct Hlf as [Hlf Hlf'].
    apply orb_false_elim in Hcr; destruct Hcr as [Hcr Hcr'].
    apply orb_false_elim in Hsep; destruct Hsep as [Hsep Hsep'].
    cbn [append]. rewrite dot_lazy_0. unfold finish at 1.
    rewrite (close_not_here _ _ Hlt).
    assert (Hdot : dot_at c (p ++ span_close ++ post) = true).
    { unfold dot_at, dot.
      rewrite (Ascii.eqb_sym c), Hlf, (Ascii.eqb_sym c), Hcr.
      change (span_close ++ post) with (String "<" ("/span>" ++ post)).
      now rewrite separator_at_before_tag, Hsep. }
    rewrite Hdot, IH by assumption.
    now rewrite RegexFacts.append_assoc.
Qed.

Lemma span_matches (open p post : string) :
  has_char "<" p = false ->
  one_line p ->
  match_here (span_re open) ((open ++ p ++ span_close) ++ post)
  = Some ([p], post).
Proof.
  intros Hlt Hline. unfold span_re. cbn [match_here].
  rewrite !RegexFacts.append_assoc, RegexFacts.strip_prefix_app.
  now rewrite lazy_phrase.
Qed.

(** The leftmost match of a pattern that begins with [<] lies after a
    prefix without [<]. *)
Lemma exec_plain_prefix (open : string) (re : regex) :
  lt_headed open ->
  forall s r,
    has_char "<" s = false ->
    exec (Lit open :: re) (s ++ r)
    = option_map
        (fun f => Found (s ++ before f) (matched f) (groups f) (after f))
        (exec (Lit open :: re) r).
Proof.
  intros Hopen. induction s as [|c s IH]; intros r H.
  - simpl. destruct (exec (Lit open :: re) r) as [[]|]; reflexivity.
  - cbn [has_char] in H. apply orb_false_elim in H. destruct H as [Hc Hs].
    cbn [append exec match_here].
    rewrite (headed_no_prefix _ _ _ Hopen Hc), (IH _ Hs).
    destruct (exec (Lit open :: re) r) as [[]|]; reflexivity.
Qed.

Lemma exec_literal_here (l r : string) :
  exec [Lit l] (l ++ r) = Some (Found EmptyString l [] r).
Proof.
  assert (H : match_here [Lit l] (l ++ r) = Some ([], r)).
  { cbn [match_here]. now rewrite RegexFacts.strip_prefix_app. }
  destruct l as [|c l].
  - simpl. destruct r; simpl; unfold consumed;
      rewrite ?Nat.sub_diag; reflexivity.
  - cbn [append exec]. cbn [append] in H. rewrite H.
    change (String c (l ++ r)) with (String c l ++ r).
    now rewrite RegexFacts.consumed_app.
Qed.

(** The content of a matched span is the phrase. *)
Lemma span_content_phrase (open p : string) :
  has_char "<" p = false ->
  span_content open (open ++ p ++ span_close) = p.
Proof.
  intros Hlt. unfold span_content, Regex.replace.
  rewrite exec_literal_here. cbn [before after matched groups get_substitution append].
  rewrite <- (RegexFacts.append_nil_r span_close) at 2.
  rewrite (exec_plain_prefix span_close [] (ex_intro _ _ eq_refl) p _ Hlt).
  rewrite exec_literal_here.
  cbn [option_map before after matched groups get_substitution append].
  now rewrite !RegexFacts.append_nil_r.
Qed.

(** The pattern of one tier passes over the span of another. *)
Lemma foreign_span_skipped (t t' : tier) (body post : string) :
  t' <> t ->
  has_char "<" body = false ->
  match_all_from (span_re (tier_open t')) 0
    ((tier_open t ++ body ++ span_close) ++ post)
  = match_all_from (span_re (tier_open t')) 0 post.
Proof.
  intros Hne Hbody. unfold span_re.
  rewrite !RegexFacts.append_assoc.
  assert (Hhead : forall t0, lt_headed (tier_open t0))
    by apply tier_open_headed.
  destruct t, t'; try congruence; simpl;
    match goal with
    | |- context [match_all_from (Lit ?o :: ?re) 0 (body ++ ?r)] =>
        first [ rewrite (match_all_plain_prefix o re (Hhead Advancement) body r Hbody)
              | rewrite (match_all_plain_prefix o re (Hhead SmallAlert) body r Hbody)
              | rewrite (match_all_plain_prefix o re (Hhead CriticalAlert) body r Hbody) ]
    end;
    reflexivity.
Qed.

(** The pattern of a tier matches its own span, whole. *)
Lemma own_span_matched (t : tier) (body post : string) :
  has_char "<" body = false ->
  one_line body ->
  match_all_from (span_re (tier_open t)) 0
    ((tier_open t ++ body ++ span_close) ++ post)
  = (tier_open t ++ body ++ span_close)
    :: match_all_from (span_re (tier_open t)) 0 post.
Proof.
  intros Hlt Hline.
  apply (match_all_hit _ _ _ [body]).
  - destruct t; discriminate.
  - now apply span_matches.
Qed.

Lemma tier_eqb_eq (a b : tier) : tier_eqb a b = true <-> a = b.
Proof. destruct a, b; simpl; split; congruence. Qed.

(** Classifying a flat marked-up text gives, for every tier, the bodies
    of its spans in text order. *)
Lemma classify_flat (segs : list segment) :
  Forall flat_segment segs ->
  forall t, extract_tier (tier_open t) (render segs) = spans_of t segs.
Proof.
  unfold extract_tier, match_all.
  induction 1 as [|sg rest Hsg Hrest IH]; intros t.
  - destruct t; reflexivity.
  - destruct sg as [s|t0 body]; cbn [render render_segment spans_of].
    + unfold span_re at 1.
      rewrite (match_all_plain_prefix _ _ (tier_open_headed t) _ _ Hsg).
      apply IH.
    + destruct Hsg as (Hlt & Hline).
      destruct (tier_eqb t t0) eqn:E.
      * apply tier_eqb_eq in E. subst t0.
        rewrite own_span_matched by assumption.
        cbn [map]. rewrite span_content_phrase by assumption.
        f_equal. apply IH.
      * rewrite foreign_span_skipped; [apply IH | | assumption].
        intros ->. destruct t0; discriminate.
Qed.

Lemma alertSet_ext (a b : alertSet) :
  (forall t, tier_alerts t a = tier_alerts t b) -> a = b.
Proof.
  intros H. destruct a, b.
  pose proof (H Advancement) as H1. pose proof (H SmallAlert) as H2.
  pose proof (H CriticalAlert) as H3. simpl in *. now subst.
Qed.

(** C6 (amended).  On a text made of plain stretches and colour spans
    that are not nested, where neither holds a [<] and no span holds a
    line terminator (LF, CR, U+2028 or U+2029), classification gives
    every tier exactly the bodies of
    the spans that carry its tag, in text order: green spans are the
    advancements, orange spans the minor alerts, red bold spans the
    critical alerts, and nothing else is classified.  On every text, a
    span matched for a tier begins with the exact tag of that tier and of
    no other, and a tier whose exact tag does not occur gets nothing. *)
Theorem flat_spans_classified_by_tag :
  (forall segs : list segment,
      Forall flat_segment segs ->
      forall t, tier_alerts t (extractAlertsFromHtml (render segs))
                = spans_of t segs)
  /\ (forall (html : string) (t : tier) (m : string),
         In m (match_all (span_re (tier_open t)) html) ->
         tiers_of_span m = [t])
  /\ (forall (html : string) (t : tier),
         includes (tier_open t) html = false ->
         tier_alerts t (extractAlertsFromHtml html) = []).
Proof.
  split.
  { intros segs Hflat t. rewrite tier_alerts_extract.
    now apply classify_flat. }
  split.
  { intros html t m H.
    destruct (span_starts_with_tag _ _ _ H) as [body ->].
    apply tiers_of_tagged_span. }
  intros html t H. rewrite tier_alerts_extract.
  now rewrite (no_tag_no_match _ _ H).
Qed.

(** The colour classification scenario. *)
Lemma status_text_classified :
  render Samples.status_segments = Samples.status_text
  /\ tier_alerts Advancement
       (extractAlertsFromHtml (render Samples.status_segments))
     = ["Great work"]
  /\ tier_alerts SmallAlert
       (extractAlertsFromHtml (render Samples.status_segments))
     = []
  /\ tier_alerts CriticalAlert
       (extractAlertsFromHtml (render Samples.status_segments))
     = ["Budget overrun"].
Proof.
  pose proof (proj1 flat_spans_classified_by_tag Samples.status_segments
                ltac:(repeat constructor)) as H.
  split; [reflexivity|]. repeat split; apply H.
Defined.

(** A span coloured by an RGB value is not classified. *)
Lemma rgb_span_not_classified :
  extractAlertsFromHtml Samples.rgb_text = no_alerts.
Proof. vm_compute. reflexivity. Qed.

(** C6 (counterexample).  A green span whose text holds a line break is
    assigned to no tier: the pattern of the tier does not match it. *)
Lemma span_with_line_break_is_dropped :
  Samples.two_line_span
  = render [Tagged Advancement
              ("Great work," ++ String "010"%char "on schedule")]
  /\ tiers_of_span Samples.two_line_span = [Advancement]
  /\ extractAlertsFromHtml Samples.two_line_span = no_alerts.
Proof. repeat split; vm_compute; reflexivity. Qed.

(** The same with the line separator U+2028 in place of the line feed:
    the pattern [.] refuses it as well. *)
Lemma span_with_line_separator_is_dropped :
  let html :=
    render [Tagged Advancement
              ("Great work," ++ MoreSamples.line_separator ++ "on schedule")] in
  tiers_of_span html = [Advancement]
  /\ extractAlertsFromHtml html = no_alerts.
Proof. split; vm_compute; reflexivity. Qed.

(** *** Injecting the phrases of an alert set *)

Lemma render_app (a b : list segment) :
  render (a ++ b) = render a ++ render b.
Proof.
  induction a as [|sg a IH]; simpl; [reflexivity|].
  now rewrite IH, RegexFacts.append_assoc.
Qed.

Lemma spans_of_app (t : tier) (a b : list segment) :
  spans_of t (a ++ b) = (spans_of t a ++ spans_of t b)%list.
Proof.
  induction a as [|[s|t0 body] a IH]; simpl; auto.
  destruct (tier_eqb t t0); simpl; now rewrite IH.
Qed.

Lemma inject_tier_fold (t : tier) (phrases : list string) (html : string) :
  inject_tier (tier_open t) phrases html
  = fold_left inject_phrase (map (pair t) phrases) html.
Proof.
  unfold inject_tier. revert html.
  induction phrases as [|p rest IH]; intros html; simpl; [reflexivity|].
  apply IH.
Qed.

(** [informationHtml] injects the tagged phrases in order. *)
Lemma informationHtml_fold (info : projectInfo) :
  informationHtml info
  = fold_left inject_phrase (tagged_phrases (alerts info)) (information info).
Proof.
  unfold informationHtml, tagged_phrases.
  rewrite !fold_left_app.
  now rewrite <- !inject_tier_fold.
Qed.

Lemma wrapped_has_no_dollar (t : tier) (p : string) :
  has_char "$" p = false ->
  has_char "$" (tier_open t ++ p ++ span_close) = false.
Proof. intros H. rewrite !has_char_app, H. now destruct t. Qed.

(** One step that hits plain text turns the rendered text into the
    rendered text with the new span. *)
Lemma inject_phrase_hits (before after : list segment) (pre p post : string)
    (t : tier) :
  has_char "$" p = false ->
  split_first p (render (before ++ Plain (pre ++ p ++ post) :: after))
  = Some (render before ++ pre, post ++ render after) ->
  inject_phrase (render (before ++ Plain (pre ++ p ++ post) :: after)) (t, p)
  = render (before ++ Plain pre :: Tagged t p :: Plain post :: after).
Proof.
  intros Hd Hsplit. unfold inject_phrase, replace_str. cbn [fst snd].
  rewrite Hsplit, get_substitution_plain by now apply wrapped_has_no_dollar.
  rewrite render_app. cbn [render render_segment].
  now rewrite !RegexFacts.append_assoc.
Qed.

Lemma Forall_flat_split (before after : list segment) (pre p post : string) :
  Forall flat_segment (before ++ Plain (pre ++ p ++ post) :: after) ->
  Forall flat_segment before /\ Forall flat_segment after
  /\ has_char "<" pre = false /\ has_char "<" post = false.
Proof.
  intros H. apply Forall_app in H. destruct H as [Hb H].
  inversion H as [|? ? Hp Ha]; subst.
  cbn [flat_segment] in Hp. rewrite !has_char_app in Hp.
  apply orb_false_elim in Hp. destruct Hp as [Hpre Hp].
  apply orb_false_elim in Hp. destruct Hp as [_ Hpost].
  auto.
Qed.

(** Injection along [marks] produces the final text, which is flat, and
    its spans are the spans there were, followed, tier by tier, by the
    phrases injected. *)
Lemma marks_run (segs : list segment) (phrases : list (tier * string))
    (final : list segment) :
  marks segs phrases final ->
  Forall (fun tp => clean_phrase (snd tp)) phrases ->
  Forall flat_segment segs ->
  fold_left inject_phrase phrases (render segs) = render final
  /\ Forall flat_segment final
  /\ forall t,
       spans_of t final
       = (spans_of t segs
          ++ map snd (filter (fun tp => tier_eqb t (fst tp)) phrases))%list.
Proof.
  induction 1 as [segs | before after pre p post t rest final Hsplit Hlast _ IH];
    intros Hclean Hflat.
  - split; [reflexivity|]. split; [assumption|].
    intros t. cbn [filter map]. now rewrite app_nil_r.
  - inversion Hclean as [|? ? Hp Hrest]; subst. cbn [snd] in Hp.
    destruct Hp as (Hlt & Hdollar & Hline).
    destruct (Forall_flat_split _ _ _ _ _ Hflat) as (Hb & Ha & Hpre & Hpost).
    destruct IH as (Hrun & Hfinal & Hspans).
    { assumption. }
    { apply Forall_app. split; [assumption|].
      constructor; [exact Hpre|].
      constructor; [exact (conj Hlt Hline)|].
      constructor; [exact Hpost | exact Ha]. }
    split.
    { cbn [fold_left]. now rewrite inject_phrase_hits. }
    split; [assumption|].
    intros t0. rewrite Hspans. cbn [filter fst].
    rewrite !spans_of_app. cbn [spans_of].
    destruct (tier_eqb t0 t) eqn:E.
    + apply tier_eqb_eq in E. subst t0. rewrite Hlast.
      cbn [map snd]. rewrite <- !app_assoc. reflexivity.
    + reflexivity.
Qed.

Lemma tier_alerts_tagged (t : tier) (a : alertSet) :
  map snd (filter (fun tp => tier_eqb t (fst tp)) (tagged_phrases a))
  = tier_alerts t a.
Proof.
  assert (Hsame : forall t0 (ps : list string),
             map snd (filter (fun tp => tier_eqb t0 (fst tp)) (map (pair t0) ps))
             = ps).
  { intros t0 ps. induction ps as [|p ps IH]; [reflexivity|].
    cbn [map filter fst]. replace (tier_eqb t0 t0) with true by now destruct t0.
    cbn [map snd]. now rewrite IH. }
  assert (Hother : forall t0 t1 (ps : list string), tier_eqb t0 t1 = false ->
             map snd (filter (fun tp => tier_eqb t0 (fst tp)) (map (pair t1) ps))
             = []).
  { intros t0 t1 ps E. induction ps as [|p ps IH]; [reflexivity|].
    cbn [map filter fst]. now rewrite E. }
  unfold tagged_phrases. rewrite !filter_app, !map_app.
  destruct t; cbn [tier_alerts];
    rewrite ?Hsame, ?Hother by reflexivity;
    now rewrite ?app_nil_r.
Qed.

(** Classification after an injection that hits plain text every time. *)
Lemma classify_after_marks (text : string) (a : alertSet)
    (final : list segment) (t : tier) :
  has_char "<" text = false ->
  Forall (fun tp => clean_phrase (snd tp)) (tagged_phrases a) ->
  marks [Plain text] (tagged_phrases a) final ->
  extract_tier (tier_open t)
    (informationHtml {| information := text; alerts := a |})
  = tier_alerts t a.
Proof.
  intros Hplain Hclean Hmarks.
  rewrite informationHtml_fold. cbn [alerts information].
  destruct (marks_run _ _ _ Hmarks Hclean) as (Hrun & Hflat & Hspans).
  { repeat constructor. exact Hplain. }
  rewrite <- (RegexFacts.append_nil_r text).
  change (text ++ EmptyString) with (render [Plain text]).
  rewrite Hrun, classify_flat by assumption.
  rewrite Hspans. cbn [spans_of app]. apply tier_alerts_tagged.
Qed.

(** C2 (amended).  Let [text] be a plain text (without [<]) and [a] an
    alert set whose phrases hold no [<], no [$] and no line terminator
    (LF, CR, U+2028 or U+2029).  If
    every phrase of [a], taken in injection order (advancements, minor
    alerts, critical alerts, each in list order), has its first occurrence
    in the text marked up so far inside plain text, outside the spans
    inserted before it and after the spans of its own tier, then
    classifying the injected text gives [a] back, for all three tiers. *)
Theorem marked_phrases_classified_back (text : string) (a : alertSet)
    (final : list segment) :
  has_char "<" text = false ->
  Forall (fun tp => clean_phrase (snd tp)) (tagged_phrases a) ->
  marks [Plain text] (tagged_phrases a) final ->
  extractAlertsFromHtml
    (informationHtml {| information := text; alerts := a |})
  = a.
Proof.
  intros Hplain Hclean Hmarks.
  apply alertSet_ext. intros t. rewrite tier_alerts_extract.
  now apply (classify_after_marks text a final t).
Qed.

(** Two advancements listed in text order and one critical alert. *)
Lemma hello_world_classified_back :
  extractAlertsFromHtml
    (informationHtml
       {| information := "Hello World. Budget overrun";
          alerts := {| advancements := ["Hello"; "World"];
                       small_alerts := [];
                       critical_alerts := ["Budget overrun"] |} |})
  = {| advancements := ["Hello"; "World"];
       small_alerts := [];
       critical_alerts := ["Budget overrun"] |}.
Proof.
  eapply (marked_phrases_classified_back "Hello World. Budget overrun").
  - reflexivity.
  - repeat constructor.
  - apply (marks_step [] [] "" "Hello" " World. Budget overrun" Advancement);
      [reflexivity | reflexivity |].
    apply (marks_step [Plain ""; Tagged Advancement "Hello"] []
             " " "World" ". Budget overrun" Advancement);
      [reflexivity | reflexivity |].
    apply (marks_step
             [Plain ""; Tagged Advancement "Hello"; Plain " ";
              Tagged Advancement "World"] []
             ". " "Budget overrun" "" CriticalAlert);
      [reflexivity | reflexivity |].
    apply marks_done.
Defined.

(** A single phrase, in any tier: it is enough that the plain text
    contains it. *)
Lemma single_phrase_classified_back (t : tier) (text p : string) :
  has_char "<" text = false ->
  includes p text = true ->
  has_char "$" p = false ->
  one_line p ->
  extractAlertsFromHtml
    (informationHtml {| information := text; alerts := single_alert t p |})
  = single_alert t p.
Proof.
  intros Hplain Hin Hdollar Hline.
  unfold includes in Hin.
  destruct (split_first p text) as [[pre post]|] eqn:E; [|discriminate].
  pose proof (split_first_inv _ _ _ _ E) as Htext.
  assert (Hp : has_char "<" p = false).
  { rewrite Htext, !has_char_app in Hplain.
    apply orb_false_elim in Hplain. destruct Hplain as [_ Hplain].
    now apply orb_false_elim in Hplain. }
  assert (Htagged : tagged_phrases (single_alert t p) = [(t, p)])
    by now destruct t.
  apply alertSet_ext. intros t1. rewrite tier_alerts_extract.
  apply (classify_after_marks text (single_alert t p)
           [Plain pre; Tagged t p; Plain post] t1).
  - assumption.
  - rewrite Htagged. constructor; [|constructor].
    exact (conj Hp (conj Hdollar Hline)).
  - rewrite Htagged. subst text.
    apply (marks_step [] [] pre p post t [] _); [|reflexivity|apply marks_done].
    cbn [app render render_segment].
    now rewrite !RegexFacts.append_nil_r, E.
Qed.

(** C2 (counterexample).  The text [Hello World] contains both phrases of
    the alert set [World; Hello] verbatim, and classifying the injected
    text lists them in text order, [Hello; World]: the alert set does not
    come back. *)
Lemma phrases_come_back_in_text_order :
  let a := {| advancements := ["World"; "Hello"];
              small_alerts := []; critical_alerts := [] |} in
  let marked := informationHtml {| information := "Hello World"; alerts := a |} in
  includes "World" "Hello World" = true
  /\ includes "Hello" "Hello World" = true
  /\ marked = green_open ++ "Hello" ++ span_close ++ " "
              ++ green_open ++ "World" ++ span_close
  /\ advancements (extractAlertsFromHtml marked) = ["Hello"; "World"]
  /\ extractAlertsFromHtml marked <> a.
Proof.
  cbv zeta. repeat split; try (vm_compute; reflexivity).
  vm_compute. discriminate.
Qed.

(** C2 (the exclusions).  The replacement text of an injection is a
    template: in the phrase [$$] the two signs stand for one, and the
    phrase comes back as [$].  Not every phrase with a [$] is changed:
    [$&] stands for the text found, and comes back. *)
Lemma dollar_phrase_comes_back_changed :
  let a := {| advancements := ["$$"]; small_alerts := [];
              critical_alerts := [] |} in
  let b := {| advancements := ["$&"]; small_alerts := [];
              critical_alerts := [] |} in
  includes "$$" "cost $$ up" = true
  /\ informationHtml {| information := "cost $$ up"; alerts := a |}
     = "cost " ++ green_open ++ "$" ++ span_close ++ " up"
  /\ extractAlertsFromHtml
       (informationHtml {| information := "cost $$ up"; alerts := a |})
     = {| advancements := ["$"]; small_alerts := []; critical_alerts := [] |}
  /\ extractAlertsFromHtml
       (informationHtml {| information := "cost $& up"; alerts := b |})
     = b.
Proof. cbv zeta. repeat split; vm_compute; reflexivity. Qed.

(** A phrase that holds a line terminator is wrapped, and the span is
    matched for no tier: the alert set comes back empty.  This holds for
    the line feed and for the line separator U+2028 alike. *)
Lemma phrase_with_line_terminator_is_lost :
  let two_lines := "Great work," ++ String "010"%char "on schedule" in
  let separated := "Great work," ++ MoreSamples.line_separator ++ "on schedule" in
  extractAlertsFromHtml
    (informationHtml
       {| information := two_lines; alerts := single_alert Advancement two_lines |})
  = no_alerts
  /\ extractAlertsFromHtml
       (informationHtml
          {| information := separated;
             alerts := single_alert Advancement separated |})
     = no_alerts.
Proof. cbv zeta. split; vm_compute; reflexivity. Qed.

(** A phrase that also occurs in the markup inserted before it: the
    minor alert [y] is found inside the word [style] of the green span,
    whose tag is broken by the insertion, and the advancement is lost. *)
Lemma later_phrase_hits_markup :
  let a := {| advancements := ["x"]; small_alerts := ["y"];
              critical_alerts := [] |} in
  extractAlertsFromHtml
    (informationHtml {| information := "x and y"; alerts := a |})
  = {| advancements := []; small_alerts := ["y"]; critical_alerts := [] |}.
Proof. vm_compute. reflexivity. Qed.

End ViewerFacts.

(* ================================================================== *)
(** ** The slide parser: tables and titles *)
(* ================================================================== *)

Module ParserFacts.

Import Js Regex Parser.

(** *** Rows and padding *)

Lemma place_cells_cursor (cellsMatch : list string) :
  forall cur,
    snd (place_cells cellsMatch cur)
    = fold_left add_span (fst (place_cells cellsMatch cur)) cur.
Proof.
  induction cellsMatch as [|cm rest IH]; intros cur; [reflexivity|].
  cbn [place_cells].
  specialize (IH (add cur (colSpan (parse_cell cm cur)))).
  destruct (place_cells rest (add cur (colSpan (parse_cell cm cur))))
    as [cs final].
  exact IH.
Qed.

Lemma build_row_split (total : number) (rowMatch : string) :
  build_row total rowMatch
  = (declared_cells rowMatch
     ++ fill_missing (row_width (declared_cells rowMatch)) total)%list.
Proof.
  unfold build_row, declared_cells, row_width.
  pose proof (place_cells_cursor (match_all tc_re rowMatch) (Num 0)) as H.
  destruct (place_cells (match_all tc_re rowMatch) (Num 0)) as [cs final].
  cbn [fst snd] in *. now rewrite H.
Qed.

Lemma fill_from_padding (k : nat) :
  forall c, Forall is_padding (fill_from k c).
Proof.
  induction k as [|k IH]; intros c; constructor; auto.
  repeat split.
Qed.

Lemma fill_from_length (k : nat) :
  forall c, List.length (fill_from k c) = k.
Proof. induction k as [|k IH]; intros c; simpl; [reflexivity | now rewrite IH]. Qed.

Lemma fill_from_width (k : nat) :
  forall c w,
    fold_left add_span (fill_from k c) (Num w) = Num (w + Z.of_nat k).
Proof.
  induction k as [|k IH]; intros c w.
  - simpl. f_equal. lia.
  - cbn [fill_from fold_left]. unfold add_span at 2. cbn [colSpan empty_cell add].
    rewrite IH. f_equal. lia.
Qed.

Lemma row_width_app (a b : list cell) :
  row_width (a ++ b) = fold_left add_span b (row_width a).
Proof. unfold row_width. now rewrite fold_left_app. Qed.

(** When the loop ends, the column cursor is not below the column count:
    this holds for every row and every count, [NaN] included. *)
Lemma padding_ends_the_loop (total : number) (rowMatch : string) :
  lt (row_width (build_row total rowMatch)) total = false.
Proof.
  rewrite build_row_split, row_width_app.
  destruct (row_width (declared_cells rowMatch)) as [|w]; [reflexivity|].
  destruct total as [|n]; [reflexivity|].
  cbn [fill_missing]. rewrite fill_from_width. cbn [lt].
  apply Z.ltb_ge. lia.
Qed.

(** Each declared cell is the cell object decoded from its cell element,
    placed at the column cursor. *)
Lemma place_cells_decoded (cellsMatch : list string) :
  forall cur,
    Forall2 (fun cellMatch c => c = parse_cell cellMatch (colIndex c))
      cellsMatch (fst (place_cells cellsMatch cur)).
Proof.
  induction cellsMatch as [|cm rest IH]; intros cur; [constructor|].
  cbn [place_cells].
  specialize (IH (add cur (colSpan (parse_cell cm cur)))).
  destruct (place_cells rest (add cur (colSpan (parse_cell cm cur))))
    as [cs final].
  cbn [fst] in *. constructor; [reflexivity | exact IH].
Qed.

Lemma fill_missing_padding (cur total : number) :
  Forall is_padding (fill_missing cur total).
Proof.
  destruct cur as [|c]; [constructor|].
  destruct total as [|t]; [constructor|].
  apply fill_from_padding.
Qed.

(** C4 (amended).  Every row of every table the extractor produces comes
    from a row element of the table element of that table, and is the
    cells decoded from the cell elements of that row element, in order,
    followed by padding cells: empty, style-less, of row span 1 and
    column span 1.  When the declared cells cover [w] columns and the
    column count of the table is [n], there are [n - w] padding cells
    when [w <= n] and none otherwise, so the row covers [max w n] columns:
    exactly the column count when its declared cells do not exceed it.
    When either number is [NaN] there is no padding cell. *)
Theorem rows_are_padded_to_column_count (slideContent : string) (t : table)
    (row : list cell) :
  In t (extract_tables slideContent) ->
  In row (rows t) ->
  exists tableMatch rowMatch declared pad,
    In tableMatch (match_all tbl_re slideContent)
    /\ t = extract_table tableMatch
    /\ In rowMatch (match_all tr_re tableMatch)
    /\ row = (declared ++ pad)%list
    /\ Forall2 (fun cellMatch c => c = parse_cell cellMatch (colIndex c))
         (match_all tc_re rowMatch) declared
    /\ Forall is_padding pad
    /\ (forall w n,
          row_width declared = Num w -> colsCount t = Num n ->
          List.length pad = Z.to_nat (n - w)
          /\ row_width row = Num (Z.max w n))
    /\ (row_width declared = NaN \/ colsCount t = NaN -> pad = []).
Proof.
  intros Ht Hrow.
  unfold extract_tables in Ht. apply in_map_iff in Ht.
  destruct Ht as (tableMatch & <- & Htm).
  cbn [rows extract_table] in Hrow. apply in_map_iff in Hrow.
  destruct Hrow as (rowMatch & <- & Hrm).
  exists tableMatch, rowMatch, (declared_cells rowMatch),
    (fill_missing (row_width (declared_cells rowMatch))
       (totalColsCount tableMatch)).
  split; [exact Htm|]. split; [reflexivity|]. split; [exact Hrm|].
  split; [apply build_row_split|].
  split; [apply place_cells_decoded|].
  split; [apply fill_missing_padding|].
  cbn [colsCount extract_table]. split.
  - intros w n Hw Hn. rewrite build_row_split, row_width_app, Hw, Hn.
    cbn [fill_missing].
    split; [apply fill_from_length|].
    rewrite fill_from_width. f_equal. lia.
  - intros [Hw|Hn].
    + now rewrite Hw.
    + rewrite Hn. now destruct (row_width (declared_cells rowMatch)).
Qed.

(** The header padding scenario: the row of the three-column table that
    declares two cells. *)
Lemma sparse_row_is_padded :
  let t := extract_table Samples.sparse_table in
  let row :=
    [ parse_cell (Samples.text_cell "Name") (Num 0);
      parse_cell (Samples.text_cell "Status") (Num 1);
      empty_cell (Num 2) ] in
  exists tableMatch rowMatch declared pad,
    In tableMatch
      (match_all tbl_re (Samples.slide_xml Samples.sparse_table))
    /\ t = extract_table tableMatch
    /\ In rowMatch (match_all tr_re tableMatch)
    /\ row = (declared ++ pad)%list
    /\ Forall2 (fun cellMatch c => c = parse_cell cellMatch (colIndex c))
         (match_all tc_re rowMatch) declared
    /\ Forall is_padding pad
    /\ (forall w n,
          row_width declared = Num w -> colsCount t = Num n ->
          List.length pad = Z.to_nat (n - w)
          /\ row_width row = Num (Z.max w n))
    /\ (row_width declared = NaN \/ colsCount t = NaN -> pad = []).
Proof.
  apply (rows_are_padded_to_column_count
           (Samples.slide_xml Samples.sparse_table)
           (extract_table Samples.sparse_table)).
  - vm_compute. left. reflexivity.
  - vm_compute. left. reflexivity.
Defined.

(** The scenario, evaluated: three cells, the third one synthesized. *)
Lemma sparse_row_gets_third_cell :
  exists c0 c1,
    map rows (extract_tables (Samples.slide_xml Samples.sparse_table))
    = [[[c0; c1; empty_cell (Num 2)]]]
    /\ text c0 = "Name" /\ text c1 = "Status".
Proof. eexists _, _. split; [vm_compute; reflexivity|]. split; reflexivity. Qed.

(** C4 (counterexample).  A row that declares three cells in a table of
    two grid columns keeps its three cells: it covers three columns, not
    the column count. *)
Lemma wide_row_exceeds_column_count :
  exists t row,
    In t (extract_tables (Samples.slide_xml Samples.wide_row_table))
    /\ In row (rows t)
    /\ colsCount t = Num 2
    /\ row_width row = Num 3
    /\ row_width row <> colsCount t.
Proof.
  eexists _, _.
  split; [vm_compute; left; reflexivity|].
  split; [vm_compute; left; reflexivity|].
  split; [reflexivity|]. split; [reflexivity|]. discriminate.
Qed.

(** *** Table elements without rows *)





(** *** Column count *)

(** C9.  A table without grid declaration whose only row declares one
    cell (with its cell-properties element) gets column count 2, where
    the count of the specification is 1: the first pass counts the
    occurrences of [<a:tc], and the properties element [<a:tcPr/>] is one
    of them, while the cell loop finds the single cell and then pads a
    second column.  The same happens when the grid column is written with
    a child element, which the grid pattern does not match. *)
Theorem cell_properties_counted_as_cells :
  let row := Samples.table_row (Samples.text_cell "Total") in
  gridCols Samples.gridless_table = []
  /\ rowsMatch Samples.gridless_table = [row]
  /\ List.length (declared_cells row) = 1%nat
  /\ row_width (declared_cells row) = Num 1
  /\ match_all tc_open_re row = ["<a:tc"; "<a:tc"]
  /\ colsCount (extract_table Samples.gridless_table) = Num 2
  /\ map colsCount
       (tables (parse_slide (Samples.slide_xml Samples.gridless_table) "1"))
     = [Num 2]
  /\ specified_columnCount Samples.gridless_table = Num 1
  /\ map (@List.length cell) (rows (extract_table Samples.gridless_table))
     = [2%nat]
  /\ gridCols Samples.extended_grid_table = []
  /\ colsCount (extract_table Samples.extended_grid_table) = Num 2.
Proof. cbv zeta. repeat split; vm_compute; reflexivity. Qed.

(** When the grid pattern finds columns, their number is the column
    count. *)
Lemma grid_columns_give_column_count (tableMatch : string) :
  gridCols tableMatch <> [] ->
  colsCount (extract_table tableMatch)
  = of_nat (List.length (gridCols tableMatch)).
Proof.
  intros H. cbn [colsCount extract_table]. unfold totalColsCount, or_else.
  destruct (gridCols tableMatch) as [|g gs]; [congruence|].
  reflexivity.
Qed.

(** *** Titles *)



(** The title precedence scenario. *)
Lemma q3_review_title :
  name_candidate Samples.q3_slide = None
  /\ typed_candidate Samples.q3_slide = None
  /\ title (parse_slide Samples.q3_slide "1") = "Q3 Review".
Proof. repeat split; vm_compute; reflexivity. Qed.

(** C5.  A slide without name attribute and without placeholder, whose
    first text run is empty and whose second run reads Agenda, gets the
    literal title: the source looks at the first run only, and falls back
    when that run is empty or blank, although a later run is not. *)
Theorem empty_first_run_hides_later_text :
  name_candidate Samples.empty_first_run_slide = None
  /\ typed_candidate Samples.empty_first_run_slide = None
  /\ index_candidate Samples.empty_first_run_slide = None
  /\ allTexts Samples.empty_first_run_slide = [EmptyString; "Agenda"]
  /\ specified_first_text Samples.empty_first_run_slide = Some "Agenda"
  /\ title (parse_slide Samples.empty_first_run_slide "1") = "Slide 1"
  /\ allTexts Samples.blank_first_run_slide = [" "; "Agenda"]
  /\ title (parse_slide Samples.blank_first_run_slide "1") = "Slide 1".
Proof. repeat split; vm_compute; reflexivity. Qed.

End ParserFacts.

(* ================================================================== *)
(** ** The viewer: what an edit stores *)
(* ================================================================== *)

Module EditFacts.

Import Js Regex Viewer Formatting.

Lemma list_update_length {A : Type} (f : A -> A) :
  forall (xs : list A) i, List.length (list_update xs i f) = List.length xs.
Proof. induction xs as [|x xs IH]; intros [|i]; simpl; auto. Qed.

Lemma list_update_other {A : Type} (f : A -> A) :
  forall (xs : list A) i j,
    j <> i -> nth_error (list_update xs i f) j = nth_error xs j.
Proof.
  induction xs as [|x xs IH]; intros [|i] [|j] Hne; simpl; auto;
    try contradiction.
Qed.

Lemma list_update_same {A : Type} :
  forall (xs : list A) i x,
    nth_error xs i = Some x -> list_update xs i (fun _ => x) = xs.
Proof.
  induction xs as [|y xs IH]; intros [|i] x H; simpl in *; try discriminate.
  - congruence.
  - now rewrite IH.
Qed.

Lemma same_project_data cur : with_project_data cur (project_data cur) = cur.
Proof. now destruct cur. Qed.

Lemma framed_refl st : framed st (presentations st).
Proof. repeat split. Qed.

Lemma framed_store st cur pd' :
  nth_error (presentations st) (currentPresIndex st) = Some cur ->
  framed st
    (list_update (presentations st) (currentPresIndex st)
       (fun _ => with_project_data cur pd')).
Proof.
  intros Hcur. repeat split.
  - apply list_update_length.
  - intros i Hi. now apply list_update_other.
  - now rewrite ViewerFacts.list_update_nth, Hcur.
Qed.

(** X1.  Whatever the event, the array of presentations that
    [handleStructuredContentEdit] stores has the length of the array
    before, the same presentation at every index but the current one, and
    the same file name at the current one: an edit changes at most the
    project data of the current presentation. *)
Theorem edit_changes_current_presentation_only (st : state) (ev : event)
    (ps : list presentation) :
  handleStructuredContentEdit st ev = SetPresentations ps ->
  framed st ps.
Proof.
  unfold handleStructuredContentEdit. intros H.
  destruct (nth_error (presentations st) (currentPresIndex st)) as [cur|] eqn:Hcur.
  2: { repeat match type of H with
              | context [match ?x with _ => _ end] => destruct x
              end; discriminate. }
  repeat match type of H with
         | context [match ?x with _ => _ end] => destruct x
         end;
    try discriminate;
    injection H as <-;
    first [apply framed_refl | now apply framed_store].
Qed.

Lemma edit_of_second_presentation_keeps_first :
  framed
    {| presentations :=
         [ {| filename := Some "a.pptx"; project_data := Samples.two_projects |};
           {| filename := Some "b.pptx"; project_data := Samples.alpha_data |} ];
       currentPresIndex := 1 |}
    [ {| filename := Some "a.pptx"; project_data := Samples.two_projects |};
      {| filename := Some "b.pptx";
         project_data := with_upcoming_events Samples.alpha_data "soon" |} ].
Proof.
  apply (edit_changes_current_presentation_only _
           (Samples.cell_edit "1" "1" "2" "soon")).
  reflexivity.
Defined.

(** *** Edits of a cell of the generated table *)

Lemma at_index_of_nat {A : Type} (xs : list A) (n : nat) :
  at_index xs (Num (Z.of_nat n)) = nth_error xs n.
Proof.
  unfold at_index.
  destruct (Z.ltb_spec (Z.of_nat n) 0); [lia|].
  now rewrite Nat2Z.id.
Qed.

Lemma resolve_generated pd r c row cl :
  activities pd <> [] ->
  nth_error (rows (project_table pd)) r = Some row ->
  nth_error row c = Some cl ->
  exists sl,
    at_index (convertProjectDataToSlides pd) (Num 0) = Some sl
    /\ resolve_cell sl (Num 1) (Num (Z.of_nat r)) (Num (Z.of_nat c))
       = Some (rows (project_table pd), r, c).
Proof.
  intros Hne Hrow Hcl. eexists. split; [reflexivity|].
  unfold resolve_cell. cbn [structuredContent].
  destruct (activities pd) as [|e rest] eqn:Ea; [congruence|].
  cbn [Obj.keys map List.length Nat.ltb Nat.leb].
  change (at_index (?a :: ?b :: ?l) (Num 1)) with (Some b).
  cbv beta iota.
  rewrite at_index_of_nat, Hrow, at_index_of_nat, Hcl.
  now rewrite !Nat2Z.id.
Qed.

Lemma project_row_at pd j name info :
  nth_error (activities pd) j = Some (name, info) ->
  nth_error (rows (project_table pd)) (S j)
  = Some (project_row pd j (name, info)).
Proof.
  intros H. cbn [project_table rows nth_error].
  now rewrite ViewerFacts.project_rows_nth, H.
Qed.

Lemma get_update_same {V : Type} (k : string) (v : V) (o : Obj.t V) :
  Obj.get k o <> None -> Obj.get k (Obj.update k v o) = Some v.
Proof.
  induction o as [|[k0 v0] o IH]; cbn [Obj.get Obj.update]; [congruence|].
  destruct (String.eqb k k0) eqn:E; cbn [Obj.get]; rewrite E; auto.
Qed.

Lemma get_insert_index_same {V : Type} (k : string) (i : Z) (v : V)
    (o : Obj.t V) :
  Obj.get k o = None -> Obj.get k (Obj.insert_index i k v o) = Some v.
Proof.
  induction o as [|[k0 v0] o IH]; cbn [Obj.get Obj.insert_index]; intros H.
  - now rewrite String.eqb_refl.
  - destruct (String.eqb k k0) eqn:E; [discriminate|].
    destruct (Obj.array_index k0) as [j|]; [destruct (j <? i)%Z|];
      cbn [Obj.get]; rewrite ?E, ?String.eqb_refl; auto.
Qed.

Lemma get_app_same {V : Type} (k : string) (v : V) (o : Obj.t V) :
  Obj.get k o = None -> Obj.get k (o ++ [(k, v)])%list = Some v.
Proof.
  induction o as [|[k0 v0] o IH]; cbn [Obj.get app]; intros H.
  - now rewrite String.eqb_refl.
  - destruct (String.eqb k k0); [discriminate | auto].
Qed.

Lemma get_set_same {V : Type} (k : string) (v : V) (o : Obj.t V) :
  k <> "__proto__" -> Obj.get k (Obj.set k v o) = Some v.
Proof.
  intros Hk. unfold Obj.set. rewrite (ViewerFacts.eqb_neq _ _ Hk).
  destruct (Obj.get k o) as [v0|] eqn:Eg.
  - apply get_update_same. congruence.
  - destruct (Obj.array_index k).
    + now apply get_insert_index_same.
    + now apply get_app_same.
Qed.

Lemma keys_update {V : Type} (k : string) (v : V) (o : Obj.t V) :
  Obj.keys (Obj.update k v o) = Obj.keys o.
Proof.
  induction o as [|[k0 v0] o IH]; cbn [Obj.update]; [reflexivity|].
  destruct (String.eqb_spec k k0) as [->|]; cbn [Obj.keys map]; [reflexivity|].
  f_equal. exact IH.
Qed.

Lemma not_inherited_not_proto k : Obj.inherited k = false -> k <> "__proto__".
Proof. intros H ->. discriminate. Qed.

Lemma get_of_entry {V : Type} (o : Obj.t V) j k v :
  nth_error o j = Some (k, v) -> Obj.get k o <> None.
Proof.
  revert j. induction o as [|[k0 v0] o IH]; intros [|j] H; try discriminate;
    cbn [Obj.get nth_error] in *.
  - injection H as -> ->. now rewrite String.eqb_refl.
  - destruct (String.eqb k k0); [discriminate | eauto].
Qed.

(** With no key twice, the entry at position [j] is the one its key
    reads and writes. *)
Lemma update_at_position {V : Type} (o : Obj.t V) j k v v' :
  NoDup (Obj.keys o) ->
  nth_error o j = Some (k, v) ->
  nth_error (Obj.update k v' o) j = Some (k, v').
Proof.
  revert j. induction o as [|[k0 v0] o IH]; intros [|j] Hnd H;
    try discriminate; cbn [Obj.update nth_error] in *.
  - injection H as -> ->. now rewrite String.eqb_refl.
  - inversion Hnd as [|? ? Hnotin Hnd']; subst.
    destruct (String.eqb_spec k k0) as [->|Hne].
    + exfalso. apply Hnotin. apply nth_error_In in H.
      change k0 with (fst (k0, v)). now apply in_map.
    + cbn [nth_error]. now apply IH.
Qed.

Section TableCellEdit.

Variables (st : state) (cur : presentation) (ev : event) (et : string).

Hypothesis Hcur :
  nth_error (presentations st) (currentPresIndex st) = Some cur.
Hypothesis Hslide : parse_attr (data_slide_index ev) = Num 0.
Hypothesis Htype : data_element_type ev = Some et.
Hypothesis Htable : includes "table" et = true.

Lemma edit_of_cell r c row cl :
  parse_attr (data_element_index ev) = Num 1 ->
  parse_attr (data_row_index ev) = Num (Z.of_nat r) ->
  parse_attr (data_cell_index ev) = Num (Z.of_nat c) ->
  activities (project_data cur) <> [] ->
  nth_error (rows (project_table (project_data cur))) r = Some row ->
  nth_error row c = Some cl ->
  handleStructuredContentEdit st ev
  = stored st cur (edit_project_data (project_data cur)
              (rows (project_table (project_data cur))) r c (innerText ev)).
Proof.
  intros He Hr Hc Hne Hrow Hcl.
  destruct (ViewerFacts.table_type_is_not_title et Htable) as (Hnonempty & Htitle & Htext).
  destruct (resolve_generated _ _ _ _ _ Hne Hrow Hcl) as (sl & Hsl & Hres).
  unfold handleStructuredContentEdit.
  rewrite Hslide, Htype, Hcur, He, Hr, Hc.
  destruct et as [|a et']; [congruence|].
  rewrite Htitle, Htext, Htable, Hsl, Hres. reflexivity.
Qed.

Lemma cell_text_beside_write rs r c c' t :
  c <> c' -> cell_text (set_cell_text rs r c t) r c' = cell_text rs r c'.
Proof.
  intros Hne. unfold cell_text, set_cell_text.
  rewrite ViewerFacts.list_update_nth.
  destruct (nth_error rs r) as [row|]; [|reflexivity]. cbn [option_map].
  rewrite list_update_other by congruence. reflexivity.
Qed.

(** X2.  An edit of the name cell of a project row stores project data
    in which every name reads what it read before, with the upcoming
    events and the title as before: whatever is typed, no project is
    renamed, added or lost (names that the object prototype defines
    apart). *)
Theorem name_cell_edit_changes_no_lookup (j : nat) (name : string)
    (info : projectInfo) :
  parse_attr (data_element_index ev) = Num 1 ->
  parse_attr (data_row_index ev) = Num (Z.of_nat (S j)) ->
  parse_attr (data_cell_index ev) = Num 0 ->
  nth_error (activities (project_data cur)) j = Some (name, info) ->
  Obj.inherited (innerText ev) = false ->
  exists pd',
    handleStructuredContentEdit st ev = stored st cur pd'
    /\ (forall k,
          Obj.get k (activities pd') = Obj.get k (activities (project_data cur)))
    /\ upcoming_events pd' = upcoming_events (project_data cur)
    /\ meta pd' = meta (project_data cur).
Proof.
  intros He Hr Hc Hproj Hinh.
  pose proof (project_row_at _ _ _ _ Hproj) as Hrow.
  assert (Hne : activities (project_data cur) <> [])
    by (intros E; rewrite E in Hproj; now destruct j).
  eexists. split.
  - eapply (edit_of_cell (S j) 0); eauto. reflexivity.
  - unfold edit_project_data. cbn [Nat.eqb].
    rewrite (ViewerFacts.cell_text_after_write _ (S j) 0 _ _ _ Hrow eq_refl).
    destruct (Obj.get (innerText ev) (activities (project_data cur)))
      as [found|] eqn:Eg; [|auto].
    cbn [activities upcoming_events meta with_activities].
    repeat split. intros k.
    destruct (String.eqb_spec k (innerText ev)) as [->|Hk].
    + rewrite get_set_same by now apply not_inherited_not_proto.
      now rewrite Eg.
    + rewrite ViewerFacts.get_set_other by assumption.
      now apply ViewerFacts.get_remove_other.
Qed.

(** X3.  An edit of the information cell of the row of project [name]
    stores the typed text as the information of that project and empties
    its three alert lists; every other project, the order of the projects,
    the upcoming events and the title stay as they were, and, when no name
    occurs twice, the table generated next shows the typed text in that
    cell. *)
Theorem information_cell_edit_clears_alerts (j : nat) (name : string)
    (info : projectInfo) :
  parse_attr (data_element_index ev) = Num 1 ->
  parse_attr (data_row_index ev) = Num (Z.of_nat (S j)) ->
  parse_attr (data_cell_index ev) = Num 1 ->
  nth_error (activities (project_data cur)) j = Some (name, info) ->
  name <> "__proto__" ->
  exists pd',
    handleStructuredContentEdit st ev = stored st cur pd'
    /\ Obj.get name (activities pd')
       = Some {| information := innerText ev; alerts := no_alerts |}
    /\ (forall k, k <> name ->
          Obj.get k (activities pd') = Obj.get k (activities (project_data cur)))
    /\ Obj.keys (activities pd') = Obj.keys (activities (project_data cur))
    /\ upcoming_events pd' = upcoming_events (project_data cur)
    /\ meta pd' = meta (project_data cur)
    /\ (NoDup (Obj.keys (activities (project_data cur))) ->
          cell_text (rows (project_table pd')) (S j) 1 = innerText ev).
Proof.
  intros He Hr Hc Hproj Hname.
  pose proof (project_row_at _ _ _ _ Hproj) as Hrow.
  pose proof (get_of_entry _ _ _ _ Hproj) as Hget.
  assert (Hne : activities (project_data cur) <> [])
    by (intros E; rewrite E in Hproj; now destruct j).
  eexists. split.
  - eapply (edit_of_cell (S j) 1); eauto. reflexivity.
  - assert (Hname0 : cell_text (rows (project_table (project_data cur))) (S j) 0
                     = name).
    { unfold cell_text. now rewrite Hrow. }
    destruct (Obj.get name (activities (project_data cur)))
      as [found|] eqn:Eg; [|congruence].
    assert (Hedit :
      edit_project_data (project_data cur)
        (rows (project_table (project_data cur))) (S j) 1 (innerText ev)
      = with_activities (project_data cur)
          (Obj.update name
             {| information := innerText ev; alerts := no_alerts |}
             (activities (project_data cur)))).
    { unfold edit_project_data. cbn [Nat.eqb].
      rewrite cell_text_beside_write by discriminate.
      rewrite Hname0, Eg. unfold Obj.set.
      now rewrite (ViewerFacts.eqb_neq _ _ Hname), Eg. }
    rewrite Hedit. cbn [activities upcoming_events meta with_activities].
    split; [apply get_update_same; congruence|].
    split; [intros k Hk; now apply ViewerFacts.get_update_other|].
    split; [apply keys_update|].
    do 2 (split; [reflexivity|]).
    intros Hnd. unfold cell_text. cbn [project_table rows nth_error].
    rewrite ViewerFacts.project_rows_nth.
    cbn [activities with_activities].
    rewrite (update_at_position _ _ _ _ _ Hnd Hproj).
    reflexivity.
Qed.

(** X4.  An edit of the upcoming-events cell (row 1, cell 2) stores the
    typed text as the upcoming events and nothing else, and the table
    generated next shows that text in the same cell. *)
Theorem events_cell_edit_stores_text :
  parse_attr (data_element_index ev) = Num 1 ->
  parse_attr (data_row_index ev) = Num 1 ->
  parse_attr (data_cell_index ev) = Num 2 ->
  activities (project_data cur) <> [] ->
  handleStructuredContentEdit st ev
  = stored st cur (with_upcoming_events (project_data cur) (innerText ev))
  /\ cell_text
       (rows (project_table (with_upcoming_events (project_data cur)
                               (innerText ev)))) 1 2
     = innerText ev.
Proof.
  intros He Hr Hc Hne.
  assert (Hrow : exists e,
             nth_error (rows (project_table (project_data cur))) 1
             = Some (project_row (project_data cur) 0 e)).
  { cbn [project_table rows nth_error].
    destruct (activities (project_data cur)) as [|e rest]; [congruence|].
    now exists e. }
  destruct Hrow as [[name info] Hrow].
  split.
  - now rewrite (edit_of_cell 1 2 _ _ He Hr Hc Hne Hrow eq_refl).
  - unfold cell_text.
    cbn [project_table rows nth_error with_upcoming_events activities].
    destruct (activities (project_data cur)) as [|[n i] rest]; [congruence|].
    reflexivity.
Qed.

(** X5.  An edit addressed to row 0, the header row, stores the
    presentations as they are: no header cell changes the project data,
    whether or not the addressed cell exists. *)
Theorem header_row_edit_keeps_project_data :
  parse_attr (data_row_index ev) = Num 0 ->
  handleStructuredContentEdit st ev = SetPresentations (presentations st).
Proof.
  intros Hr.
  destruct (ViewerFacts.table_type_is_not_title et Htable) as (Hnonempty & Htitle & Htext).
  unfold handleStructuredContentEdit.
  rewrite Hslide, Htype, Hcur, Hr.
  destruct et as [|a et']; [congruence|].
  rewrite Htitle, Htext, Htable.
  destruct (parse_attr (data_element_index ev)) as [|e]; [reflexivity|].
  cbn [at_index convertProjectDataToSlides Z.ltb Z.compare Z.to_nat nth_error].
  match goal with
  | |- context [resolve_cell ?sl ?a ?b ?c] =>
      destruct (resolve_cell sl a b c) as [[[rs rn] cn]|] eqn:Eres
  end; [|reflexivity].
  assert (rn = 0%nat) as ->.
  { unfold resolve_cell in Eres.
    repeat match type of Eres with
           | context [match ?x with _ => _ end] => destruct x
           end; try discriminate.
    now injection Eres as _ <- _. }
  unfold edit_project_data. cbn [Nat.eqb].
  rewrite same_project_data.
  f_equal. now apply list_update_same.
Qed.

End TableCellEdit.

Lemma typing_alpha_over_gamma_changes_no_lookup :
  let st := Samples.one_presentation Samples.two_projects in
  let cur := {| filename := Some "report.pptx";
                project_data := Samples.two_projects |} in
  exists pd',
    handleStructuredContentEdit st (Samples.cell_edit "1" "2" "0" "Alpha")
    = stored st cur pd'
    /\ (forall k,
          Obj.get k (activities pd')
          = Obj.get k (activities Samples.two_projects))
    /\ upcoming_events pd' = upcoming_events Samples.two_projects
    /\ meta pd' = meta Samples.two_projects.
Proof.
  exact (name_cell_edit_changes_no_lookup
           (Samples.one_presentation Samples.two_projects)
           {| filename := Some "report.pptx";
              project_data := Samples.two_projects |}
           (Samples.cell_edit "1" "2" "0" "Alpha") "table"
           eq_refl eq_refl eq_refl eq_refl
           1 "Gamma" {| information := "Late"; alerts := no_alerts |}
           eq_refl eq_refl eq_refl eq_refl eq_refl).
Defined.

Lemma gamma_information_edit_clears_alerts :
  let st := Samples.one_presentation Samples.two_projects in
  let cur := {| filename := Some "report.pptx";
                project_data := Samples.two_projects |} in
  exists pd',
    handleStructuredContentEdit st (Samples.cell_edit "1" "2" "1" "On time")
    = stored st cur pd'
    /\ Obj.get "Gamma" (activities pd')
       = Some {| information := "On time"; alerts := no_alerts |}
    /\ (forall k, k <> "Gamma" ->
          Obj.get k (activities pd')
          = Obj.get k (activities Samples.two_projects))
    /\ Obj.keys (activities pd') = ["Alpha"; "Gamma"]
    /\ upcoming_events pd' = Some "Review on Friday"
    /\ meta pd' = {| title := "Weekly report" |}
    /\ (NoDup ["Alpha"; "Gamma"] ->
          cell_text (rows (project_table pd')) 2 1 = "On time").
Proof.
  refine (information_cell_edit_clears_alerts
            (Samples.one_presentation Samples.two_projects)
            {| filename := Some "report.pptx";
               project_data := Samples.two_projects |}
            (Samples.cell_edit "1" "2" "1" "On time") "table"
            eq_refl eq_refl eq_refl eq_refl
            1 "Gamma" {| information := "Late"; alerts := no_alerts |}
            eq_refl eq_refl eq_refl eq_refl _).
  discriminate.
Defined.

Lemma events_edit_of_alpha_data :
  let st := Samples.one_presentation Samples.alpha_data in
  let cur := {| filename := Some "report.pptx";
                project_data := Samples.alpha_data |} in
  handleStructuredContentEdit st (Samples.cell_edit "1" "1" "2" "Demo on Monday")
  = stored st cur (with_upcoming_events Samples.alpha_data "Demo on Monday")
  /\ cell_text
       (rows (project_table
                (with_upcoming_events Samples.alpha_data "Demo on Monday"))) 1 2
     = "Demo on Monday".
Proof.
  refine (events_cell_edit_stores_text
            (Samples.one_presentation Samples.alpha_data)
            {| filename := Some "report.pptx";
               project_data := Samples.alpha_data |}
            (Samples.cell_edit "1" "1" "2" "Demo on Monday") "table"
            eq_refl eq_refl eq_refl eq_refl eq_refl eq_refl eq_refl _).
  discriminate.
Defined.

Lemma header_edit_of_two_projects :
  handleStructuredContentEdit (Samples.one_presentation Samples.two_projects)
    (Samples.cell_edit "1" "0" "2" "Next steps")
  = SetPresentations
      (presentations (Samples.one_presentation Samples.two_projects)).
Proof.
  exact (header_row_edit_keeps_project_data
           (Samples.one_presentation Samples.two_projects)
           {| filename := Some "report.pptx";
              project_data := Samples.two_projects |}
           (Samples.cell_edit "1" "0" "2" "Next steps") "table"
           eq_refl eq_refl eq_refl eq_refl eq_refl).
Defined.

(** *** When an edit throws *)

Lemma slide_lookup pd si :
  at_index (convertProjectDataToSlides pd) (Num si) = None <-> si <> 0%Z.
Proof.
  unfold at_index, convertProjectDataToSlides.
  destruct (Z.ltb_spec si 0).
  - split; [lia | reflexivity].
  - destruct (Z.to_nat si) as [|k] eqn:Ek.
    + cbn [nth_error]. split; [discriminate | lia].
    + split; [lia | now destruct k].
Qed.

(** X6.  [handleStructuredContentEdit] throws exactly when there is a
    current presentation, the slide index is a number other than 0 and
    the element type is [title], or is [text] or contains [table] with an
    item index that is a number.  No edit of slide 0 throws. *)
Theorem edit_throws_exactly_off_slide_0 (st : state) (ev : event) :
  handleStructuredContentEdit st ev = Threw TypeError
  <-> exists si et,
        nth_error (presentations st) (currentPresIndex st) <> None
        /\ parse_attr (data_slide_index ev) = Num si /\ si <> 0%Z
        /\ data_element_type ev = Some et
        /\ (et = "title"
            \/ (et = "text" \/ includes "table" et = true)
               /\ parse_attr (data_element_index ev) <> NaN).
Proof.
  unfold handleStructuredContentEdit. split.
  - intros H.
    destruct (parse_attr (data_slide_index ev)) as [|si] eqn:Es; [discriminate|].
    destruct (data_element_type ev) as [[|a et']|] eqn:Et; try discriminate.
    destruct (nth_error (presentations st) (currentPresIndex st)) as [cur|];
      [|discriminate].
    exists si, (String a et').
    destruct (at_index (convertProjectDataToSlides (project_data cur)) (Num si))
      as [sl|] eqn:Esl.
    + exfalso.
      repeat match type of H with
             | context [match ?x with _ => _ end] => destruct x
             end; discriminate.
    + apply slide_lookup in Esl.
      repeat split; try congruence.
      destruct (String.eqb_spec (String a et') "title") as [->|_]; [now left|].
      right.
      destruct (String.eqb_spec (String a et') "text") as [->|_].
      * split; [now left|]. intros E. rewrite E in H. discriminate.
      * destruct (includes "table" (String a et')); [|discriminate].
        split; [now right|]. intros E. rewrite E in H. discriminate.
  - intros (si & et & Hcur & Hs & Hsi & Ht & Hcase).
    rewrite Hs, Ht.
    destruct (nth_error (presentations st) (currentPresIndex st)) as [cur|];
      [|congruence].
    apply (slide_lookup (project_data cur)) in Hsi. rewrite Hsi.
    destruct Hcase as [->|[Hkind He]]; [reflexivity|].
    destruct (parse_attr (data_element_index ev)) as [|e]; [congruence|].
    destruct Hkind as [->|Htab]; [reflexivity|].
    destruct (ViewerFacts.table_type_is_not_title et Htab) as (Hne & Htitle & Htext).
    destruct et as [|a et']; [congruence|].
    now rewrite Htitle, Htext, Htab.
Qed.

(** X7.  A title edit of slide 0 stores the typed text as the title of
    the project data, with the projects and the upcoming events as they
    were; the slide generated next carries that text as its title and as
    its first content item, or the default title when the text is empty. *)
Theorem title_edit_stores_title (st : state) (cur : presentation) (ev : event) :
  nth_error (presentations st) (currentPresIndex st) = Some cur ->
  parse_attr (data_slide_index ev) = Num 0 ->
  data_element_type ev = Some "title" ->
  let pd' := {| activities := activities (project_data cur);
                upcoming_events := upcoming_events (project_data cur);
                meta := {| title := innerText ev |} |} in
  handleStructuredContentEdit st ev = stored st cur pd'
  /\ forall sl, In sl (convertProjectDataToSlides pd') ->
       slide_title sl = str_or (innerText ev) default_title
       /\ hd_error (structuredContent sl)
          = Some (TextItem (str_or (innerText ev) default_title) true).
Proof.
  intros Hcur Hs Ht pd'. split.
  - unfold handleStructuredContentEdit. now rewrite Hs, Ht, Hcur.
  - intros sl [<-|[]]. split; reflexivity.
Qed.

Lemma empty_title_edit_shows_default :
  let st := Samples.one_presentation Samples.alpha_data in
  let cur := {| filename := Some "report.pptx";
                project_data := Samples.alpha_data |} in
  let ev := {| data_slide_index := Some "0";
               data_element_type := Some "title";
               data_element_index := None;
               data_row_index := None;
               data_cell_index := None;
               innerText := EmptyString |} in
  let pd' := {| activities := activities Samples.alpha_data;
                upcoming_events := upcoming_events Samples.alpha_data;
                meta := {| title := EmptyString |} |} in
  handleStructuredContentEdit st ev = stored st cur pd'
  /\ forall sl, In sl (convertProjectDataToSlides pd') ->
       slide_title sl = default_title
       /\ hd_error (structuredContent sl) = Some (TextItem default_title true).
Proof.
  exact (title_edit_stores_title
           (Samples.one_presentation Samples.alpha_data)
           {| filename := Some "report.pptx";
              project_data := Samples.alpha_data |}
           {| data_slide_index := Some "0";
              data_element_type := Some "title";
              data_element_index := None;
              data_row_index := None;
              data_cell_index := None;
              innerText := EmptyString |}
           eq_refl eq_refl eq_refl).
Defined.

(** *** Formatted edits ([updateFormattedContent]) *)

Lemma format_of_cell st cur html r c row cl :
  nth_error (presentations st) (currentPresIndex st) = Some cur ->
  activities (project_data cur) <> [] ->
  nth_error (rows (project_table (project_data cur))) r = Some row ->
  nth_error row c = Some cl ->
  updateFormattedContent st html (Some "table") (Num 0) (Num 1)
    (Num (Z.of_nat r)) (Num (Z.of_nat c))
  = stored st cur
      (format_project_data (project_data cur)
         (set_cell_text (rows (project_table (project_data cur))) r c html)
         r c html).
Proof.
  intros Hcur Hne Hrow Hcl.
  destruct (resolve_generated _ _ _ _ _ Hne Hrow Hcl) as (sl & Hsl & Hres).
  unfold updateFormattedContent. rewrite Hcur.
  cbn [String.eqb Ascii.eqb Bool.eqb is_nan negb andb].
  now rewrite Hsl, Hres.
Qed.

(** X8.  A formatted edit of the information cell of the row of project
    [name] stores the markup of the cell as the information of that
    project together with the classification of that markup as its
    alerts; every other project, the order of the projects, the upcoming
    events and the title stay as they were. *)
Theorem formatted_information_edit_reclassifies (st : state)
    (cur : presentation) (html : string) (j : nat) (name : string)
    (info : projectInfo) :
  nth_error (presentations st) (currentPresIndex st) = Some cur ->
  nth_error (activities (project_data cur)) j = Some (name, info) ->
  exists pd',
    updateFormattedContent st html (Some "table") (Num 0) (Num 1)
      (Num (Z.of_nat (S j))) (Num 1)
    = stored st cur pd'
    /\ Obj.get name (activities pd')
       = Some {| information := html; alerts := extractAlertsFromHtml html |}
    /\ (forall k, k <> name ->
          Obj.get k (activities pd') = Obj.get k (activities (project_data cur)))
    /\ Obj.keys (activities pd') = Obj.keys (activities (project_data cur))
    /\ upcoming_events pd' = upcoming_events (project_data cur)
    /\ meta pd' = meta (project_data cur).
Proof.
  intros Hcur Hproj.
  pose proof (project_row_at _ _ _ _ Hproj) as Hrow.
  pose proof (get_of_entry _ _ _ _ Hproj) as Hget.
  assert (Hne : activities (project_data cur) <> [])
    by (intros E; rewrite E in Hproj; now destruct j).
  eexists. split.
  - exact (format_of_cell st cur html (S j) 1 _ _ Hcur Hne Hrow eq_refl).
  - assert (Hname0 : cell_text (rows (project_table (project_data cur))) (S j) 0
                     = name).
    { unfold cell_text. now rewrite Hrow. }
    unfold format_project_data.
    cbn [Nat.ltb Nat.leb Nat.eqb andb].
    rewrite cell_text_beside_write by discriminate.
    rewrite Hname0.
    destruct (Obj.get name (activities (project_data cur)))
      as [found|] eqn:Eg; [|congruence].
    cbn [activities upcoming_events meta with_activities].
    split; [apply get_update_same; congruence|].
    split; [intros k Hk; now apply ViewerFacts.get_update_other|].
    split; [apply keys_update|].
    split; reflexivity.
Qed.

Lemma formatted_edit_of_alpha :
  let st := Samples.one_presentation Samples.alpha_data in
  let cur := {| filename := Some "report.pptx";
                project_data := Samples.alpha_data |} in
  exists pd',
    updateFormattedContent st Samples.status_text (Some "table")
      (Num 0) (Num 1) (Num 1) (Num 1)
    = stored st cur pd'
    /\ Obj.get "Alpha" (activities pd')
       = Some {| information := Samples.status_text;
                 alerts := extractAlertsFromHtml Samples.status_text |}
    /\ (forall k, k <> "Alpha" ->
          Obj.get k (activities pd')
          = Obj.get k (activities Samples.alpha_data))
    /\ Obj.keys (activities pd') = ["Alpha"]
    /\ upcoming_events pd' = Some "Review on Friday"
    /\ meta pd' = {| title := "Weekly report" |}.
Proof.
  exact (formatted_information_edit_reclassifies
           (Samples.one_presentation Samples.alpha_data)
           {| filename := Some "report.pptx";
              project_data := Samples.alpha_data |}
           Samples.status_text 0 "Alpha"
           {| information := "ok"; alerts := AlertSet ["ok"] [] [] |}
           eq_refl eq_refl).
Defined.

(** X9.  A formatted edit of cell 2 of the header row replaces the
    upcoming events by the markup of that header cell: unlike the plain
    edit, the formatted edit does not set the header row apart. *)
Theorem formatted_header_edit_overwrites_events (st : state)
    (cur : presentation) (html : string) :
  nth_error (presentations st) (currentPresIndex st) = Some cur ->
  activities (project_data cur) <> [] ->
  updateFormattedContent st html (Some "table") (Num 0) (Num 1) (Num 0) (Num 2)
  = stored st cur
      {| activities := activities (project_data cur);
         upcoming_events := Some html;
         meta := meta (project_data cur) |}.
Proof.
  intros Hcur Hne.
  exact (format_of_cell st cur html 0 2 _ _ Hcur Hne eq_refl eq_refl).
Qed.

Lemma formatted_header_edit_of_alpha :
  updateFormattedContent (Samples.one_presentation Samples.alpha_data)
    "<b>Next</b>" (Some "table") (Num 0) (Num 1) (Num 0) (Num 2)
  = stored (Samples.one_presentation Samples.alpha_data)
      {| filename := Some "report.pptx"; project_data := Samples.alpha_data |}
      {| activities := activities Samples.alpha_data;
         upcoming_events := Some "<b>Next</b>";
         meta := meta Samples.alpha_data |}.
Proof.
  refine (formatted_header_edit_overwrites_events
            (Samples.one_presentation Samples.alpha_data)
            {| filename := Some "report.pptx";
               project_data := Samples.alpha_data |}
            "<b>Next</b>" eq_refl _).
  discriminate.
Defined.

(** X10.  Whatever its arguments, the array of presentations that
    [updateFormattedContent] stores differs from the array before at most
    in the project data of the current presentation; and it stores
    nothing at all when the element type is none of [table], [text] and
    [title]. *)
Theorem formatted_edit_changes_current_presentation_only (st : state)
    (html : string) (elementType : option string)
    (slideIndex elementIndex rowIndex cellIndex : number) :
  (forall ps,
     updateFormattedContent st html elementType slideIndex elementIndex
       rowIndex cellIndex = SetPresentations ps ->
     framed st ps)
  /\ (elementType <> Some "table" -> elementType <> Some "text" ->
      elementType <> Some "title" ->
      updateFormattedContent st html elementType slideIndex elementIndex
        rowIndex cellIndex = Returned).
Proof.
  unfold updateFormattedContent. split.
  - intros ps H.
    destruct (nth_error (presentations st) (currentPresIndex st)) as [cur|] eqn:Hcur;
      [|discriminate].
    repeat match type of H with
           | context [match ?x with _ => _ end] => destruct x
           end;
      try discriminate;
      injection H as <-; now apply framed_store.
  - intros Htable Htext Htitle.
    destruct (nth_error (presentations st) (currentPresIndex st)) as [cur|];
      [|reflexivity].
    destruct elementType as [et|]; [|reflexivity].
    destruct (String.eqb_spec et "table") as [->|_]; [congruence|].
    destruct (String.eqb_spec et "text") as [->|_]; [congruence|].
    destruct (String.eqb_spec et "title") as [->|_]; [congruence|].
    reflexivity.
Qed.

End EditFacts.

(* ================================================================== *)
(** ** The viewer: reducing slides, escaping *)
(* ================================================================== *)

Module ReduceFacts.

Import Js Regex Viewer Formatting.

Lemma get_set_cases {V : Type} (k name : string) (v info : V) (o : Obj.t V) :
  Obj.get k (Obj.set name v o) = Some info ->
  (k = name /\ info = v) \/ Obj.get k o = Some info.
Proof.
  intros H.
  destruct (String.eqb_spec name "__proto__") as [->|Hproto].
  - right. exact H.
  - destruct (String.eqb_spec k name) as [->|Hk].
    + rewrite EditFacts.get_set_same in H by assumption. left. split; congruence.
    + rewrite ViewerFacts.get_set_other in H by assumption. now right.
Qed.

Lemma reduce_row_derived acts row : derived acts -> derived (reduce_row acts row).
Proof.
  intros Hacts. unfold reduce_row.
  destruct row as [|c0 [|c1 rest]]; try assumption.
  destruct (text c0) as [|a name] eqn:En; [assumption|].
  intros k info H.
  apply get_set_cases in H. destruct H as [[-> ->]|H]; [|now apply Hacts].
  split; [discriminate | reflexivity].
Qed.

Lemma fold_reduce_row_derived rows :
  forall acts, derived acts -> derived (fold_left reduce_row rows acts).
Proof.
  induction rows as [|row rows IH]; intros acts H; [assumption|].
  apply IH. now apply reduce_row_derived.
Qed.

(** X11.  Whatever slides are reduced, every project of the project data
    that [updateProjectData] builds has a name that is not empty and
    alerts that are the classification of its information; the rows
    whose name cell is empty give no project. *)
Theorem reduced_alerts_follow_information (slides : list slide)
    (originalData : projectData) (k : string) (info : projectInfo) :
  slides <> [] ->
  Obj.get k (activities (updateProjectData slides originalData)) = Some info ->
  k <> EmptyString
  /\ alerts info = extractAlertsFromHtml (information info).
Proof.
  intros Hne H. unfold updateProjectData in H.
  destruct slides as [|mainSlide rest]; [congruence|].
  destruct (tables mainSlide) as [|table others]; [discriminate|].
  cbn [activities] in H.
  revert k info H. apply fold_reduce_row_derived.
  intros k info Hk. discriminate.
Qed.

Lemma reduced_alpha_follows_information :
  "Alpha" <> EmptyString
  /\ alerts {| information := green_open ++ "ok" ++ span_close;
               alerts := AlertSet ["ok"] [] [] |}
     = extractAlertsFromHtml (green_open ++ "ok" ++ span_close).
Proof.
  apply (reduced_alerts_follow_information
           (convertProjectDataToSlides Samples.alpha_data) Samples.alpha_data
           "Alpha").
  - discriminate.
  - vm_compute. reflexivity.
Defined.

(** X12.  Project data without a project gives one slide whose only
    content item is the title and which has no table; reducing that slide
    gives project data without a project and without upcoming events:
    the upcoming events of such project data do not survive the round
    trip. *)
Theorem no_project_round_trip_drops_events (pd : projectData) :
  activities pd = [] ->
  (exists sl,
     convertProjectDataToSlides pd = [sl]
     /\ structuredContent sl = [TextItem (slide_title sl) true]
     /\ tables sl = [])
  /\ updateProjectData (convertProjectDataToSlides pd) pd
     = {| activities := []; upcoming_events := None; meta := meta pd |}.
Proof.
  intros Hacts. unfold convertProjectDataToSlides, updateProjectData.
  rewrite Hacts. cbn. split; [|reflexivity].
  eexists. split; [reflexivity|]. split; reflexivity.
Qed.

Lemma events_without_project_are_dropped :
  let pd := {| activities := []; upcoming_events := Some "Review on Friday";
               meta := {| title := "Weekly report" |} |} in
  (exists sl,
     convertProjectDataToSlides pd = [sl]
     /\ structuredContent sl = [TextItem (slide_title sl) true]
     /\ tables sl = [])
  /\ updateProjectData (convertProjectDataToSlides pd) pd
     = {| activities := []; upcoming_events := None;
          meta := {| title := "Weekly report" |} |}.
Proof.
  exact (no_project_round_trip_drops_events
           {| activities := []; upcoming_events := Some "Review on Friday";
              meta := {| title := "Weekly report" |} |} eq_refl).
Defined.

(** *** [escapeHtml] *)

Lemma replace_all_char_cons (c d : ascii) (by_ s : string) :
  replace_all (String c EmptyString) by_ (String d s)
  = (if Ascii.eqb c d then by_ else String d EmptyString)
    ++ replace_all (String c EmptyString) by_ s.
Proof.
  unfold replace_all. cbn [replace_all_from strip_prefix String.length].
  destruct (Ascii.eqb c d); reflexivity.
Qed.

Lemma replace_all_char_app (c : ascii) (by_ a b : string) :
  replace_all (String c EmptyString) by_ (a ++ b)
  = replace_all (String c EmptyString) by_ a
    ++ replace_all (String c EmptyString) by_ b.
Proof.
  induction a as [|d a IH]; [reflexivity|].
  cbn [append]. rewrite !replace_all_char_cons, IH.
  now rewrite RegexFacts.append_assoc.
Qed.

Lemma escapeHtml_app (a b : string) :
  escapeHtml (a ++ b) = escapeHtml a ++ escapeHtml b.
Proof.
  unfold escapeHtml, dq.
  now rewrite !replace_all_char_app.
Qed.

Lemma escapeHtml_char (c : ascii) :
  escapeHtml (String c EmptyString) = escape_char c.
Proof. destruct c as [[] [] [] [] [] [] [] []]; reflexivity. Qed.

Lemma escapeHtml_cons (c : ascii) (s : string) :
  escapeHtml (String c s) = escape_char c ++ escapeHtml s.
Proof.
  change (String c s) with (String c EmptyString ++ s).
  now rewrite escapeHtml_app, escapeHtml_char.
Qed.

Lemma escape_char_is_clean (c : ascii) :
  has_char "<" (escape_char c) = false
  /\ has_char ">" (escape_char c) = false
  /\ has_char "034" (escape_char c) = false
  /\ has_char "'" (escape_char c) = false.
Proof. destruct c as [[] [] [] [] [] [] [] []]; repeat split. Qed.

(** X13.  The five replacements of [escapeHtml], done one after the
    other, come to replacing every character by itself or by its entity:
    the ampersand goes first, so the ampersands of the entities written
    for the other four characters are not escaped again; and escaping a
    text piece by piece gives the same as escaping it whole. *)
Theorem escapeHtml_acts_per_character (s t : string) :
  escapeHtml s = escape_each s
  /\ escapeHtml (s ++ t) = escapeHtml s ++ escapeHtml t.
Proof.
  split; [|apply escapeHtml_app].
  induction s as [|c s IH]; [reflexivity|].
  rewrite escapeHtml_cons, IH. reflexivity.
Qed.

(** X14.  The text [escapeHtml] returns contains none of the characters
    less-than, greater-than, double quote and apostrophe, whatever text
    it is given. *)
Theorem escaped_text_has_no_markup_character (s : string) :
  has_char "<" (escapeHtml s) = false
  /\ has_char ">" (escapeHtml s) = false
  /\ has_char "034" (escapeHtml s) = false
  /\ has_char "'" (escapeHtml s) = false.
Proof.
  induction s as [|c s (IH1 & IH2 & IH3 & IH4)]; [repeat split|].
  rewrite escapeHtml_cons, !ViewerFacts.has_char_app, IH1, IH2, IH3, IH4.
  destruct (escape_char_is_clean c) as (H1 & H2 & H3 & H4).
  now rewrite H1, H2, H3, H4.
Qed.

End ReduceFacts.

(* ================================================================== *)
(** ** The old parser: column cursor, titles *)
(* ================================================================== *)

Module RowFacts.

Import Js Regex Parser.





Lemma literal_needed (l : string) (re : regex) :
  forall s,
    includes l s = false -> match_all (Lit l :: re) s = [].
Proof.
  unfold includes, match_all.
  induction s as [|c s IH]; intros H.
  - cbn [split_first] in H. cbn [match_all_from match_here].
    destruct (strip_prefix l EmptyString); [discriminate | reflexivity].
  - destruct (split_first l (String c s)) as [?|] eqn:E; [discriminate|].
    apply ViewerFacts.split_first_none_inv in E. destruct E as [E1 E2].
    cbn [match_all_from match_here]. rewrite E1.
    apply IH. now rewrite E2.
Qed.

(** X16.  The cell pattern is the opening tag without attributes: a row
    in which no cell element is written exactly so, because every cell
    carries an attribute such as a span, declares no cell, and the row
    built for it is made of padding cells only. *)
Theorem attributed_cells_are_not_extracted (total : number)
    (rowMatch : string) :
  includes "<a:tc>" rowMatch = false ->
  declared_cells rowMatch = []
  /\ build_row total rowMatch = fill_missing (Num 0) total
  /\ Forall is_padding (build_row total rowMatch).
Proof.
  intros H.
  assert (Hno : declared_cells rowMatch = []).
  { unfold declared_cells, tc_re. now rewrite literal_needed. }
  assert (Hrow : build_row total rowMatch = fill_missing (Num 0) total).
  { now rewrite ParserFacts.build_row_split, Hno. }
  repeat split; try assumption.
  rewrite Hrow. destruct total as [|t]; [constructor|].
  apply ParserFacts.fill_from_padding.
Qed.

Lemma merged_cell_row_is_padding :
  declared_cells MoreSamples.attributed_row = []
  /\ build_row (Num 2) MoreSamples.attributed_row = fill_missing (Num 0) (Num 2)
  /\ Forall is_padding (build_row (Num 2) MoreSamples.attributed_row).
Proof.
  apply (attributed_cells_are_not_extracted (Num 2) MoreSamples.attributed_row).
  vm_compute. reflexivity.
Defined.

(** *** Titles *)


(** A first run made of one no-break space is blank: the slide gets the
    literal title, as when the run is an ASCII space. *)
Lemma no_break_space_run_is_blank :
  first_run_candidate MoreSamples.no_break_space_first_run_slide = None
  /\ resolve_title MoreSamples.no_break_space_first_run_slide "1" = "Slide 1"
  /\ resolve_title Samples.blank_first_run_slide "1" = "Slide 1".
Proof. repeat split; vm_compute; reflexivity. Qed.

End RowFacts.

(* ================================================================== *)
(** ** The slide deck: adding and deleting slides *)
(* ================================================================== *)

Module DeckFacts.

Import Deck.

Lemma remove_at_past {A : Type} (xs : list A) :
  forall index sel, (sel < index)%nat -> remove_at index sel xs = xs.
Proof.
  induction xs as [|x xs IH]; intros index sel Hlt; [reflexivity|].
  cbn [remove_at]. destruct (Nat.eqb_spec index sel); [lia|].
  f_equal. apply IH. lia.
Qed.

Lemma remove_at_spec {A : Type} (xs : list A) :
  forall index sel,
    (index <= sel)%nat ->
    remove_at index sel xs
    = (firstn (sel - index) xs ++ skipn (S (sel - index)) xs)%list.
Proof.
  induction xs as [|x xs IH]; intros index sel Hle;
    [now destruct (sel - index)%nat|].
  cbn [remove_at].
  destruct (Nat.eqb_spec index sel) as [->|Hne].
  - rewrite Nat.sub_diag. cbn [firstn skipn app].
    apply remove_at_past. lia.
  - rewrite IH by lia.
    replace (sel - index)%nat with (S (sel - S index)) by lia.
    reflexivity.
Qed.

Lemma remove_at_length {A : Type} (xs : list A) (sel : nat) :
  (sel < List.length xs)%nat ->
  List.length (remove_at 0 sel xs) = (List.length xs - 1)%nat.
Proof.
  intros H. rewrite remove_at_spec by lia. rewrite Nat.sub_0_r.
  rewrite length_app, length_firstn, length_skipn. lia.
Qed.

(** X18.  From a deck whose selected slide exists, [addSlide] and
    [deleteSlide] lead to a deck whose selected slide exists, and the deck
    a new presentation starts with is one; a deck with a slide is never
    left without a slide. *)
Theorem selected_slide_always_exists (st : state) :
  well_selected st ->
  well_selected createNewPresentation
  /\ well_selected (addSlide st)
  /\ well_selected (deleteSlide st)
  /\ (1 <= List.length (slides (deleteSlide st)))%nat.
Proof.
  unfold well_selected. intros H.
  split; [cbn; lia|].
  split; [cbn [addSlide slides selectedSlide]; rewrite length_app; cbn; lia|].
  unfold deleteSlide.
  destruct (Nat.leb_spec (List.length (slides st)) 1) as [Hle|Hgt].
  - split; [assumption | lia].
  - cbn [slides selectedSlide].
    rewrite remove_at_length by assumption. lia.
Qed.

Lemma new_presentation_keeps_its_selection :
  well_selected createNewPresentation
  /\ well_selected (addSlide createNewPresentation)
  /\ well_selected (deleteSlide createNewPresentation)
  /\ (1 <= List.length (slides (deleteSlide createNewPresentation)))%nat.
Proof.
  apply (selected_slide_always_exists createNewPresentation).
  unfold well_selected. cbn. lia.
Defined.

(** X19.  [deleteSlide] on a deck of one slide changes nothing; on a
    larger deck it takes out the selected slide and no other, keeps the
    order of the rest, and leaves the selection where it was, or on the
    new last slide when the last slide was deleted. *)
Theorem deleteSlide_removes_selected_slide_only (st : state) :
  well_selected st ->
  ((List.length (slides st) <= 1)%nat -> deleteSlide st = st)
  /\ ((2 <= List.length (slides st))%nat ->
      slides (deleteSlide st)
      = (firstn (selectedSlide st) (slides st)
         ++ skipn (S (selectedSlide st)) (slides st))%list
      /\ selectedSlide (deleteSlide st)
         = if (S (selectedSlide st) =? List.length (slides st))%nat
           then (selectedSlide st - 1)%nat
           else selectedSlide st).
Proof.
  unfold well_selected, deleteSlide. intros H. split; intros Hlen.
  - destruct (Nat.leb_spec (List.length (slides st)) 1); [reflexivity | lia].
  - destruct (Nat.leb_spec (List.length (slides st)) 1); [lia|].
    cbn [slides selectedSlide].
    rewrite remove_at_length by assumption.
    rewrite remove_at_spec, Nat.sub_0_r by lia.
    split; [reflexivity|].
    destruct (Nat.eqb_spec (S (selectedSlide st)) (List.length (slides st))); lia.
Qed.

Lemma deleting_last_of_two_selects_first :
  let st := select 1 (addSlide createNewPresentation) in
  ((List.length (slides st) <= 1)%nat -> deleteSlide st = st)
  /\ ((2 <= List.length (slides st))%nat ->
      slides (deleteSlide st)
      = (firstn (selectedSlide st) (slides st)
         ++ skipn (S (selectedSlide st)) (slides st))%list
      /\ selectedSlide (deleteSlide st)
         = if (S (selectedSlide st) =? List.length (slides st))%nat
           then (selectedSlide st - 1)%nat
           else selectedSlide st).
Proof.
  apply (deleteSlide_removes_selected_slide_only
           (select 1 (addSlide createNewPresentation))).
  unfold well_selected. cbn. lia.
Defined.

(** X20.  Slide identifiers are made from the length of the deck, so
    they do not stay distinct: after adding a slide to a deck, deleting
    the first slide and adding a slide again, the last two slides carry
    the same identifier. *)
Theorem added_slides_can_share_an_identifier (st : state) :
  slides st <> [] ->
  exists before a b,
    slides (addSlide (deleteSlide (select 0 (addSlide st))))
    = (before ++ [a; b])%list
    /\ id a = id b.
Proof.
  intros Hne.
  destruct (slides st) as [|s0 rest] eqn:Es; [congruence|].
  exists rest,
    (blank_slide (List.length (s0 :: rest) + 1) "New Slide"),
    (blank_slide (List.length (s0 :: rest) + 1) "New Slide").
  split; [|reflexivity].
  unfold addSlide at 2. rewrite Es.
  unfold select. cbn [slides selectedSlide].
  unfold deleteSlide. cbn [slides selectedSlide].
  destruct (Nat.leb_spec
              (List.length ((s0 :: rest) ++ [blank_slide (List.length (s0 :: rest) + 1) "New Slide"])%list) 1)
    as [Hle|_].
  { rewrite length_app in Hle. cbn in Hle. lia. }
  unfold addSlide. cbn [slides selectedSlide app remove_at Nat.eqb].
  rewrite remove_at_past by lia.
  rewrite <- app_assoc. cbn [app].
  do 3 f_equal. rewrite length_app. cbn [List.length]. 
  f_equal. f_equal. lia.
Qed.

Lemma new_presentation_gets_two_slides_of_one_identifier :
  exists before a b,
    slides (addSlide (deleteSlide (select 0 (addSlide createNewPresentation))))
    = (before ++ [a; b])%list
    /\ id a = id b.
Proof.
  apply (added_slides_can_share_an_identifier createNewPresentation).
  discriminate.
Defined.

End DeckFacts.

(* ================================================================== *)
(** ** Open presentations and the file list *)
(* ================================================================== *)

Module AppFacts.

Import App.

Lemma is_open_In (i : Z) (ps : list file) :
  is_open i ps = true <-> In i (map id ps).
Proof.
  unfold is_open. rewrite existsb_exists, in_map_iff. split.
  - intros (p & Hin & Heq). apply Z.eqb_eq in Heq. eauto.
  - intros (p & Heq & Hin). exists p. split; [assumption|]. now apply Z.eqb_eq.
Qed.

Lemma is_open_false (i : Z) (ps : list file) :
  is_open i ps = false <-> ~ In i (map id ps).
Proof.
  rewrite <- is_open_In. destruct (is_open i ps); split; congruence.
Qed.

Lemma In_ids_filter (i j : Z) (ps : list file) :
  In j (map id (filter (fun p => negb (id p =? i)%Z) ps))
  <-> In j (map id ps) /\ j <> i.
Proof.
  rewrite !in_map_iff. split.
  - intros (p & <- & Hin). apply filter_In in Hin. destruct Hin as [Hin Hne].
    split; [eauto|]. apply negb_true_iff, Z.eqb_neq in Hne. exact Hne.
  - intros ((p & <- & Hin) & Hne). exists p. split; [reflexivity|].
    apply filter_In. split; [assumption|].
    now apply negb_true_iff, Z.eqb_neq.
Qed.

Lemma NoDup_ids_filter (g : file -> bool) (ps : list file) :
  NoDup (map id ps) -> NoDup (map id (filter g ps)).
Proof.
  induction ps as [|p ps IH]; intros H; [constructor|].
  inversion H as [|? ? Hnotin Hnd]; subst. cbn [filter].
  destruct (g p); [|now apply IH].
  cbn [map]. constructor; [|now apply IH].
  intros Hin. apply Hnotin.
  apply in_map_iff in Hin. destruct Hin as (q & Hq & Hin).
  apply filter_In in Hin. apply in_map_iff. exists q. tauto.
Qed.

Lemma NoDup_ids_add (f : file) (ps : list file) :
  NoDup (map id ps) -> is_open (id f) ps = false ->
  NoDup (map id (ps ++ [f])).
Proof.
  intros Hnd Hnew. apply is_open_false in Hnew.
  rewrite map_app. cbn [map].
  apply NoDup_app; [assumption | repeat constructor; intros [] |].
  intros x Hx [<-|[]]. contradiction.
Qed.

(** X21.  Opening and closing presentations keep the list of open
    presentations free of any identifier twice and keep the active
    presentation, when there is one, among the open ones; this holds at
    the start, with nothing open and nothing active. *)
Theorem open_presentations_stay_consistent (st : state) (f : file) (i : Z) :
  consistent st ->
  consistent {| openPresentations := []; activePresentation := None |}
  /\ consistent (openPresentation f st)
  /\ consistent (closePresentation i st).
Proof.
  unfold consistent, active_is_open. intros [Hnd Hact].
  split; [split; [constructor | exact I]|].
  split.
  - unfold openPresentation. cbn [openPresentations activePresentation].
    destruct (is_open (id f) (openPresentations st)) eqn:E.
    + split; assumption.
    + split; [now apply NoDup_ids_add|].
      apply is_open_In. rewrite map_app. apply in_or_app. right. now left.
  - unfold closePresentation. cbn [openPresentations activePresentation].
    set (new := filter (fun p => negb (id p =? i)%Z) (openPresentations st)).
    split; [now apply NoDup_ids_filter|].
    destruct (activePresentation st) as [a|].
    + destruct (Z.eqb_spec a i) as [->|Hne]; cbn [andb].
      * destruct (Nat.ltb_spec 0 (List.length new)) as [Hpos|Hzero].
        -- destruct (nth_error new (List.length new - 1)) as [l|] eqn:El;
             [|exact I].
           cbn [option_map]. apply is_open_In, in_map.
           now apply nth_error_In in El.
        -- destruct (Nat.eqb_spec (List.length new) 0); [exact I | lia].
      * destruct (Nat.eqb_spec (List.length new) 0); [exact I|].
        apply is_open_In. apply In_ids_filter. split; [|assumption].
        now apply is_open_In.
    + cbn [andb]. now destruct (List.length new =? 0)%nat.
Qed.

Lemma opening_a_file_from_the_start :
  let st := {| openPresentations := []; activePresentation := None |} in
  let f := File 3 "Rapport Annuel.pptx" "2023-06-15" in
  consistent {| openPresentations := []; activePresentation := None |}
  /\ consistent (openPresentation f st)
  /\ consistent (closePresentation 3 st).
Proof.
  apply (open_presentations_stay_consistent
           {| openPresentations := []; activePresentation := None |}
           (File 3 "Rapport Annuel.pptx" "2023-06-15") 3).
  split; [constructor | exact I].
Defined.

(** X22.  After [closePresentation] the closed presentation is no longer
    open and is not the active one; whether any other presentation is
    open is as before. *)
Theorem closed_presentation_is_neither_open_nor_active (st : state) (i : Z) :
  is_open i (openPresentations (closePresentation i st)) = false
  /\ (forall j, j <> i ->
        is_open j (openPresentations (closePresentation i st))
        = is_open j (openPresentations st))
  /\ activePresentation (closePresentation i st) <> Some i.
Proof.
  unfold closePresentation. cbn [openPresentations activePresentation].
  set (new := filter (fun p => negb (id p =? i)%Z) (openPresentations st)).
  split; [|split].
  - apply is_open_false. intros H. apply In_ids_filter in H. tauto.
  - intros j Hj.
    destruct (is_open j (openPresentations st)) eqn:E.
    + apply is_open_In. apply In_ids_filter. split; [|assumption].
      now apply is_open_In.
    + apply is_open_false. apply is_open_false in E.
      intros H. apply In_ids_filter in H. tauto.
  - destruct (activePresentation st) as [a|].
    + destruct (Z.eqb_spec a i) as [->|Hne]; cbn [andb].
      * destruct (Nat.ltb_spec 0 (List.length new)).
        -- destruct (nth_error new (List.length new - 1)) as [l|] eqn:El;
             [|discriminate].
           cbn [option_map]. intros [= Hl].
           apply nth_error_In in El. apply (in_map id) in El.
           apply In_ids_filter in El. tauto.
        -- destruct (Nat.eqb_spec (List.length new) 0); [discriminate | lia].
      * destruct (List.length new =? 0)%nat; congruence.
    + cbn [andb]. now destruct (List.length new =? 0)%nat.
Qed.

(** X23.  [savePresentation] looks for the first open presentation that
    is open, which is the first open presentation: with a presentation
    open, the one it reports as saved is the one opened first, whichever
    is active. *)
Theorem save_takes_first_open_presentation (p : file) (rest : list file) :
  save_target (p :: rest) = Some p
  /\ savePresentation (p :: rest)
     = "Présentation " ++ Js.dq ++ name p ++ Js.dq ++ " sauvegardée !".
Proof.
  assert (H : save_target (p :: rest) = Some p).
  { unfold save_target. cbn [find is_open existsb].
    now rewrite Z.eqb_refl. }
  split; [exact H|]. unfold savePresentation. now rewrite H.
Qed.

(** X24.  The file list, which starts without an identifier twice,
    keeps that through additions and deletions; adding a file a second
    time changes nothing, and a deleted identifier is no longer listed. *)
Theorem file_list_keeps_identifiers_distinct (files : list file) (f : file)
    (i : Z) :
  NoDup (map id files) ->
  NoDup (map id initial_files)
  /\ NoDup (map id (handleAddToFileList f files))
  /\ NoDup (map id (deleteFile i files))
  /\ handleAddToFileList f (handleAddToFileList f files)
     = handleAddToFileList f files
  /\ is_open i (deleteFile i files) = false.
Proof.
  intros Hnd.
  split.
  { cbn. repeat constructor; cbn; intuition discriminate. }
  assert (Hin : is_open (id f) (handleAddToFileList f files) = true).
  { unfold handleAddToFileList.
    destruct (is_open (id f) files) eqn:E; [exact E|].
    apply is_open_In. rewrite map_app. apply in_or_app. right. now left. }
  split.
  { unfold handleAddToFileList.
    destruct (is_open (id f) files) eqn:E; [assumption|].
    now apply NoDup_ids_add. }
  split; [now apply NoDup_ids_filter|].
  split.
  { unfold handleAddToFileList at 1. now rewrite Hin. }
  apply is_open_false. intros H. apply In_ids_filter in H. tauto.
Qed.

Lemma initial_file_list_keeps_identifiers_distinct :
  NoDup (map id initial_files)
  /\ NoDup (map id (handleAddToFileList (File 11 "Import.pptx" "2024-02-01")
                      initial_files))
  /\ NoDup (map id (deleteFile 3 initial_files))
  /\ handleAddToFileList (File 11 "Import.pptx" "2024-02-01")
       (handleAddToFileList (File 11 "Import.pptx" "2024-02-01") initial_files)
     = handleAddToFileList (File 11 "Import.pptx" "2024-02-01") initial_files
  /\ is_open 3 (deleteFile 3 initial_files) = false.
Proof.
  apply (file_list_keeps_identifiers_distinct initial_files
           (File 11 "Import.pptx" "2024-02-01") 3).
  cbn. repeat constructor; cbn; intuition discriminate.
Defined.

End AppFacts.

(* ================================================================== *)
(** ** Searching with a pattern: the chat identifier, the slide parts *)
(* ================================================================== *)

Module SearchFacts.

Import Js Regex.

(** The leftmost match is a match at the end of the text before it. *)
Lemma exec_sound (re : regex) :
  forall s f,
    exec re s = Some f ->
    exists suf,
      s = before f ++ suf
      /\ match_here re suf = Some (groups f, after f).
Proof.
  induction s as [|c s IH]; intros f H; cbn [exec] in H.
  - destruct (match_here re EmptyString) as [[caps rest]|] eqn:E; [|discriminate].
    injection H as <-. exists EmptyString. now split.
  - destruct (match_here re (String c s)) as [[caps rest]|] eqn:E.
    + injection H as <-. exists (String c s). now split.
    + destruct (exec re s) as [f'|] eqn:E'; [|discriminate].
      injection H as <-. cbn [before groups after].
      destruct (IH f' eq_refl) as (suf & Hs & Hm).
      exists suf. split; [|assumption]. cbn [append]. now f_equal.
Qed.

(** A match somewhere gives a leftmost match. *)
Lemma exec_complete (re : regex) (suf : string) (r : result) :
  match_here re suf = Some r ->
  forall pre, exists f, exec re (pre ++ suf) = Some f.
Proof.
  intros Hm. induction pre as [|c pre [f IH]].
  - cbn [append]. destruct suf; cbn [exec]; rewrite Hm; destruct r; eauto.
  - cbn [append exec].
    destruct (match_here re (String c (pre ++ suf))) as [[caps rest]|]; [eauto|].
    rewrite IH. eauto.
Qed.

Section Greedy.

Variable cls : ascii -> bool.

Lemma greedy_takes_run (g post : string) :
  forallb cls (list_ascii_of_string g) = true ->
  (post = EmptyString \/ exists c p, post = String c p /\ cls c = false) ->
  forall min acc,
    (min <= String.length g)%nat ->
    rep_greedy cls true (match_here []) min acc (g ++ post)
    = Some ([acc ++ g], post).
Proof.
  intros Hg Hpost. induction g as [|c g IH]; intros min acc Hmin.
  - cbn [String.length] in Hmin. assert (min = 0%nat) as -> by lia.
    rewrite RegexFacts.append_nil_r. cbn [append].
    destruct Hpost as [->|(c & p & -> & Hc)]; cbn [rep_greedy]; [reflexivity|].
    now rewrite Hc.
  - cbn [list_ascii_of_string forallb] in Hg.
    apply andb_true_iff in Hg. destruct Hg as [Hc Hg].
    cbn [append rep_greedy]. rewrite Hc, (IH Hg).
    + now rewrite RegexFacts.append_assoc.
    + cbn [String.length] in Hmin. lia.
Qed.

Lemma greedy_run_sound (k : string -> option result) :
  forall s min acc caps rest,
    rep_greedy cls true k min acc s = Some (caps, rest) ->
    exists g mid caps',
      caps = (acc ++ g) :: caps'
      /\ forallb cls (list_ascii_of_string g) = true
      /\ (min <= String.length g)%nat
      /\ s = g ++ mid
      /\ k mid = Some (caps', rest).
Proof.
  assert (Hstop : forall min acc s caps rest,
             match min with O => finish true k acc s | S _ => None end
             = Some (caps, rest) ->
             exists g mid caps',
               caps = (acc ++ g) :: caps'
               /\ forallb cls (list_ascii_of_string g) = true
               /\ (min <= String.length g)%nat
               /\ s = g ++ mid
               /\ k mid = Some (caps', rest)).
  { intros [|min] acc s caps rest H; [|discriminate].
    unfold finish in H. destruct (k s) as [[caps' rest']|] eqn:Ek; [|discriminate].
    injection H as <- <-. exists EmptyString, s, caps'.
    rewrite RegexFacts.append_nil_r. repeat split; try assumption. cbn. lia. }
  induction s as [|c s IH]; intros min acc caps rest H; cbn [rep_greedy] in H.
  - now apply Hstop.
  - destruct (cls c) eqn:Hc; [|now apply Hstop].
    destruct (rep_greedy cls true k (pred min)
                (acc ++ String c EmptyString) s) as [[caps0 rest0]|] eqn:E.
    + injection H as <- <-.
      destruct (IH _ _ _ _ E) as (g & mid & caps' & -> & Hg & Hmin & -> & Hk).
      exists (String c g), mid, caps'. rewrite RegexFacts.append_assoc.
      repeat split; try assumption.
      * cbn [list_ascii_of_string forallb]. now rewrite Hc, Hg.
      * cbn [String.length]. lia.
    + now apply Hstop.
Qed.

(** Capturing or not, a repetition matches the same texts. *)
Lemma greedy_capture_free (k : string -> option result) :
  forall s min acc acc',
    match rep_greedy cls false k min acc s,
          rep_greedy cls true k min acc' s with
    | Some (_, r1), Some (_, r2) => r1 = r2
    | None, None => True
    | _, _ => False
    end.
Proof.
  assert (Hstop : forall min acc acc' s,
             match match min with O => finish false k acc s | S _ => None end,
                   match min with O => finish true k acc' s | S _ => None end
             with
             | Some (_, r1), Some (_, r2) => r1 = r2
             | None, None => True
             | _, _ => False
             end).
  { intros [|min] acc acc' s; [|exact I].
    unfold finish. now destruct (k s) as [[caps0 rest0]|]. }
  induction s as [|c s IH]; intros min acc acc'; cbn [rep_greedy].
  - apply Hstop.
  - destruct (cls c); [|apply Hstop].
    specialize (IH (pred min) (acc ++ String c EmptyString)
                  (acc' ++ String c EmptyString)).
    destruct (rep_greedy cls false k (pred min) (acc ++ String c EmptyString) s)
      as [[caps1 r1]|];
      destruct (rep_greedy cls true k (pred min) (acc' ++ String c EmptyString) s)
      as [[caps2 r2]|]; try contradiction; [exact IH | apply Hstop].
Qed.

End Greedy.

(** *** [extractChatIdFromUrl] *)

Import Chat.

Lemma id_chars_have_no_separator (g : string) :
  forallb id_char (list_ascii_of_string g) = true ->
  has_char "/" g = false /\ has_char "?" g = false /\ has_char "#" g = false.
Proof.
  induction g as [|c g IH]; [repeat split|].
  cbn [list_ascii_of_string forallb has_char]. intros H.
  apply andb_true_iff in H. destruct H as [Hc Hg].
  destruct (IH Hg) as (H1 & H2 & H3). rewrite H1, H2, H3.
  unfold id_char in Hc. apply negb_true_iff in Hc.
  apply orb_false_elim in Hc. destruct Hc as [Hc Hc3].
  apply orb_false_elim in Hc. destruct Hc as [Hc1 Hc2].
  rewrite Ascii.eqb_sym in Hc1, Hc2, Hc3. now rewrite Hc1, Hc2, Hc3.
Qed.

Lemma exec_literal_needed (l : string) (re : regex) :
  forall s, includes l s = false -> exec (Lit l :: re) s = None.
Proof.
  unfold includes.
  induction s as [|c s IH]; intros H.
  - cbn [split_first] in H. cbn [exec match_here].
    destruct (strip_prefix l EmptyString); [discriminate | reflexivity].
  - destruct (split_first l (String c s)) as [?|] eqn:E; [discriminate|].
    apply ViewerFacts.split_first_none_inv in E. destruct E as [E1 E2].
    cbn [exec match_here]. rewrite E1, IH; [reflexivity | now rewrite E2].
Qed.

(** X25.  An address without the text [/c/] has no chat identifier.  The
    identifier [extractChatIdFromUrl] returns is never empty, contains
    none of the characters slash, question mark and hash, and stands in
    the address right after [/c/]. *)
Theorem chat_identifier_is_a_path_segment (url : string) :
  (includes "/c/" url = false -> extractChatIdFromUrl url = None)
  /\ (forall g,
        extractChatIdFromUrl url = Some g ->
        g <> EmptyString
        /\ has_char "/" g = false /\ has_char "?" g = false
        /\ has_char "#" g = false
        /\ exists pre post, url = pre ++ "/c/" ++ g ++ post).
Proof.
  unfold extractChatIdFromUrl, chat_re. split.
  - intros H. now rewrite exec_literal_needed.
  - intros g H.
    destruct (exec [Lit "/c/"; Rep Greedy 1 id_char true] url) as [f|] eqn:E;
      [|discriminate].
    assert (Hg : group 1 f = g /\ g <> EmptyString).
    { destruct (group 1 f); [discriminate|]. injection H as <-.
      split; [reflexivity | discriminate]. }
    destruct Hg as [Hg Hne]. clear H.
    apply exec_sound in E. destruct E as (suf & Hurl & Hm).
    change (match_here [Lit "/c/"; Rep Greedy 1 id_char true] suf)
      with (match strip_prefix "/c/" suf with
            | Some r => rep_greedy id_char true (match_here []) 1 EmptyString r
            | None => None
            end) in Hm.
    destruct (strip_prefix "/c/" suf) as [r|] eqn:Es; [|discriminate].
    apply RegexFacts.strip_prefix_inv in Es.
    apply greedy_run_sound in Hm.
    destruct Hm as (run & mid & caps' & Hcaps & Hcls & _ & Hr & Hmid).
    injection Hmid as _ ->.
    unfold group in Hg. rewrite Hcaps in Hg. cbn in Hg. subst run.
    split; [assumption|].
    destruct (id_chars_have_no_separator _ Hcls) as (H1 & H2 & H3).
    repeat (split; [assumption|]).
    exists (before f), (after f). now rewrite Hurl, Es, Hr.
Qed.

Lemma no_chat_text_before (c : ascii) (b x : string) :
  split_first "/c" (String c b) = None ->
  strip_prefix "/c/" (String c b ++ "/c/" ++ x) = None.
Proof.
  intros H. apply ViewerFacts.split_first_none_inv in H. destruct H as [H _].
  cbn [strip_prefix append] in *.
  destruct (Ascii.eqb "/" c); [|reflexivity].
  destruct b as [|d b]; cbn [append]; [reflexivity|].
  destruct (Ascii.eqb "c" d); [discriminate | reflexivity].
Qed.

Lemma exec_after_base (re : regex) (x : string) :
  forall base,
    includes "/c" base = false ->
    exec (Lit "/c/" :: re) (base ++ "/c/" ++ x)
    = option_map
        (fun f => Found (base ++ before f) (matched f) (groups f) (after f))
        (exec (Lit "/c/" :: re) ("/c/" ++ x)).
Proof.
  unfold includes.
  induction base as [|c b IH]; intros H.
  - cbn [append].
    destruct (exec (Lit "/c/" :: re) (String "/" (String "c" (String "/" x))))
      as [[]|]; reflexivity.
  - destruct (split_first "/c" (String c b)) as [?|] eqn:E; [discriminate|].
    pose proof (no_chat_text_before c b x E) as Hno.
    apply ViewerFacts.split_first_none_inv in E. destruct E as [_ E].
    change ((String c b) ++ "/c/" ++ x) with (String c (b ++ "/c/" ++ x)) in *.
    cbn [exec match_here]. rewrite Hno, IH by now rewrite E.
    now destruct (exec (Lit "/c/" :: re) ("/c/" ++ x)).
Qed.

(** X26.  When the address is a base without the text [/c], then [/c/],
    then a non-empty identifier without slash, question mark and hash,
    and then nothing or a text that starts with one of these three
    characters, [extractChatIdFromUrl] returns the identifier. *)
Theorem chat_identifier_is_read_back (base g post : string) :
  includes "/c" base = false ->
  g <> EmptyString ->
  forallb id_char (list_ascii_of_string g) = true ->
  (post = EmptyString \/ exists c p, post = String c p /\ id_char c = false) ->
  extractChatIdFromUrl (base ++ "/c/" ++ g ++ post) = Some g.
Proof.
  intros Hbase Hne Hg Hpost.
  unfold extractChatIdFromUrl, chat_re.
  rewrite exec_after_base by assumption.
  assert (Hm : match_here [Lit "/c/"; Rep Greedy 1 id_char true]
                 ("/c/" ++ g ++ post) = Some ([g], post)).
  { change (match_here [Lit "/c/"; Rep Greedy 1 id_char true]
              ("/c/" ++ g ++ post))
      with (match strip_prefix "/c/" ("/c/" ++ g ++ post) with
            | Some r => rep_greedy id_char true (match_here []) 1 EmptyString r
            | None => None
            end).
    rewrite RegexFacts.strip_prefix_app.
    rewrite (greedy_takes_run id_char g post Hg Hpost 1 EmptyString);
      [reflexivity|].
    destruct g; [congruence | cbn; lia]. }
  change ("/c/" ++ g ++ post) with (String "/" ("c/" ++ g ++ post)) in *.
  cbn [exec]. rewrite Hm. cbn [option_map group groups Nat.sub nth].
  destruct g; [congruence | reflexivity].
Qed.

Lemma chat_identifier_of_local_address :
  extractChatIdFromUrl
    ("http://localhost:3030" ++ "/c/" ++ "4f2a9c1e" ++ "?model=llama")
  = Some "4f2a9c1e".
Proof.
  apply (chat_identifier_is_read_back "http://localhost:3030" "4f2a9c1e"
           "?model=llama").
  - reflexivity.
  - discriminate.
  - reflexivity.
  - right. exists "?"%char, "model=llama". split; reflexivity.
Defined.

(** *** The order of the slide parts *)

Import Package.

Lemma digits_from_some (s : string) :
  forall a, exists v, digits 10 (Some a) s = Some v.
Proof.
  induction s as [|c s IH]; intros a; cbn [digits]; [eauto|].
  destruct (radix_digit 10 c); eauto.
Qed.

(** A text that begins with a byte below C2 that is not white space
    has nothing to strip at its start. *)
Lemma trim_start_plain (c : ascii) (s : string) :
  is_space c = false ->
  (nat_of_ascii c < 194)%nat ->
  trim_start (String c s) = String c s.
Proof.
  intros Hsp Hlow. cbn [trim_start]. rewrite Hsp.
  destruct s as [|d [|e s]]; [reflexivity | |];
    unfold wide_space2, wide_space3; cbv zeta;
    repeat match goal with
           | |- context [(nat_of_ascii c =? ?n)%nat] =>
               replace (nat_of_ascii c =? n)%nat with false
                 by (symmetry; apply Nat.eqb_neq; lia)
           end;
    reflexivity.
Qed.

Lemma parseInt_of_digits (g : string) :
  g <> EmptyString ->
  forallb is_digit (list_ascii_of_string g) = true ->
  exists n, parseInt g = Num n.
Proof.
  intros Hne Hg. destruct g as [|d s]; [congruence|].
  cbn [list_ascii_of_string forallb] in Hg.
  apply andb_true_iff in Hg. destruct Hg as [Hd Hs].
  destruct s as [|e s'].
  - destruct d as [[] [] [] [] [] [] [] []]; try discriminate Hd;
      vm_compute; eauto.
  - cbn [list_ascii_of_string forallb] in Hs.
    apply andb_true_iff in Hs. destruct Hs as [He Hs].
    destruct d as [[] [] [] [] [] [] [] []]; try discriminate Hd;
      destruct e as [[] [] [] [] [] [] [] []]; try discriminate He;
      unfold parseInt;
      rewrite trim_start_plain by (try reflexivity; cbn; lia);
      cbv -[digits];
      do 2 (cbn [digits]; cbv -[digits]);
      match goal with
      | |- context [digits ?r (Some ?a) s'] =>
          destruct (digits_from_some s' a) as [v Hv];
          change (digits r (Some a) s') with (digits 10 (Some a) s');
          rewrite Hv; eauto
      end.
Qed.

(** Every name that passes the filter carries a slide number. *)
Lemma slide_part_is_numbered (filename : string) :
  is_slide_part filename = true ->
  exists n, slide_number filename = Num n.
Proof.
  unfold is_slide_part, slide_number.
  destruct (exec slide_part_re filename) as [f|] eqn:E; [intros _|discriminate].
  apply exec_sound in E. destruct E as (suf & Hname & Hm).
  unfold slide_part_re in Hm.
  change (match_here [Lit "ppt/slides/slide"; Rep Greedy 1 is_digit false; Lit ".xml"] suf)
    with (match strip_prefix "ppt/slides/slide" suf with
          | Some r => rep_greedy is_digit false (match_here [Lit ".xml"]) 1 EmptyString r
          | None => None
          end) in Hm.
  destruct (strip_prefix "ppt/slides/slide" suf) as [r|] eqn:Es; [|discriminate].
  apply RegexFacts.strip_prefix_inv in Es.
  pose proof (greedy_capture_free is_digit (match_here [Lit ".xml"]) r 1
                EmptyString EmptyString) as Hfree.
  rewrite Hm in Hfree.
  destruct (rep_greedy is_digit true (match_here [Lit ".xml"]) 1 EmptyString r)
    as [[caps rest]|] eqn:Et; [|contradiction].
  assert (Hhere : match_here slide_number_re ("slide" ++ r) = Some (caps, rest)).
  { unfold slide_number_re.
    change (match_here [Lit "slide"; Rep Greedy 1 is_digit true; Lit ".xml"]
              ("slide" ++ r))
      with (match strip_prefix "slide" ("slide" ++ r) with
            | Some r' =>
                rep_greedy is_digit true (match_here [Lit ".xml"]) 1 EmptyString r'
            | None => None
            end).
    now rewrite RegexFacts.strip_prefix_app. }
  destruct (exec_complete _ _ _ Hhere (before f ++ "ppt/slides/")) as [f' Hf'].
  assert (Hsame : (before f ++ "ppt/slides/") ++ "slide" ++ r = filename).
  { rewrite Hname, Es. now rewrite RegexFacts.append_assoc. }
  rewrite Hsame in Hf'. rewrite Hf'.
  apply exec_sound in Hf'. destruct Hf' as (suf' & _ & Hm').
  unfold slide_number_re in Hm'.
  change (match_here [Lit "slide"; Rep Greedy 1 is_digit true; Lit ".xml"] suf')
    with (match strip_prefix "slide" suf' with
          | Some r' =>
              rep_greedy is_digit true (match_here [Lit ".xml"]) 1 EmptyString r'
          | None => None
          end) in Hm'.
  destruct (strip_prefix "slide" suf') as [r'|]; [|discriminate].
  apply greedy_run_sound in Hm'.
  destruct Hm' as (g & mid & caps' & Hcaps & Hg & Hmin & _ & _).
  unfold group. rewrite Hcaps. cbn [Nat.sub nth append].
  apply parseInt_of_digits; [|assumption].
  destruct g; [cbn in Hmin; lia | discriminate].
Qed.

Lemma not_after_in_order (a b : string) :
  (exists m, slide_number a = Num m) ->
  (exists n, slide_number b = Num n) ->
  (not_after a b = true -> in_order a b)
  /\ (not_after a b = false -> in_order b a).
Proof.
  intros [m Hm] [n Hn]. unfold not_after, in_order. rewrite Hm, Hn.
  cbn [sub]. split; intros H.
  - exists m, n. apply Z.leb_le in H. repeat split. lia.
  - exists n, m. apply Z.leb_gt in H. repeat split. lia.
Qed.

Lemma in_order_trans (a b c : string) :
  in_order a b -> in_order b c -> in_order a c.
Proof.
  intros (m & n & Hm & Hn & Hmn) (n' & p & Hn' & Hp & Hnp).
  exists m, p. repeat split; try assumption.
  rewrite Hn in Hn'. injection Hn' as <-. lia.
Qed.

Lemma insert_perm (a : string) (l : list string) :
  Permutation (insert a l) (a :: l).
Proof.
  induction l as [|b l IH]; cbn [insert]; [reflexivity|].
  destruct (not_after a b); [reflexivity|].
  rewrite IH. apply perm_swap.
Qed.

Lemma sort_perm (l : list string) : Permutation (sort l) l.
Proof.
  induction l as [|a l IH]; cbn [sort fold_right]; [reflexivity|].
  rewrite insert_perm. now constructor.
Qed.

Lemma insert_sorted (a : string) (l : list string) :
  (exists m, slide_number a = Num m) ->
  Forall (fun b => exists n, slide_number b = Num n) l ->
  StronglySorted in_order l ->
  StronglySorted in_order (insert a l).
Proof.
  intros Ha Hl Hs. induction Hs as [|b l Hs IH Hb]; cbn [insert].
  - repeat constructor.
  - inversion Hl as [|? ? Hnb Hl']; subst.
    destruct (not_after_in_order a b Ha Hnb) as [Hle Hgt].
    destruct (not_after a b).
    + constructor; [now constructor|].
      constructor; [now apply Hle|].
      eapply Forall_impl; [|exact Hb].
      intros c Hc. eapply in_order_trans; [now apply Hle | exact Hc].
    + constructor; [now apply IH|].
      eapply Permutation_Forall; [symmetry; apply insert_perm|].
      constructor; [now apply Hgt | exact Hb].
Qed.

(** X27.  [parsePptx] reads the slide parts of a package in increasing
    slide number, compared as numbers: every name it reads carries a
    number, each name comes before the names of larger or equal number
    that follow it, and the names read are the names that pass the filter,
    each as often as it is listed. *)
Theorem slide_parts_are_read_in_numeric_order (filenames : list string) :
  Permutation (slideEntries filenames) (filter is_slide_part filenames)
  /\ StronglySorted in_order (slideEntries filenames).
Proof.
  unfold slideEntries. split; [apply sort_perm|].
  assert (Hnum : Forall (fun b => exists n, slide_number b = Num n)
                   (filter is_slide_part filenames)).
  { apply Forall_forall. intros b Hb. apply filter_In in Hb.
    now apply slide_part_is_numbered. }
  induction (filter is_slide_part filenames) as [|a l IH];
    cbn [sort fold_right]; [constructor|].
  inversion Hnum as [|? ? Ha Hl]; subst.
  apply insert_sorted; [assumption | | now apply IH].
  eapply Permutation_Forall; [symmetry; apply sort_perm | exact Hl].
Qed.

End SearchFacts.

(* ================================================================== *)
(** ** Plain texts: the round trip, the entities *)
(* ================================================================== *)

Module PlainFacts.

Import Js Regex Viewer.

Lemma absent_head_not_included (c : ascii) (l : string) :
  forall s, has_char c s = false -> includes (String c l) s = false.
Proof.
  unfold includes. induction s as [|d s IH]; intros H; [reflexivity|].
  cbn [has_char] in H. apply orb_false_elim in H. destruct H as [Hd Hs].
  cbn [split_first strip_prefix]. rewrite Hd.
  specialize (IH Hs). now destruct (split_first (String c l) s) as [[pre post]|].
Qed.

Lemma plain_text_has_no_alert (html : string) :
  has_char "<" html = false -> extractAlertsFromHtml html = no_alerts.
Proof.
  intros H. unfold extractAlertsFromHtml, extract_tier, no_alerts.
  rewrite !ViewerFacts.no_tag_no_match;
    [reflexivity | | | ]; now apply absent_head_not_included.
Qed.

Lemma plain_marked_up (info : projectInfo) :
  has_char "<" (information info) = false ->
  alerts info = no_alerts ->
  marked_up info = info.
Proof.
  intros Hplain Hno. destruct info as [text a]. cbn [information alerts] in *.
  subst a. unfold marked_up, informationHtml. cbn [inject_tier fold_left
    information alerts no_alerts advancements small_alerts critical_alerts].
  now rewrite plain_text_has_no_alert.
Qed.

Lemma fold_set_plain (entries : Obj.t projectInfo) :
  Forall (fun e => has_char "<" (information (snd e)) = false
                   /\ alerts (snd e) = no_alerts) entries ->
  forall acc,
    fold_left (fun a e => Obj.set (fst e) (marked_up (snd e)) a) entries acc
    = fold_left (fun a e => Obj.set (fst e) (snd e) a) entries acc.
Proof.
  induction 1 as [|e rest [Hplain Hno] _ IH]; intros acc; [reflexivity|].
  cbn [fold_left]. now rewrite plain_marked_up, IH.
Qed.

(** X28.  Project data with at least one project, with upcoming events,
    with names that are not empty, and in which every project has a plain
    information text (no less-than sign) and no alert, comes back from the
    round trip through the slide table exactly as it was. *)
Theorem plain_data_round_trip (pd : projectData) (events : string) :
  activities pd <> [] ->
  Obj.canonical (activities pd) ->
  Forall (fun k => k <> EmptyString) (Obj.keys (activities pd)) ->
  Forall (fun e => has_char "<" (information (snd e)) = false
                   /\ alerts (snd e) = no_alerts) (activities pd) ->
  upcoming_events pd = Some events ->
  updateProjectData (convertProjectDataToSlides pd) pd = pd.
Proof.
  intros Hne Hcanon Hkeys Hplain Hevents.
  unfold convertProjectDataToSlides, updateProjectData.
  assert (Hlen : (0 <? List.length (Obj.keys (activities pd)))%nat = true).
  { unfold Obj.keys. rewrite length_map.
    destruct (activities pd); [congruence | reflexivity]. }
  cbn [tables]. rewrite Hlen. cbn [project_table rows tl].
  destruct pd as [acts ev m]. cbn [activities upcoming_events meta] in *.
  subst ev. f_equal.
  - rewrite ViewerFacts.reduce_project_rows by assumption.
    rewrite fold_set_plain by assumption. exact Hcanon.
  - destruct acts as [|[k info] rest]; [congruence | reflexivity].
Qed.

Lemma two_projects_round_trip :
  updateProjectData (convertProjectDataToSlides Samples.two_projects)
    Samples.two_projects
  = Samples.two_projects.
Proof.
  apply (plain_data_round_trip Samples.two_projects "Review on Friday").
  - discriminate.
  - reflexivity.
  - repeat constructor; discriminate.
  - repeat constructor.
  - reflexivity.
Defined.

(** *** [decode_entities] *)

Import Parser.

Lemma replace_all_past (c : ascii) (l by_ : string) :
  forall a s,
    has_char c a = false ->
    replace_all (String c l) by_ (a ++ s) = a ++ replace_all (String c l) by_ s.
Proof.
  unfold replace_all.
  induction a as [|d a IH]; intros s H; [reflexivity|].
  cbn [has_char] in H. apply orb_false_elim in H. destruct H as [Hd Ha].
  cbn [append replace_all_from strip_prefix]. rewrite Hd.
  now rewrite IH.
Qed.

Lemma replace_all_plain (c : ascii) (l by_ s : string) :
  has_char c s = false -> replace_all (String c l) by_ s = s.
Proof.
  intros H. rewrite <- (RegexFacts.append_nil_r s) at 1.
  rewrite replace_all_past by assumption.
  now rewrite RegexFacts.append_nil_r.
Qed.

Ltac decode_pass a b :=
  rewrite (replace_all_past _ _ _ a) by assumption;
  cbn [append];
  match goal with
  | |- context [replace_all ?l ?r (String ?c ?s)] =>
      let t := constr:(replace_all l r (String c s)) in
      let t' := eval cbn [replace_all replace_all_from strip_prefix append
                          String.length Ascii.eqb Bool.eqb andb] in t in
      change t with t'
  end;
  repeat match goal with
         | |- context [replace_all_from ?l ?r 0 b] =>
             change (replace_all_from l r 0 b) with (replace_all l r b)
         end;
  rewrite (replace_all_plain _ _ _ b) by assumption.

(** X29.  [decode_entities] leaves a text without ampersand as it is
    and decodes an entity between two such texts; the five entities are
    decoded one after the other, the ampersand third, so that an
    ampersand entity followed by [quot;] comes out as a double quote,
    while one followed by [lt;] comes out as the four characters of the
    less-than entity. *)
Theorem entities_are_decoded_in_sequence (a b : string) :
  has_char "&" a = false ->
  has_char "&" b = false ->
  decode_entities a = a
  /\ decode_entities (a ++ "&lt;" ++ b) = a ++ "<" ++ b
  /\ decode_entities (a ++ "&quot;" ++ b) = a ++ dq ++ b
  /\ decode_entities (a ++ "&amp;lt;" ++ b) = a ++ "&lt;" ++ b
  /\ decode_entities (a ++ "&amp;quot;" ++ b) = a ++ dq ++ b.
Proof.
  intros Ha Hb. unfold decode_entities, dq.
  split; [now rewrite !(replace_all_plain _ _ _ a) by assumption|].
  repeat split; do 5 decode_pass a b; reflexivity.
Qed.

Lemma ampersand_entity_before_quot :
  decode_entities "Q3" = "Q3"
  /\ decode_entities ("Q3" ++ "&lt;" ++ "Q4") = "Q3" ++ "<" ++ "Q4"
  /\ decode_entities ("Q3" ++ "&quot;" ++ "Q4") = "Q3" ++ dq ++ "Q4"
  /\ decode_entities ("Q3" ++ "&amp;lt;" ++ "Q4") = "Q3" ++ "&lt;" ++ "Q4"
  /\ decode_entities ("Q3" ++ "&amp;quot;" ++ "Q4") = "Q3" ++ dq ++ "Q4".
Proof.
  apply (entities_are_decoded_in_sequence "Q3" "Q4"); reflexivity.
Defined.

End PlainFacts.
